(** * pdf_viewer: coordinate mapping, overlay store, export and thumbnail cache

    A shallow embedding of [src/pdf_viewer.py] (class [ModernPDFViewer]).

    Conventions of the embedding.
    - Python numbers (the [int]s of Tk events, the [float]s of canvas
      coordinates and page sizes) are rationals [Q]; arithmetic is exact, so
      rounding of IEEE doubles is idealised away.  Numeric equality is [==].
      Where the rounding decides a property, the arithmetic is embedded a
      second time on binary64 floats (module [Double]).
    - The object [self] is the record [Viewer]; a method is a computation in
      the state-and-exception monad [M]: it reads and writes the viewer and
      either returns a value or raises.  Mutations made before a [raise]
      stay, as in Python.
    - Python dicts keyed by page index are [gmap Z _]; the [OrderedDict] of
      thumbnails is an association list, oldest entry first.
    - Text annotations are Python dicts shared between the overlay store, the
      selection and the drag state: they live in [text_heap] and are passed
      around as references.
    - What the program delegates to Tk, PyMuPDF and PIL (hit testing, bounding
      boxes, raster sizes, text insertion, saving) is a field of [Toolkit]. *)

From Stdlib Require Import ZArith QArith Qabs Qround Lqa Lia List String Ascii.
From Stdlib Require Import Floats.
From stdpp Require Import base option list gmap.

Open Scope Q_scope.

(** ** Python values and builtins *)

Module Py.

Inductive exn :=
| AttributeError | IndexError | KeyError | TypeError | ValueError
| ZeroDivisionError | OSError (errno : Z).

Inductive result (A : Type) :=
| Ok (a : A)
| Raise (e : exn).
Arguments Ok {A} a.
Arguments Raise {A} e.

(** An instance attribute: never assigned, assigned [None], or an object.
    [hasattr] is [false] only for [Unset]. *)
Inductive attr (A : Type) :=
| Unset
| PyNone
| Obj (a : A).
Arguments Unset {A}.
Arguments PyNone {A}.
Arguments Obj {A} a.

Definition hasattr {A} (a : attr A) : bool :=
  match a with Unset => false | _ => true end.

(** Comparisons of numbers. *)
Definition ltb (a b : Q) : bool := negb (Qle_bool b a).
Definition gtb (a b : Q) : bool := ltb b a.

(** [min(a, b)] keeps [a] unless [b < a]; [max(a, b)] keeps [a] unless
    [b > a]. *)
Definition min (a b : Q) : Q := if ltb b a then b else a.
Definition max (a b : Q) : Q := if gtb b a then b else a.

(** [str]: a sequence of code points. *)
Definition str := list N.

Fixpoint lit (s : string) : str :=
  match s with
  | EmptyString => []
  | String c s' => N_of_ascii c :: lit s'
  end.

Definition chr_eqb (a b : N) : bool := N.eqb a b.

Fixpoint str_eqb (a b : str) : bool :=
  match a, b with
  | [], [] => true
  | c :: a', d :: b' => chr_eqb c d && str_eqb a' b'
  | _, _ => false
  end.

(** [str.isspace] for one code point (the Unicode White_Space and
    bidirectional-separator code points CPython tests for). *)
Definition isspace (c : N) : bool :=
  ((9 <=? c) && (c <=? 13) || (28 <=? c) && (c <=? 32)
   || (c =? 133) || (c =? 160) || (c =? 5760)
   || (8192 <=? c) && (c <=? 8202)
   || (c =? 8232) || (c =? 8233) || (c =? 8239) || (c =? 8287)
   || (c =? 12288))%N.

(** [s.lstrip(chars)], [s.rstrip(chars)] and [s.strip()] with the set of
    characters given as a predicate. *)
Fixpoint lstrip_by (p : N -> bool) (s : str) : str :=
  match s with
  | [] => []
  | c :: s' => if p c then lstrip_by p s' else s
  end.

Definition rstrip_by (p : N -> bool) (s : str) : str :=
  rev (lstrip_by p (rev s)).

Definition strip (s : str) : str := rstrip_by isspace (lstrip_by isspace s).

(** Truth value of a string: non-empty. *)
Definition truthy (s : str) : bool :=
  match s with [] => false | _ => true end.

(** [s.lower()] on the ASCII letters (font names are ASCII). *)
Definition lower_chr (c : N) : N :=
  if ((65 <=? c) && (c <=? 90))%N then (c + 32)%N else c.
Definition lower (s : str) : str := map lower_chr s.

Fixpoint startswith (s p : str) : bool :=
  match p, s with
  | [], _ => true
  | d :: p', c :: s' => chr_eqb c d && startswith s' p'
  | _ :: _, [] => false
  end.

(** [needle in hay] for strings. *)
Fixpoint contains (hay needle : str) : bool :=
  startswith hay needle ||
  match hay with
  | [] => false
  | _ :: hay' => contains hay' needle
  end.

(** [s[i:j]] for [0 <= i <= j]. *)
Definition slice (s : str) (i j : nat) : str := firstn (j - i) (skipn i s).

Definition hex_digit (c : N) : option Z :=
  if ((48 <=? c) && (c <=? 57))%N then Some (Z.of_N c - 48)%Z
  else if ((97 <=? c) && (c <=? 102))%N then Some (Z.of_N c - 87)%Z
  else if ((65 <=? c) && (c <=? 70))%N then Some (Z.of_N c - 55)%Z
  else None.

(** [int(s, 16)] for a string of at most two characters, the only ones
    [_hex_to_rgb01] passes: surrounding whitespace is ignored, one sign is
    accepted, then one or two hexadecimal digits (the ASCII ones: colours
    come from the palette of the panel). *)
Definition int16 (s : str) : result Z :=
  match strip s with
  | [a] =>
      match hex_digit a with Some v => Ok v | None => Raise ValueError end
  | [a; b] =>
      match hex_digit a, hex_digit b with
      | Some v, Some w => Ok (16 * v + w)%Z
      | None, Some w =>
          if chr_eqb a 43 then Ok w
          else if chr_eqb a 45 then Ok (- w)%Z
          else Raise ValueError
      | _, None => Raise ValueError
      end
  | _ => Raise ValueError
  end.

(** [seq[i]] on a Python list: negative indices count from the end. *)
Definition getitem {A} (l : list A) (i : Z) : result A :=
  let n := Z.of_nat (length l) in
  let j := if (i <? 0)%Z then (i + n)%Z else i in
  if (j <? 0)%Z then Raise IndexError
  else match l !! Z.to_nat j with
       | Some a => Ok a
       | None => Raise IndexError
       end.

(** [range(a, b)] *)
Definition range (a b : Z) : list Z :=
  map (fun k => (a + Z.of_nat k)%Z) (seq 0 (Z.to_nat (b - a))).

End Py.

Import Py.

(** ** The state-and-exception monad *)

Definition M (S A : Type) : Type := S -> S * result A.

Definition ret {S A} (a : A) : M S A := fun s => (s, Ok a).
Definition raise {S A} (e : exn) : M S A := fun s => (s, Raise e).
Definition bind {S A B} (m : M S A) (k : A -> M S B) : M S B :=
  fun s =>
    match m s with
    | (s', Ok a) => k a s'
    | (s', Raise e) => (s', Raise e)
    end.
Definition get {S} : M S S := fun s => (s, Ok s).
Definition gets {S A} (f : S -> A) : M S A := fun s => (s, Ok (f s)).
Definition modify {S} (f : S -> S) : M S unit := fun s => (f s, Ok tt).
Definition lift {S A} (r : result A) : M S A := fun s => (s, r).

(** [try: m  except Exception: h] *)
Definition try_except {S A} (m : M S A) (h : exn -> M S A) : M S A :=
  fun s =>
    match m s with
    | (s', Ok a) => (s', Ok a)
    | (s', Raise e) => h e s'
    end.

Notation "x <- m ;; k" := (bind m (fun x => k))
  (at level 20, m at level 99, k at level 200, only parsing).
Notation "' p <- m ;; k" := (bind m (fun p => k))
  (at level 20, p pattern, m at level 99, k at level 200, only parsing).
Notation "m ;;; k" := (bind m (fun _ => k))
  (at level 100, k at level 200, right associativity, only parsing).

Definition when {S} (b : bool) (m : M S unit) : M S unit :=
  if b then m else ret tt.

(** [for a in l: body a] *)
Fixpoint for_each {S A} (l : list A) (body : A -> M S unit) : M S unit :=
  match l with
  | [] => ret tt
  | a :: l' => body a ;;; for_each l' body
  end.

(** A [for] loop that threads a local variable. *)
Fixpoint for_fold {S A B} (l : list A) (body : B -> A -> M S B) (b : B) : M S B :=
  match l with
  | [] => ret b
  | a :: l' => b' <- body b a ;; for_fold l' body b'
  end.

(** ** Data model *)

(** A page of the document: [page.rect.width] and [page.rect.height], in
    points. *)
Record Page := { rect_width : Q; rect_height : Q }.

(** An [ImageTk.PhotoImage]: what [width()] and [height()] return. *)
Record PhotoImage := { width : Z; height : Z }.

(** A text annotation, the dict built by [save_text].  [td_id] stands for
    [id] of the page's list, which is created once per page. *)
Record TextData := {
  td_x : Q; td_y : Q; td_text : str; td_font : str; td_size : Z;
  td_color : str; td_id : Z }.

(** [a == b] on two such dicts. *)
Definition td_eqb (a b : TextData) : bool :=
  Qeq_bool (td_x a) (td_x b) && Qeq_bool (td_y a) (td_y b)
  && str_eqb (td_text a) (td_text b) && str_eqb (td_font a) (td_font b)
  && (td_size a =? td_size b)%Z && str_eqb (td_color a) (td_color b)
  && (td_id a =? td_id b)%Z.

(** A redaction rectangle as stored: the tuple of canvas coordinates. *)
Definition Rect : Type := Q * Q * Q * Q.

Definition rect_eqb (a b : Rect) : bool :=
  let '(a0, a1, a2, a3) := a in
  let '(b0, b1, b2, b3) := b in
  Qeq_bool a0 b0 && Qeq_bool a1 b1 && Qeq_bool a2 b2 && Qeq_bool a3 b3.

(** [x in l] and [l.remove(x)] (first equal element) for an equality test;
    [remove] is only called under [x in l]. *)
Definition py_in {A} (eqb : A -> A -> bool) (x : A) (l : list A) : bool :=
  existsb (eqb x) l.

Fixpoint py_remove {A} (eqb : A -> A -> bool) (x : A) (l : list A) : list A :=
  match l with
  | [] => []
  | a :: l' => if eqb x a then l' else a :: py_remove eqb x l'
  end.

(** *** The Tk canvas *)

Inductive Tag :=
| tag_pdf | tag_redact_overlay | tag_text_overlay | tag_text_selected
| tag_text_id (r : nat).

Definition tag_eqb (a b : Tag) : bool :=
  match a, b with
  | tag_pdf, tag_pdf | tag_redact_overlay, tag_redact_overlay
  | tag_text_overlay, tag_text_overlay
  | tag_text_selected, tag_text_selected => true
  | tag_text_id r, tag_text_id r' => Nat.eqb r r'
  | _, _ => false
  end.

Inductive Anchor := CENTER | NW.

Inductive ItemKind :=
| image_item (image : PhotoImage) (anchor : Anchor)
| rectangle_item
| text_item (text : str) (font : str) (size : Z) (fill : str)
| window_item (window : nat).

Record Item := {
  item_kind : ItemKind; item_coords : list Q; item_tags : list Tag }.

(** The canvas widget: its size on screen, the last item id handed out and
    the display list. *)
Record Canvas := {
  winfo_width : Z; winfo_height : Z;
  last_item : Z; canvas_items : list (Z * Item) }.

Definition has_tag (t : Tag) (it : Item) : bool :=
  existsb (tag_eqb t) (item_tags it).

Definition canvas_lookup (c : Canvas) (id : Z) : option Item :=
  snd <$> List.find (fun p => (fst p =? id)%Z) (canvas_items c).

(** Tk keeps the corners of a rectangle ordered. *)
Definition tk_order (coords : list Q) : list Q :=
  match coords with
  | [x0; y0; x1; y1] =>
      let '(y0, y1) := if gtb y0 y1 then (y1, y0) else (y0, y1) in
      let '(x0, x1) := if gtb x0 x1 then (x1, x0) else (x0, x1) in
      [x0; y0; x1; y1]
  | _ => coords
  end.

Definition place_coords (k : ItemKind) (coords : list Q) : list Q :=
  match k with rectangle_item => tk_order coords | _ => coords end.

(** [create_image], [create_rectangle], [create_text], [create_window]. *)
Definition canvas_create (k : ItemKind) (coords : list Q) (tags : list Tag)
    (c : Canvas) : Z * Canvas :=
  let id := (last_item c + 1)%Z in
  (id, {| winfo_width := winfo_width c; winfo_height := winfo_height c;
          last_item := id;
          canvas_items := canvas_items c ++
            [(id, {| item_kind := k; item_coords := place_coords k coords;
                     item_tags := tags |})] |}).

Definition canvas_filter (keep : Z * Item -> bool) (c : Canvas) : Canvas :=
  {| winfo_width := winfo_width c; winfo_height := winfo_height c;
     last_item := last_item c;
     canvas_items := List.filter keep (canvas_items c) |}.

(** [delete(item)] and [delete(tag)]. *)
Definition canvas_delete (id : Z) (c : Canvas) : Canvas :=
  canvas_filter (fun p => negb (fst p =? id)%Z) c.
Definition canvas_delete_tag (t : Tag) (c : Canvas) : Canvas :=
  canvas_filter (fun p => negb (has_tag t (snd p))) c.

(** [coords(item)]: the empty list for an item that is gone. *)
Definition canvas_coords (c : Canvas) (id : Z) : list Q :=
  match canvas_lookup c id with
  | Some it => item_coords it
  | None => []
  end.

(** [coords(item, ...)]: moves the item; nothing happens if it is gone. *)
Definition canvas_set_coords (id : Z) (coords : list Q) (c : Canvas) : Canvas :=
  {| winfo_width := winfo_width c; winfo_height := winfo_height c;
     last_item := last_item c;
     canvas_items :=
       map (fun p =>
              if (fst p =? id)%Z
              then (fst p,
                    {| item_kind := item_kind (snd p);
                       item_coords := place_coords (item_kind (snd p)) coords;
                       item_tags := item_tags (snd p) |})
              else p)
           (canvas_items c) |}.

Definition gettags (c : Canvas) (id : Z) : list Tag :=
  match canvas_lookup c id with
  | Some it => item_tags it
  | None => []
  end.

Definition find_withtag (c : Canvas) (t : Tag) : list Z :=
  map fst (List.filter (fun p => has_tag t (snd p)) (canvas_items c)).

Definition canvas_resize (w h : Z) (c : Canvas) : Canvas :=
  {| winfo_width := w; winfo_height := h;
     last_item := last_item c; canvas_items := canvas_items c |}.

(** *** The exported document *)

Inductive DrawOp :=
| draw_rect (rect : Rect)
| insert_text (point : Q * Q) (text : str) (fontsize : Z)
    (fontname : option str) (color : Q * Q * Q).

Record OutPage := { out_page : Page; out_ops : list DrawOp }.

(** *** What the libraries decide *)

Record Toolkit := {
  (** PyMuPDF: the pixel size of [page.get_pixmap(matrix=Matrix(z, z))]. *)
  get_pixmap_size : Page -> Q -> Z * Z;
  (** PIL: the size of an image after [img.thumbnail(target)]. *)
  thumbnail : Z * Z -> Z * Z -> Z * Z;
  (** Tk: [find_overlapping(x0, y0, x1, y1)], lowest item first. *)
  find_overlapping : Canvas -> Q -> Q -> Q -> Q -> list Z;
  (** Tk: [bbox(item)]. *)
  bbox : Canvas -> Z -> option (Q * Q * Q * Q);
  (** PyMuPDF: does [page.insert_text] with this font name raise? *)
  insert_text_raises : option str -> str -> option exn;
  (** PyMuPDF: does [out.save(path)] raise? *)
  save_raises : str -> list OutPage -> option exn }.

(** *** The viewer object *)

Inductive Mode := draw | move.

(** The dict [_redact_overlay]; the key ["offset"] exists once a move has
    started. *)
Record RedactOverlay := {
  start_x : option Q; start_y : option Q; current_item : option Z;
  mode : Mode; offset : option (Q * Q) }.

(** The dict [_text_drag]. *)
Record TextDrag := { drag_item : Z; drag_td : nat; drag_dx : Q; drag_dy : Q }.

(** An [Entry] opened by [_text_click], with what its [save_text] closure
    captured: the click position, the Tk font family and the canvas window. *)
Record Entry := {
  entry_x : Z; entry_y : Z; entry_tk_family : str; entry_text_window : Z }.

Inductive Callback := cb_display_page | cb_schedule_thumb_batch.

Inductive Tool := tool_none | tool_stamp | tool_write | tool_esign | tool_redact.

(** What the arrow keys and [<Delete>] of the root window are bound to. *)
Inductive Keys := keys_unbound | keys_navigate | keys_redact.

Record Viewer := {
  pdf_document : list Page;
  current_page : Z;
  total_pages : Z;
  _page_photo : attr PhotoImage;
  thumbnail_cache : list (Z * PhotoImage);
  max_thumb_cache : Z;
  _thumb_photos_by_button : gmap Z PhotoImage;
  base_zoom : Q;
  zoom : Q;
  min_zoom : Q;
  max_zoom : Q;
  fit_to_window : bool;
  _thumb_batch_idx : Z;
  _thumb_buttons : list (option PhotoImage);
  _thumb_batch_size : Z;
  _thumb_target_size : Z * Z;
  _redactions_by_page : gmap Z (list Rect);
  _texts_by_page : gmap Z (list nat);
  text_heap : list TextData;
  _selected_text : option (Z * nat);
  _font_map : list (str * (str * str));
  _active_tool : Tool;
  _text_overlay : option bool;
  _text_drag : option TextDrag;
  _text_panel : bool;
  _font_family : option str;
  _font_size : option Z;
  _text_color : option str;
  _redact_overlay : option RedactOverlay;
  pdf_canvas : Canvas;
  text_entries : list Entry;
  after_queue : list Callback;
  (** the tool whose handlers are bound to the mouse events of the canvas *)
  canvas_bindings : Tool;
  key_bindings : Keys }.

(** Assignments to the attributes of [self]. *)
Definition set_current_page v (s : Viewer) : Viewer :=
  {| pdf_document := pdf_document s; current_page := v;
     total_pages := total_pages s; _page_photo := _page_photo s;
     thumbnail_cache := thumbnail_cache s;
     max_thumb_cache := max_thumb_cache s;
     _thumb_photos_by_button := _thumb_photos_by_button s;
     base_zoom := base_zoom s; zoom := zoom s; min_zoom := min_zoom s;
     max_zoom := max_zoom s; fit_to_window := fit_to_window s;
     _thumb_batch_idx := _thumb_batch_idx s;
     _thumb_buttons := _thumb_buttons s;
     _thumb_batch_size := _thumb_batch_size s;
     _thumb_target_size := _thumb_target_size s;
     _redactions_by_page := _redactions_by_page s;
     _texts_by_page := _texts_by_page s; text_heap := text_heap s;
     _selected_text := _selected_text s; _font_map := _font_map s;
     _active_tool := _active_tool s; _text_overlay := _text_overlay s;
     _text_drag := _text_drag s; _text_panel := _text_panel s;
     _font_family := _font_family s; _font_size := _font_size s;
     _text_color := _text_color s; _redact_overlay := _redact_overlay s;
     pdf_canvas := pdf_canvas s; text_entries := text_entries s;
     after_queue := after_queue s; canvas_bindings := canvas_bindings s;
     key_bindings := key_bindings s |}.
Definition set_page_photo v (s : Viewer) : Viewer :=
  {| pdf_document := pdf_document s; current_page := current_page s;
     total_pages := total_pages s; _page_photo := v;
     thumbnail_cache := thumbnail_cache s;
     max_thumb_cache := max_thumb_cache s;
     _thumb_photos_by_button := _thumb_photos_by_button s;
     base_zoom := base_zoom s; zoom := zoom s; min_zoom := min_zoom s;
     max_zoom := max_zoom s; fit_to_window := fit_to_window s;
     _thumb_batch_idx := _thumb_batch_idx s;
     _thumb_buttons := _thumb_buttons s;
     _thumb_batch_size := _thumb_batch_size s;
     _thumb_target_size := _thumb_target_size s;
     _redactions_by_page := _redactions_by_page s;
     _texts_by_page := _texts_by_page s; text_heap := text_heap s;
     _selected_text := _selected_text s; _font_map := _font_map s;
     _active_tool := _active_tool s; _text_overlay := _text_overlay s;
     _text_drag := _text_drag s; _text_panel := _text_panel s;
     _font_family := _font_family s; _font_size := _font_size s;
     _text_color := _text_color s; _redact_overlay := _redact_overlay s;
     pdf_canvas := pdf_canvas s; text_entries := text_entries s;
     after_queue := after_queue s; canvas_bindings := canvas_bindings s;
     key_bindings := key_bindings s |}.
Definition set_thumbnail_cache v (s : Viewer) : Viewer :=
  {| pdf_document := pdf_document s; current_page := current_page s;
     total_pages := total_pages s; _page_photo := _page_photo s;
     thumbnail_cache := v; max_thumb_cache := max_thumb_cache s;
     _thumb_photos_by_button := _thumb_photos_by_button s;
     base_zoom := base_zoom s; zoom := zoom s; min_zoom := min_zoom s;
     max_zoom := max_zoom s; fit_to_window := fit_to_window s;
     _thumb_batch_idx := _thumb_batch_idx s;
     _thumb_buttons := _thumb_buttons s;
     _thumb_batch_size := _thumb_batch_size s;
     _thumb_target_size := _thumb_target_size s;
     _redactions_by_page := _redactions_by_page s;
     _texts_by_page := _texts_by_page s; text_heap := text_heap s;
     _selected_text := _selected_text s; _font_map := _font_map s;
     _active_tool := _active_tool s; _text_overlay := _text_overlay s;
     _text_drag := _text_drag s; _text_panel := _text_panel s;
     _font_family := _font_family s; _font_size := _font_size s;
     _text_color := _text_color s; _redact_overlay := _redact_overlay s;
     pdf_canvas := pdf_canvas s; text_entries := text_entries s;
     after_queue := after_queue s; canvas_bindings := canvas_bindings s;
     key_bindings := key_bindings s |}.
Definition set_thumb_photos_by_button v (s : Viewer) : Viewer :=
  {| pdf_document := pdf_document s; current_page := current_page s;
     total_pages := total_pages s; _page_photo := _page_photo s;
     thumbnail_cache := thumbnail_cache s;
     max_thumb_cache := max_thumb_cache s; _thumb_photos_by_button := v;
     base_zoom := base_zoom s; zoom := zoom s; min_zoom := min_zoom s;
     max_zoom := max_zoom s; fit_to_window := fit_to_window s;
     _thumb_batch_idx := _thumb_batch_idx s;
     _thumb_buttons := _thumb_buttons s;
     _thumb_batch_size := _thumb_batch_size s;
     _thumb_target_size := _thumb_target_size s;
     _redactions_by_page := _redactions_by_page s;
     _texts_by_page := _texts_by_page s; text_heap := text_heap s;
     _selected_text := _selected_text s; _font_map := _font_map s;
     _active_tool := _active_tool s; _text_overlay := _text_overlay s;
     _text_drag := _text_drag s; _text_panel := _text_panel s;
     _font_family := _font_family s; _font_size := _font_size s;
     _text_color := _text_color s; _redact_overlay := _redact_overlay s;
     pdf_canvas := pdf_canvas s; text_entries := text_entries s;
     after_queue := after_queue s; canvas_bindings := canvas_bindings s;
     key_bindings := key_bindings s |}.
Definition set_zoom v (s : Viewer) : Viewer :=
  {| pdf_document := pdf_document s; current_page := current_page s;
     total_pages := total_pages s; _page_photo := _page_photo s;
     thumbnail_cache := thumbnail_cache s;
     max_thumb_cache := max_thumb_cache s;
     _thumb_photos_by_button := _thumb_photos_by_button s;
     base_zoom := base_zoom s; zoom := v; min_zoom := min_zoom s;
     max_zoom := max_zoom s; fit_to_window := fit_to_window s;
     _thumb_batch_idx := _thumb_batch_idx s;
     _thumb_buttons := _thumb_buttons s;
     _thumb_batch_size := _thumb_batch_size s;
     _thumb_target_size := _thumb_target_size s;
     _redactions_by_page := _redactions_by_page s;
     _texts_by_page := _texts_by_page s; text_heap := text_heap s;
     _selected_text := _selected_text s; _font_map := _font_map s;
     _active_tool := _active_tool s; _text_overlay := _text_overlay s;
     _text_drag := _text_drag s; _text_panel := _text_panel s;
     _font_family := _font_family s; _font_size := _font_size s;
     _text_color := _text_color s; _redact_overlay := _redact_overlay s;
     pdf_canvas := pdf_canvas s; text_entries := text_entries s;
     after_queue := after_queue s; canvas_bindings := canvas_bindings s;
     key_bindings := key_bindings s |}.
Definition set_fit_to_window v (s : Viewer) : Viewer :=
  {| pdf_document := pdf_document s; current_page := current_page s;
     total_pages := total_pages s; _page_photo := _page_photo s;
     thumbnail_cache := thumbnail_cache s;
     max_thumb_cache := max_thumb_cache s;
     _thumb_photos_by_button := _thumb_photos_by_button s;
     base_zoom := base_zoom s; zoom := zoom s; min_zoom := min_zoom s;
     max_zoom := max_zoom s; fit_to_window := v;
     _thumb_batch_idx := _thumb_batch_idx s;
     _thumb_buttons := _thumb_buttons s;
     _thumb_batch_size := _thumb_batch_size s;
     _thumb_target_size := _thumb_target_size s;
     _redactions_by_page := _redactions_by_page s;
     _texts_by_page := _texts_by_page s; text_heap := text_heap s;
     _selected_text := _selected_text s; _font_map := _font_map s;
     _active_tool := _active_tool s; _text_overlay := _text_overlay s;
     _text_drag := _text_drag s; _text_panel := _text_panel s;
     _font_family := _font_family s; _font_size := _font_size s;
     _text_color := _text_color s; _redact_overlay := _redact_overlay s;
     pdf_canvas := pdf_canvas s; text_entries := text_entries s;
     after_queue := after_queue s; canvas_bindings := canvas_bindings s;
     key_bindings := key_bindings s |}.
Definition set_thumb_batch_idx v (s : Viewer) : Viewer :=
  {| pdf_document := pdf_document s; current_page := current_page s;
     total_pages := total_pages s; _page_photo := _page_photo s;
     thumbnail_cache := thumbnail_cache s;
     max_thumb_cache := max_thumb_cache s;
     _thumb_photos_by_button := _thumb_photos_by_button s;
     base_zoom := base_zoom s; zoom := zoom s; min_zoom := min_zoom s;
     max_zoom := max_zoom s; fit_to_window := fit_to_window s;
     _thumb_batch_idx := v; _thumb_buttons := _thumb_buttons s;
     _thumb_batch_size := _thumb_batch_size s;
     _thumb_target_size := _thumb_target_size s;
     _redactions_by_page := _redactions_by_page s;
     _texts_by_page := _texts_by_page s; text_heap := text_heap s;
     _selected_text := _selected_text s; _font_map := _font_map s;
     _active_tool := _active_tool s; _text_overlay := _text_overlay s;
     _text_drag := _text_drag s; _text_panel := _text_panel s;
     _font_family := _font_family s; _font_size := _font_size s;
     _text_color := _text_color s; _redact_overlay := _redact_overlay s;
     pdf_canvas := pdf_canvas s; text_entries := text_entries s;
     after_queue := after_queue s; canvas_bindings := canvas_bindings s;
     key_bindings := key_bindings s |}.
Definition set_thumb_buttons v (s : Viewer) : Viewer :=
  {| pdf_document := pdf_document s; current_page := current_page s;
     total_pages := total_pages s; _page_photo := _page_photo s;
     thumbnail_cache := thumbnail_cache s;
     max_thumb_cache := max_thumb_cache s;
     _thumb_photos_by_button := _thumb_photos_by_button s;
     base_zoom := base_zoom s; zoom := zoom s; min_zoom := min_zoom s;
     max_zoom := max_zoom s; fit_to_window := fit_to_window s;
     _thumb_batch_idx := _thumb_batch_idx s; _thumb_buttons := v;
     _thumb_batch_size := _thumb_batch_size s;
     _thumb_target_size := _thumb_target_size s;
     _redactions_by_page := _redactions_by_page s;
     _texts_by_page := _texts_by_page s; text_heap := text_heap s;
     _selected_text := _selected_text s; _font_map := _font_map s;
     _active_tool := _active_tool s; _text_overlay := _text_overlay s;
     _text_drag := _text_drag s; _text_panel := _text_panel s;
     _font_family := _font_family s; _font_size := _font_size s;
     _text_color := _text_color s; _redact_overlay := _redact_overlay s;
     pdf_canvas := pdf_canvas s; text_entries := text_entries s;
     after_queue := after_queue s; canvas_bindings := canvas_bindings s;
     key_bindings := key_bindings s |}.
Definition set_redactions_by_page v (s : Viewer) : Viewer :=
  {| pdf_document := pdf_document s; current_page := current_page s;
     total_pages := total_pages s; _page_photo := _page_photo s;
     thumbnail_cache := thumbnail_cache s;
     max_thumb_cache := max_thumb_cache s;
     _thumb_photos_by_button := _thumb_photos_by_button s;
     base_zoom := base_zoom s; zoom := zoom s; min_zoom := min_zoom s;
     max_zoom := max_zoom s; fit_to_window := fit_to_window s;
     _thumb_batch_idx := _thumb_batch_idx s;
     _thumb_buttons := _thumb_buttons s;
     _thumb_batch_size := _thumb_batch_size s;
     _thumb_target_size := _thumb_target_size s; _redactions_by_page := v;
     _texts_by_page := _texts_by_page s; text_heap := text_heap s;
     _selected_text := _selected_text s; _font_map := _font_map s;
     _active_tool := _active_tool s; _text_overlay := _text_overlay s;
     _text_drag := _text_drag s; _text_panel := _text_panel s;
     _font_family := _font_family s; _font_size := _font_size s;
     _text_color := _text_color s; _redact_overlay := _redact_overlay s;
     pdf_canvas := pdf_canvas s; text_entries := text_entries s;
     after_queue := after_queue s; canvas_bindings := canvas_bindings s;
     key_bindings := key_bindings s |}.
Definition set_texts_by_page v (s : Viewer) : Viewer :=
  {| pdf_document := pdf_document s; current_page := current_page s;
     total_pages := total_pages s; _page_photo := _page_photo s;
     thumbnail_cache := thumbnail_cache s;
     max_thumb_cache := max_thumb_cache s;
     _thumb_photos_by_button := _thumb_photos_by_button s;
     base_zoom := base_zoom s; zoom := zoom s; min_zoom := min_zoom s;
     max_zoom := max_zoom s; fit_to_window := fit_to_window s;
     _thumb_batch_idx := _thumb_batch_idx s;
     _thumb_buttons := _thumb_buttons s;
     _thumb_batch_size := _thumb_batch_size s;
     _thumb_target_size := _thumb_target_size s;
     _redactions_by_page := _redactions_by_page s; _texts_by_page := v;
     text_heap := text_heap s; _selected_text := _selected_text s;
     _font_map := _font_map s; _active_tool := _active_tool s;
     _text_overlay := _text_overlay s; _text_drag := _text_drag s;
     _text_panel := _text_panel s; _font_family := _font_family s;
     _font_size := _font_size s; _text_color := _text_color s;
     _redact_overlay := _redact_overlay s; pdf_canvas := pdf_canvas s;
     text_entries := text_entries s; after_queue := after_queue s;
     canvas_bindings := canvas_bindings s; key_bindings := key_bindings s |}.
Definition set_text_heap v (s : Viewer) : Viewer :=
  {| pdf_document := pdf_document s; current_page := current_page s;
     total_pages := total_pages s; _page_photo := _page_photo s;
     thumbnail_cache := thumbnail_cache s;
     max_thumb_cache := max_thumb_cache s;
     _thumb_photos_by_button := _thumb_photos_by_button s;
     base_zoom := base_zoom s; zoom := zoom s; min_zoom := min_zoom s;
     max_zoom := max_zoom s; fit_to_window := fit_to_window s;
     _thumb_batch_idx := _thumb_batch_idx s;
     _thumb_buttons := _thumb_buttons s;
     _thumb_batch_size := _thumb_batch_size s;
     _thumb_target_size := _thumb_target_size s;
     _redactions_by_page := _redactions_by_page s;
     _texts_by_page := _texts_by_page s; text_heap := v;
     _selected_text := _selected_text s; _font_map := _font_map s;
     _active_tool := _active_tool s; _text_overlay := _text_overlay s;
     _text_drag := _text_drag s; _text_panel := _text_panel s;
     _font_family := _font_family s; _font_size := _font_size s;
     _text_color := _text_color s; _redact_overlay := _redact_overlay s;
     pdf_canvas := pdf_canvas s; text_entries := text_entries s;
     after_queue := after_queue s; canvas_bindings := canvas_bindings s;
     key_bindings := key_bindings s |}.
Definition set_selected_text v (s : Viewer) : Viewer :=
  {| pdf_document := pdf_document s; current_page := current_page s;
     total_pages := total_pages s; _page_photo := _page_photo s;
     thumbnail_cache := thumbnail_cache s;
     max_thumb_cache := max_thumb_cache s;
     _thumb_photos_by_button := _thumb_photos_by_button s;
     base_zoom := base_zoom s; zoom := zoom s; min_zoom := min_zoom s;
     max_zoom := max_zoom s; fit_to_window := fit_to_window s;
     _thumb_batch_idx := _thumb_batch_idx s;
     _thumb_buttons := _thumb_buttons s;
     _thumb_batch_size := _thumb_batch_size s;
     _thumb_target_size := _thumb_target_size s;
     _redactions_by_page := _redactions_by_page s;
     _texts_by_page := _texts_by_page s; text_heap := text_heap s;
     _selected_text := v; _font_map := _font_map s;
     _active_tool := _active_tool s; _text_overlay := _text_overlay s;
     _text_drag := _text_drag s; _text_panel := _text_panel s;
     _font_family := _font_family s; _font_size := _font_size s;
     _text_color := _text_color s; _redact_overlay := _redact_overlay s;
     pdf_canvas := pdf_canvas s; text_entries := text_entries s;
     after_queue := after_queue s; canvas_bindings := canvas_bindings s;
     key_bindings := key_bindings s |}.
Definition set_active_tool v (s : Viewer) : Viewer :=
  {| pdf_document := pdf_document s; current_page := current_page s;
     total_pages := total_pages s; _page_photo := _page_photo s;
     thumbnail_cache := thumbnail_cache s;
     max_thumb_cache := max_thumb_cache s;
     _thumb_photos_by_button := _thumb_photos_by_button s;
     base_zoom := base_zoom s; zoom := zoom s; min_zoom := min_zoom s;
     max_zoom := max_zoom s; fit_to_window := fit_to_window s;
     _thumb_batch_idx := _thumb_batch_idx s;
     _thumb_buttons := _thumb_buttons s;
     _thumb_batch_size := _thumb_batch_size s;
     _thumb_target_size := _thumb_target_size s;
     _redactions_by_page := _redactions_by_page s;
     _texts_by_page := _texts_by_page s; text_heap := text_heap s;
     _selected_text := _selected_text s; _font_map := _font_map s;
     _active_tool := v; _text_overlay := _text_overlay s;
     _text_drag := _text_drag s; _text_panel := _text_panel s;
     _font_family := _font_family s; _font_size := _font_size s;
     _text_color := _text_color s; _redact_overlay := _redact_overlay s;
     pdf_canvas := pdf_canvas s; text_entries := text_entries s;
     after_queue := after_queue s; canvas_bindings := canvas_bindings s;
     key_bindings := key_bindings s |}.
Definition set_text_overlay v (s : Viewer) : Viewer :=
  {| pdf_document := pdf_document s; current_page := current_page s;
     total_pages := total_pages s; _page_photo := _page_photo s;
     thumbnail_cache := thumbnail_cache s;
     max_thumb_cache := max_thumb_cache s;
     _thumb_photos_by_button := _thumb_photos_by_button s;
     base_zoom := base_zoom s; zoom := zoom s; min_zoom := min_zoom s;
     max_zoom := max_zoom s; fit_to_window := fit_to_window s;
     _thumb_batch_idx := _thumb_batch_idx s;
     _thumb_buttons := _thumb_buttons s;
     _thumb_batch_size := _thumb_batch_size s;
     _thumb_target_size := _thumb_target_size s;
     _redactions_by_page := _redactions_by_page s;
     _texts_by_page := _texts_by_page s; text_heap := text_heap s;
     _selected_text := _selected_text s; _font_map := _font_map s;
     _active_tool := _active_tool s; _text_overlay := v;
     _text_drag := _text_drag s; _text_panel := _text_panel s;
     _font_family := _font_family s; _font_size := _font_size s;
     _text_color := _text_color s; _redact_overlay := _redact_overlay s;
     pdf_canvas := pdf_canvas s; text_entries := text_entries s;
     after_queue := after_queue s; canvas_bindings := canvas_bindings s;
     key_bindings := key_bindings s |}.
Definition set_text_drag v (s : Viewer) : Viewer :=
  {| pdf_document := pdf_document s; current_page := current_page s;
     total_pages := total_pages s; _page_photo := _page_photo s;
     thumbnail_cache := thumbnail_cache s;
     max_thumb_cache := max_thumb_cache s;
     _thumb_photos_by_button := _thumb_photos_by_button s;
     base_zoom := base_zoom s; zoom := zoom s; min_zoom := min_zoom s;
     max_zoom := max_zoom s; fit_to_window := fit_to_window s;
     _thumb_batch_idx := _thumb_batch_idx s;
     _thumb_buttons := _thumb_buttons s;
     _thumb_batch_size := _thumb_batch_size s;
     _thumb_target_size := _thumb_target_size s;
     _redactions_by_page := _redactions_by_page s;
     _texts_by_page := _texts_by_page s; text_heap := text_heap s;
     _selected_text := _selected_text s; _font_map := _font_map s;
     _active_tool := _active_tool s; _text_overlay := _text_overlay s;
     _text_drag := v; _text_panel := _text_panel s;
     _font_family := _font_family s; _font_size := _font_size s;
     _text_color := _text_color s; _redact_overlay := _redact_overlay s;
     pdf_canvas := pdf_canvas s; text_entries := text_entries s;
     after_queue := after_queue s; canvas_bindings := canvas_bindings s;
     key_bindings := key_bindings s |}.
Definition set_text_panel v (s : Viewer) : Viewer :=
  {| pdf_document := pdf_document s; current_page := current_page s;
     total_pages := total_pages s; _page_photo := _page_photo s;
     thumbnail_cache := thumbnail_cache s;
     max_thumb_cache := max_thumb_cache s;
     _thumb_photos_by_button := _thumb_photos_by_button s;
     base_zoom := base_zoom s; zoom := zoom s; min_zoom := min_zoom s;
     max_zoom := max_zoom s; fit_to_window := fit_to_window s;
     _thumb_batch_idx := _thumb_batch_idx s;
     _thumb_buttons := _thumb_buttons s;
     _thumb_batch_size := _thumb_batch_size s;
     _thumb_target_size := _thumb_target_size s;
     _redactions_by_page := _redactions_by_page s;
     _texts_by_page := _texts_by_page s; text_heap := text_heap s;
     _selected_text := _selected_text s; _font_map := _font_map s;
     _active_tool := _active_tool s; _text_overlay := _text_overlay s;
     _text_drag := _text_drag s; _text_panel := v;
     _font_family := _font_family s; _font_size := _font_size s;
     _text_color := _text_color s; _redact_overlay := _redact_overlay s;
     pdf_canvas := pdf_canvas s; text_entries := text_entries s;
     after_queue := after_queue s; canvas_bindings := canvas_bindings s;
     key_bindings := key_bindings s |}.
Definition set_font_family v (s : Viewer) : Viewer :=
  {| pdf_document := pdf_document s; current_page := current_page s;
     total_pages := total_pages s; _page_photo := _page_photo s;
     thumbnail_cache := thumbnail_cache s;
     max_thumb_cache := max_thumb_cache s;
     _thumb_photos_by_button := _thumb_photos_by_button s;
     base_zoom := base_zoom s; zoom := zoom s; min_zoom := min_zoom s;
     max_zoom := max_zoom s; fit_to_window := fit_to_window s;
     _thumb_batch_idx := _thumb_batch_idx s;
     _thumb_buttons := _thumb_buttons s;
     _thumb_batch_size := _thumb_batch_size s;
     _thumb_target_size := _thumb_target_size s;
     _redactions_by_page := _redactions_by_page s;
     _texts_by_page := _texts_by_page s; text_heap := text_heap s;
     _selected_text := _selected_text s; _font_map := _font_map s;
     _active_tool := _active_tool s; _text_overlay := _text_overlay s;
     _text_drag := _text_drag s; _text_panel := _text_panel s;
     _font_family := v; _font_size := _font_size s;
     _text_color := _text_color s; _redact_overlay := _redact_overlay s;
     pdf_canvas := pdf_canvas s; text_entries := text_entries s;
     after_queue := after_queue s; canvas_bindings := canvas_bindings s;
     key_bindings := key_bindings s |}.
Definition set_font_size v (s : Viewer) : Viewer :=
  {| pdf_document := pdf_document s; current_page := current_page s;
     total_pages := total_pages s; _page_photo := _page_photo s;
     thumbnail_cache := thumbnail_cache s;
     max_thumb_cache := max_thumb_cache s;
     _thumb_photos_by_button := _thumb_photos_by_button s;
     base_zoom := base_zoom s; zoom := zoom s; min_zoom := min_zoom s;
     max_zoom := max_zoom s; fit_to_window := fit_to_window s;
     _thumb_batch_idx := _thumb_batch_idx s;
     _thumb_buttons := _thumb_buttons s;
     _thumb_batch_size := _thumb_batch_size s;
     _thumb_target_size := _thumb_target_size s;
     _redactions_by_page := _redactions_by_page s;
     _texts_by_page := _texts_by_page s; text_heap := text_heap s;
     _selected_text := _selected_text s; _font_map := _font_map s;
     _active_tool := _active_tool s; _text_overlay := _text_overlay s;
     _text_drag := _text_drag s; _text_panel := _text_panel s;
     _font_family := _font_family s; _font_size := v;
     _text_color := _text_color s; _redact_overlay := _redact_overlay s;
     pdf_canvas := pdf_canvas s; text_entries := text_entries s;
     after_queue := after_queue s; canvas_bindings := canvas_bindings s;
     key_bindings := key_bindings s |}.
Definition set_text_color v (s : Viewer) : Viewer :=
  {| pdf_document := pdf_document s; current_page := current_page s;
     total_pages := total_pages s; _page_photo := _page_photo s;
     thumbnail_cache := thumbnail_cache s;
     max_thumb_cache := max_thumb_cache s;
     _thumb_photos_by_button := _thumb_photos_by_button s;
     base_zoom := base_zoom s; zoom := zoom s; min_zoom := min_zoom s;
     max_zoom := max_zoom s; fit_to_window := fit_to_window s;
     _thumb_batch_idx := _thumb_batch_idx s;
     _thumb_buttons := _thumb_buttons s;
     _thumb_batch_size := _thumb_batch_size s;
     _thumb_target_size := _thumb_target_size s;
     _redactions_by_page := _redactions_by_page s;
     _texts_by_page := _texts_by_page s; text_heap := text_heap s;
     _selected_text := _selected_text s; _font_map := _font_map s;
     _active_tool := _active_tool s; _text_overlay := _text_overlay s;
     _text_drag := _text_drag s; _text_panel := _text_panel s;
     _font_family := _font_family s; _font_size := _font_size s;
     _text_color := v; _redact_overlay := _redact_overlay s;
     pdf_canvas := pdf_canvas s; text_entries := text_entries s;
     after_queue := after_queue s; canvas_bindings := canvas_bindings s;
     key_bindings := key_bindings s |}.
Definition set_redact_overlay v (s : Viewer) : Viewer :=
  {| pdf_document := pdf_document s; current_page := current_page s;
     total_pages := total_pages s; _page_photo := _page_photo s;
     thumbnail_cache := thumbnail_cache s;
     max_thumb_cache := max_thumb_cache s;
     _thumb_photos_by_button := _thumb_photos_by_button s;
     base_zoom := base_zoom s; zoom := zoom s; min_zoom := min_zoom s;
     max_zoom := max_zoom s; fit_to_window := fit_to_window s;
     _thumb_batch_idx := _thumb_batch_idx s;
     _thumb_buttons := _thumb_buttons s;
     _thumb_batch_size := _thumb_batch_size s;
     _thumb_target_size := _thumb_target_size s;
     _redactions_by_page := _redactions_by_page s;
     _texts_by_page := _texts_by_page s; text_heap := text_heap s;
     _selected_text := _selected_text s; _font_map := _font_map s;
     _active_tool := _active_tool s; _text_overlay := _text_overlay s;
     _text_drag := _text_drag s; _text_panel := _text_panel s;
     _font_family := _font_family s; _font_size := _font_size s;
     _text_color := _text_color s; _redact_overlay := v;
     pdf_canvas := pdf_canvas s; text_entries := text_entries s;
     after_queue := after_queue s; canvas_bindings := canvas_bindings s;
     key_bindings := key_bindings s |}.
Definition set_pdf_canvas v (s : Viewer) : Viewer :=
  {| pdf_document := pdf_document s; current_page := current_page s;
     total_pages := total_pages s; _page_photo := _page_photo s;
     thumbnail_cache := thumbnail_cache s;
     max_thumb_cache := max_thumb_cache s;
     _thumb_photos_by_button := _thumb_photos_by_button s;
     base_zoom := base_zoom s; zoom := zoom s; min_zoom := min_zoom s;
     max_zoom := max_zoom s; fit_to_window := fit_to_window s;
     _thumb_batch_idx := _thumb_batch_idx s;
     _thumb_buttons := _thumb_buttons s;
     _thumb_batch_size := _thumb_batch_size s;
     _thumb_target_size := _thumb_target_size s;
     _redactions_by_page := _redactions_by_page s;
     _texts_by_page := _texts_by_page s; text_heap := text_heap s;
     _selected_text := _selected_text s; _font_map := _font_map s;
     _active_tool := _active_tool s; _text_overlay := _text_overlay s;
     _text_drag := _text_drag s; _text_panel := _text_panel s;
     _font_family := _font_family s; _font_size := _font_size s;
     _text_color := _text_color s; _redact_overlay := _redact_overlay s;
     pdf_canvas := v; text_entries := text_entries s;
     after_queue := after_queue s; canvas_bindings := canvas_bindings s;
     key_bindings := key_bindings s |}.
Definition set_text_entries v (s : Viewer) : Viewer :=
  {| pdf_document := pdf_document s; current_page := current_page s;
     total_pages := total_pages s; _page_photo := _page_photo s;
     thumbnail_cache := thumbnail_cache s;
     max_thumb_cache := max_thumb_cache s;
     _thumb_photos_by_button := _thumb_photos_by_button s;
     base_zoom := base_zoom s; zoom := zoom s; min_zoom := min_zoom s;
     max_zoom := max_zoom s; fit_to_window := fit_to_window s;
     _thumb_batch_idx := _thumb_batch_idx s;
     _thumb_buttons := _thumb_buttons s;
     _thumb_batch_size := _thumb_batch_size s;
     _thumb_target_size := _thumb_target_size s;
     _redactions_by_page := _redactions_by_page s;
     _texts_by_page := _texts_by_page s; text_heap := text_heap s;
     _selected_text := _selected_text s; _font_map := _font_map s;
     _active_tool := _active_tool s; _text_overlay := _text_overlay s;
     _text_drag := _text_drag s; _text_panel := _text_panel s;
     _font_family := _font_family s; _font_size := _font_size s;
     _text_color := _text_color s; _redact_overlay := _redact_overlay s;
     pdf_canvas := pdf_canvas s; text_entries := v;
     after_queue := after_queue s; canvas_bindings := canvas_bindings s;
     key_bindings := key_bindings s |}.
Definition set_after_queue v (s : Viewer) : Viewer :=
  {| pdf_document := pdf_document s; current_page := current_page s;
     total_pages := total_pages s; _page_photo := _page_photo s;
     thumbnail_cache := thumbnail_cache s;
     max_thumb_cache := max_thumb_cache s;
     _thumb_photos_by_button := _thumb_photos_by_button s;
     base_zoom := base_zoom s; zoom := zoom s; min_zoom := min_zoom s;
     max_zoom := max_zoom s; fit_to_window := fit_to_window s;
     _thumb_batch_idx := _thumb_batch_idx s;
     _thumb_buttons := _thumb_buttons s;
     _thumb_batch_size := _thumb_batch_size s;
     _thumb_target_size := _thumb_target_size s;
     _redactions_by_page := _redactions_by_page s;
     _texts_by_page := _texts_by_page s; text_heap := text_heap s;
     _selected_text := _selected_text s; _font_map := _font_map s;
     _active_tool := _active_tool s; _text_overlay := _text_overlay s;
     _text_drag := _text_drag s; _text_panel := _text_panel s;
     _font_family := _font_family s; _font_size := _font_size s;
     _text_color := _text_color s; _redact_overlay := _redact_overlay s;
     pdf_canvas := pdf_canvas s; text_entries := text_entries s;
     after_queue := v; canvas_bindings := canvas_bindings s;
     key_bindings := key_bindings s |}.
Definition set_canvas_bindings v (s : Viewer) : Viewer :=
  {| pdf_document := pdf_document s; current_page := current_page s;
     total_pages := total_pages s; _page_photo := _page_photo s;
     thumbnail_cache := thumbnail_cache s;
     max_thumb_cache := max_thumb_cache s;
     _thumb_photos_by_button := _thumb_photos_by_button s;
     base_zoom := base_zoom s; zoom := zoom s; min_zoom := min_zoom s;
     max_zoom := max_zoom s; fit_to_window := fit_to_window s;
     _thumb_batch_idx := _thumb_batch_idx s;
     _thumb_buttons := _thumb_buttons s;
     _thumb_batch_size := _thumb_batch_size s;
     _thumb_target_size := _thumb_target_size s;
     _redactions_by_page := _redactions_by_page s;
     _texts_by_page := _texts_by_page s; text_heap := text_heap s;
     _selected_text := _selected_text s; _font_map := _font_map s;
     _active_tool := _active_tool s; _text_overlay := _text_overlay s;
     _text_drag := _text_drag s; _text_panel := _text_panel s;
     _font_family := _font_family s; _font_size := _font_size s;
     _text_color := _text_color s; _redact_overlay := _redact_overlay s;
     pdf_canvas := pdf_canvas s; text_entries := text_entries s;
     after_queue := after_queue s; canvas_bindings := v;
     key_bindings := key_bindings s |}.
Definition set_key_bindings v (s : Viewer) : Viewer :=
  {| pdf_document := pdf_document s; current_page := current_page s;
     total_pages := total_pages s; _page_photo := _page_photo s;
     thumbnail_cache := thumbnail_cache s;
     max_thumb_cache := max_thumb_cache s;
     _thumb_photos_by_button := _thumb_photos_by_button s;
     base_zoom := base_zoom s; zoom := zoom s; min_zoom := min_zoom s;
     max_zoom := max_zoom s; fit_to_window := fit_to_window s;
     _thumb_batch_idx := _thumb_batch_idx s;
     _thumb_buttons := _thumb_buttons s;
     _thumb_batch_size := _thumb_batch_size s;
     _thumb_target_size := _thumb_target_size s;
     _redactions_by_page := _redactions_by_page s;
     _texts_by_page := _texts_by_page s; text_heap := text_heap s;
     _selected_text := _selected_text s; _font_map := _font_map s;
     _active_tool := _active_tool s; _text_overlay := _text_overlay s;
     _text_drag := _text_drag s; _text_panel := _text_panel s;
     _font_family := _font_family s; _font_size := _font_size s;
     _text_color := _text_color s; _redact_overlay := _redact_overlay s;
     pdf_canvas := pdf_canvas s; text_entries := text_entries s;
     after_queue := after_queue s; canvas_bindings := canvas_bindings s;
     key_bindings := v |}.

(** ** Computations that only read [self] *)

Definition rbind {A B} (r : result A) (k : A -> result B) : result B :=
  match r with
  | Ok a => k a
  | Raise e => Raise e
  end.

Notation "x <~ r ;; k" := (rbind r (fun x => k))
  (at level 20, r at level 99, k at level 200, only parsing).

(** [m] run as a method that leaves [self] alone. *)
Definition call {A} (f : Viewer -> result A) : M Viewer A :=
  fun s => (s, f s).

(** [self.pdf_document[i]]: PyMuPDF refuses [i >= page_count] and counts a
    negative [i] from the end, as often as needed. *)
Definition doc_getitem (doc : list Page) (i : Z) : result Page :=
  let n := Z.of_nat (length doc) in
  if (n <=? i)%Z then Raise IndexError
  else match doc !! Z.to_nat (if (i <? 0)%Z then i mod n else i)%Z with
       | Some page => Ok page
       | None => Raise IndexError
       end.

(** ** Coordinate mapping *)

(** [_canvas_to_pdf_point] *)
Definition _canvas_to_pdf_point (self : Viewer) (page_idx : Z)
    (canvas_x canvas_y : Q) : result (Q * Q) :=
  page <~ doc_getitem (pdf_document self) page_idx ;;
  let pdf_width := rect_width page in
  let pdf_height := rect_height page in
  if negb (hasattr (_page_photo self)) then
    Ok (canvas_x, pdf_height - canvas_y)
  else
    (* [self._page_photo.width()]: [None] has no such method *)
    photo <~ match _page_photo self with
             | Obj photo => Ok photo
             | _ => Raise AttributeError
             end ;;
    let display_width := inject_Z (width photo) in
    let display_height := inject_Z (height photo) in
    let '(rel_x, rel_y) :=
      if fit_to_window self then
        let canvas_width := inject_Z (winfo_width (pdf_canvas self)) in
        let canvas_height := inject_Z (winfo_height (pdf_canvas self)) in
        let img_x_offset := (canvas_width - display_width) / 2 in
        let img_y_offset := (canvas_height - display_height) / 2 in
        let rel_x := canvas_x - img_x_offset in
        let rel_y := canvas_y - img_y_offset in
        if ltb rel_x 0 || gtb rel_x display_width
           || ltb rel_y 0 || gtb rel_y display_height
        then (Py.max 0 (Py.min display_width rel_x),
              Py.max 0 (Py.min display_height rel_y))
        else (rel_x, rel_y)
      else (canvas_x, canvas_y) in
    if Qeq_bool display_width 0 then Raise ZeroDivisionError else
    let scale_x := pdf_width / display_width in
    if Qeq_bool display_height 0 then Raise ZeroDivisionError else
    let scale_y := pdf_height / display_height in
    let pdf_x := rel_x * scale_x in
    let pdf_y := rel_y * scale_y in
    let pdf_y_flipped := pdf_height - pdf_y in
    Ok (pdf_x, pdf_y_flipped).

(** [_canvas_rect_to_pdf_rect] *)
Definition _canvas_rect_to_pdf_rect (self : Viewer) (page_idx : Z)
    (x0 y0 x1 y1 : Q) : result Rect :=
  pdf_p0 <~ _canvas_to_pdf_point self page_idx x0 y0 ;;
  pdf_p1 <~ _canvas_to_pdf_point self page_idx x1 y1 ;;
  Ok (Py.min (fst pdf_p0) (fst pdf_p1),
      Py.min (snd pdf_p0) (snd pdf_p1),
      Py.max (fst pdf_p0) (fst pdf_p1),
      Py.max (snd pdf_p0) (snd pdf_p1)).

(** ** Coordinate mapping on doubles

    [_canvas_to_pdf_point] once more, on the numbers Python computes with:
    the page size and the pixel are binary64 floats, the sizes of the canvas
    and of the page photo are [int]s, which Python converts to floats where
    they meet one (exactly, for sizes below 2^53).  The arguments are what
    the method reads from [self] once the page photo is there. *)

Module Double.

(** [float(z)] *)
Definition of_int (z : Z) : float :=
  match z with
  | Z0 => PrimFloat.zero
  | Zpos _ => PrimFloat.of_uint63 (Uint63.of_Z z)
  | Zneg p => PrimFloat.opp (PrimFloat.of_uint63 (Uint63.of_Z (Zpos p)))
  end.

Definition ltb (a b : float) : bool := PrimFloat.ltb a b.
Definition gtb (a b : float) : bool := ltb b a.
Definition min (a b : float) : float := if ltb b a then b else a.
Definition max (a b : float) : float := if gtb b a then b else a.

Definition _canvas_to_pdf_point (fit_to_window : bool)
    (winfo_width winfo_height width height : Z)
    (pdf_width pdf_height canvas_x canvas_y : float) : result (float * float) :=
  let display_width := of_int width in
  let display_height := of_int height in
  let '(rel_x, rel_y) :=
    if fit_to_window then
      let img_x_offset := PrimFloat.div (of_int (winfo_width - width)) 2 in
      let img_y_offset := PrimFloat.div (of_int (winfo_height - height)) 2 in
      let rel_x := PrimFloat.sub canvas_x img_x_offset in
      let rel_y := PrimFloat.sub canvas_y img_y_offset in
      if ltb rel_x 0 || gtb rel_x display_width
         || ltb rel_y 0 || gtb rel_y display_height
      then (max 0 (min display_width rel_x),
            max 0 (min display_height rel_y))
      else (rel_x, rel_y)
    else (canvas_x, canvas_y) in
  if (width =? 0)%Z then Raise ZeroDivisionError else
  let scale_x := PrimFloat.div pdf_width display_width in
  if (height =? 0)%Z then Raise ZeroDivisionError else
  let scale_y := PrimFloat.div pdf_height display_height in
  let pdf_x := PrimFloat.mul rel_x scale_x in
  let pdf_y := PrimFloat.mul rel_y scale_y in
  let pdf_y_flipped := PrimFloat.sub pdf_height pdf_y in
  Ok (pdf_x, pdf_y_flipped).

End Double.

(** ** Methods of the viewer *)

Section Methods.

Variable tk : Toolkit.

Definition on_canvas (f : Canvas -> Canvas) : M Viewer unit :=
  modify (fun s => set_pdf_canvas (f (pdf_canvas s)) s).

Definition canvas_new (k : ItemKind) (coords : list Q) (tags : list Tag)
  : M Viewer Z :=
  fun s =>
    let '(id, c) := canvas_create k coords tags (pdf_canvas s) in
    (set_pdf_canvas c s, Ok id).

(** [self.root.after(50, cb)] *)
Definition after (cb : Callback) : M Viewer unit :=
  modify (fun s => set_after_queue (after_queue s ++ [cb]) s).

(** [_restore_redactions] *)
Definition _restore_redactions : M Viewer unit :=
  on_canvas (canvas_delete_tag tag_redact_overlay) ;;;
  self <- get ;;
  match _redactions_by_page self !! current_page self with
  | Some rects =>
      for_each rects (fun '(x0, y0, x1, y1) =>
        canvas_new rectangle_item [x0; y0; x1; y1] [tag_redact_overlay] ;;;
        ret tt)
  | None => ret tt
  end.

(** [text_data[...]] through the reference [td]. *)
Definition deref (td : nat) : M Viewer TextData :=
  self <- get ;;
  match text_heap self !! td with
  | Some d => ret d
  | None => raise KeyError
  end.

(** [_render_text] *)
Definition _render_text (text_data : nat) : M Viewer Z :=
  d <- deref text_data ;;
  canvas_new (text_item (td_text d) (td_font d) (td_size d) (td_color d))
    [td_x d; td_y d] [tag_text_overlay; tag_text_id text_data].

(** [_restore_texts] *)
Definition _restore_texts : M Viewer unit :=
  on_canvas (canvas_delete_tag tag_text_overlay) ;;;
  self <- get ;;
  match _texts_by_page self !! current_page self with
  | Some tds => for_each tds (fun text_data => _render_text text_data ;;; ret tt)
  | None => ret tt
  end.

(** [display_page].  The status label and the highlighting of the active
    thumbnail frame ([_mark_active_thumb]) only restyle widgets and are left
    out. *)
Definition display_page : M Viewer unit :=
  self <- get ;;
  page <- lift (doc_getitem (pdf_document self) (current_page self)) ;;
  let cw := winfo_width (pdf_canvas self) in
  let ch := winfo_height (pdf_canvas self) in
  if ((cw <? 50) || (ch <? 50))%Z then after cb_display_page
  else
    let canvas_width := Z.max 50 cw in
    let canvas_height := Z.max 50 ch in
    (if fit_to_window self then
       let pix := get_pixmap_size tk page (base_zoom self) in
       let target_w := Z.max 1 (canvas_width - 40) in
       let target_h := Z.max 1 (canvas_height - 40) in
       let '(w, h) := thumbnail tk pix (target_w, target_h) in
       let photo := {| width := w; height := h |} in
       modify (set_page_photo (Obj photo)) ;;;
       on_canvas (canvas_delete_tag tag_pdf) ;;;
       canvas_new (image_item photo CENTER)
         [inject_Z (canvas_width / 2); inject_Z (canvas_height / 2)]
         [tag_pdf] ;;;
       ret tt
     else
       let '(w, h) := get_pixmap_size tk page (zoom self) in
       let photo := {| width := w; height := h |} in
       modify (set_page_photo (Obj photo)) ;;;
       on_canvas (canvas_delete_tag tag_pdf) ;;;
       canvas_new (image_item photo NW) [0; 0] [tag_pdf] ;;;
       ret tt) ;;;
    _restore_redactions ;;;
    _restore_texts.

(** *** The redaction tool *)

(** A Tk event: the pointer position in the canvas window. *)
Record Event := { event_x : Z; event_y : Z }.

(** [event.x] and [event.y] as numbers. *)
Definition ex (event : Event) : Q := inject_Z (event_x event).
Definition ey (event : Event) : Q := inject_Z (event_y event).

(** [coords[i]] *)
Definition coord (coords : list Q) (i : nat) : result Q :=
  match coords !! i with
  | Some c => Ok c
  | None => Raise IndexError
  end.

(** [tuple(coords)] compared with the stored tuples: only a tuple of four
    numbers can be equal to one of them. *)
Definition as_rect (coords : list Q) : option Rect :=
  match coords with
  | [a; b; c; d] => Some (a, b, c, d)
  | _ => None
  end.

Definition with_start (sx sy : option Q) (o : RedactOverlay) : RedactOverlay :=
  {| start_x := sx; start_y := sy; current_item := current_item o;
     mode := mode o; offset := offset o |}.
Definition with_current_item (it : option Z) (o : RedactOverlay) : RedactOverlay :=
  {| start_x := start_x o; start_y := start_y o; current_item := it;
     mode := mode o; offset := offset o |}.
Definition with_mode (m : Mode) (o : RedactOverlay) : RedactOverlay :=
  {| start_x := start_x o; start_y := start_y o; current_item := current_item o;
     mode := m; offset := offset o |}.
Definition with_offset (off : Q * Q) (o : RedactOverlay) : RedactOverlay :=
  {| start_x := start_x o; start_y := start_y o; current_item := current_item o;
     mode := mode o; offset := Some off |}.

(** [self._redact_overlay[...] = ...] on the dict that is there. *)
Definition on_redact_overlay (f : RedactOverlay -> RedactOverlay) : M Viewer unit :=
  modify (fun s => set_redact_overlay (f <$> _redact_overlay s) s).

(** [action_redact] *)
Definition action_redact : M Viewer unit :=
  modify (set_redact_overlay
            (Some {| start_x := None; start_y := None; current_item := None;
                     mode := draw; offset := None |})) ;;;
  modify (set_canvas_bindings tool_redact) ;;;
  modify (set_key_bindings keys_redact).

(** The first item under the pointer that carries the tag. *)
Definition first_tagged (c : Canvas) (t : Tag) (items : list Z) : option Z :=
  List.find (fun item => existsb (tag_eqb t) (gettags c item)) items.

(** [self._redactions_by_page[page].remove(coords)] if it is there. *)
Definition forget_redaction (page : Z) (coords : list Q) : M Viewer unit :=
  self <- get ;;
  match _redactions_by_page self !! page, as_rect coords with
  | Some rects, Some r =>
      when (py_in rect_eqb r rects)
        (modify (set_redactions_by_page
                   (<[page := py_remove rect_eqb r rects]>
                      (_redactions_by_page self))))
  | _, _ => ret tt
  end.

(** [_redact_start] *)
Definition _redact_start (event : Event) : M Viewer unit :=
  self <- get ;;
  match _redact_overlay self with
  | None => ret tt
  | Some _ =>
      let items := find_overlapping tk (pdf_canvas self)
                     (ex event) (ey event) (ex event) (ey event) in
      match first_tagged (pdf_canvas self) tag_redact_overlay items with
      | Some item =>
          on_redact_overlay (with_mode move) ;;;
          on_redact_overlay (with_current_item (Some item)) ;;;
          let coords := canvas_coords (pdf_canvas self) item in
          c0 <- lift (coord coords 0) ;;
          c1 <- lift (coord coords 1) ;;
          on_redact_overlay (with_offset (ex event - c0, ey event - c1))
      | None =>
          on_redact_overlay (with_mode draw) ;;;
          on_redact_overlay (with_start (Some (ex event)) (Some (ey event))) ;;;
          item <- canvas_new rectangle_item
                    [ex event; ey event; ex event; ey event] [tag_redact_overlay] ;;
          on_redact_overlay (with_current_item (Some item))
      end
  end.

(** [_redact_right_click] *)
Definition _redact_right_click (event : Event) : M Viewer unit :=
  self <- get ;;
  match _redact_overlay self with
  | None => ret tt
  | Some o =>
      let items := find_overlapping tk (pdf_canvas self)
                     (ex event) (ey event) (ex event) (ey event) in
      match first_tagged (pdf_canvas self) tag_redact_overlay items with
      | Some item =>
          let coords := canvas_coords (pdf_canvas self) item in
          forget_redaction (current_page self) coords ;;;
          on_canvas (canvas_delete item) ;;;
          when (match current_item o with
                | Some it => (it =? item)%Z
                | None => false
                end)
            (on_redact_overlay (with_current_item None))
      | None => ret tt
      end
  end.

(** [_redact_drag] *)
Definition _redact_drag (event : Event) : M Viewer unit :=
  self <- get ;;
  match _redact_overlay self with
  | None => ret tt
  | Some o =>
      match current_item o with
      | None => ret tt
      | Some item =>
          match mode o with
          | draw =>
              (* [min(None, event.x)] is a TypeError *)
              match start_x o, start_y o with
              | Some x1, Some y1 =>
                  on_canvas (canvas_set_coords item
                               [Py.min x1 (ex event); Py.min y1 (ey event);
                                Py.max x1 (ex event); Py.max y1 (ey event)])
              | _, _ => raise TypeError
              end
          | move =>
              match offset o with
              | None => raise KeyError
              | Some (ox, oy) =>
                  let coords := canvas_coords (pdf_canvas self) item in
                  c2 <- lift (coord coords 2) ;;
                  c0 <- lift (coord coords 0) ;;
                  c3 <- lift (coord coords 3) ;;
                  c1 <- lift (coord coords 1) ;;
                  let w := c2 - c0 in
                  let h := c3 - c1 in
                  let new_x := ex event - ox in
                  let new_y := ey event - oy in
                  on_canvas (canvas_set_coords item
                               [new_x; new_y; new_x + w; new_y + h])
              end
          end
      end
  end.

(** [_redact_finish].  The item is a rectangle, so [tuple(coords)] is the
    four numbers read. *)
Definition _redact_finish (event : Event) : M Viewer unit :=
  self <- get ;;
  match _redact_overlay self with
  | None => ret tt
  | Some o =>
      match mode o with
      | move => ret tt
      | draw =>
          match current_item o with
          | None => ret tt
          | Some item =>
              let coords := canvas_coords (pdf_canvas self) item in
              c2 <- lift (coord coords 2) ;;
              c0 <- lift (coord coords 0) ;;
              if ltb (Qabs (c2 - c0)) 5 then
                on_canvas (canvas_delete item) ;;;
                on_redact_overlay (with_current_item None)
              else
                c3 <- lift (coord coords 3) ;;
                c1 <- lift (coord coords 1) ;;
                if ltb (Qabs (c3 - c1)) 5 then
                  on_canvas (canvas_delete item) ;;;
                  on_redact_overlay (with_current_item None)
                else
                  modify (fun s =>
                    let page := current_page s in
                    let rects := default [] (_redactions_by_page s !! page) in
                    set_redactions_by_page
                      (<[page := rects ++ [(c0, c1, c2, c3)]]>
                         (_redactions_by_page s)) s)
          end ;;;
          on_redact_overlay (with_start None None) ;;;
          on_redact_overlay (with_mode draw)
      end
  end.

(** [_adjust_redact]: [dim] is ["h"] or anything else. *)
Definition _adjust_redact (dim_is_h : bool) (delta : Q) : M Viewer unit :=
  self <- get ;;
  match _redact_overlay self with
  | None => ret tt
  | Some o =>
      match current_item o with
      | None => ret tt
      | Some item =>
          match canvas_coords (pdf_canvas self) item with
          | [x1; y1; x2; y2] =>
              let '(x2, y2) :=
                if dim_is_h then (x2, Py.max (y1 + 5) (y2 + delta))
                else (Py.max (x1 + 5) (x2 + delta), y2) in
              on_canvas (canvas_set_coords item [x1; y1; x2; y2])
          | _ => raise ValueError
          end
      end
  end.

(** [_delete_redact] *)
Definition _delete_redact : M Viewer unit :=
  self <- get ;;
  match _redact_overlay self with
  | None => ret tt
  | Some o =>
      match current_item o with
      | None => ret tt
      | Some item =>
          let coords := canvas_coords (pdf_canvas self) item in
          forget_redaction (current_page self) coords ;;;
          on_canvas (canvas_delete item) ;;;
          on_redact_overlay (with_current_item None)
      end
  end.

(** *** The text tool *)

(** [dict.get(key, default)] on the ordered font map. *)
Fixpoint font_map_get (m : list (str * (str * str))) (label : str)
    (default : str * str) : str * str :=
  match m with
  | [] => default
  | (l, v) :: m' => if str_eqb l label then v else font_map_get m' label default
  end.

Definition default_font : str * str := (lit "Helvetica", lit "helv").

(** Reading a panel variable that was never created is an AttributeError. *)
Definition var {A} (v : Viewer -> option A) : M Viewer A :=
  self <- get ;;
  match v self with
  | Some a => ret a
  | None => raise AttributeError
  end.

(** [text_data[...] = ...] through the reference: every holder of the
    reference sees the change. *)
Definition td_update (td : nat) (f : TextData -> TextData) : M Viewer unit :=
  modify (fun s =>
    match text_heap s !! td with
    | Some d => set_text_heap (<[td := f d]> (text_heap s)) s
    | None => s
    end).

Definition td_with_font (v : str) (d : TextData) : TextData :=
  {| td_x := td_x d; td_y := td_y d; td_text := td_text d; td_font := v;
     td_size := td_size d; td_color := td_color d; td_id := td_id d |}.
Definition td_with_size (v : Z) (d : TextData) : TextData :=
  {| td_x := td_x d; td_y := td_y d; td_text := td_text d; td_font := td_font d;
     td_size := v; td_color := td_color d; td_id := td_id d |}.
Definition td_with_color (v : str) (d : TextData) : TextData :=
  {| td_x := td_x d; td_y := td_y d; td_text := td_text d; td_font := td_font d;
     td_size := td_size d; td_color := v; td_id := td_id d |}.
Definition td_with_xy (vx vy : Q) (d : TextData) : TextData :=
  {| td_x := vx; td_y := vy; td_text := td_text d; td_font := td_font d;
     td_size := td_size d; td_color := td_color d; td_id := td_id d |}.

(** [_clear_text_selection] *)
Definition _clear_text_selection : M Viewer unit :=
  on_canvas (canvas_delete_tag tag_text_selected) ;;;
  modify (set_selected_text None).

(** The dashed frame drawn around [bbox(item)], written out in the source at
    each of its four uses. *)
Definition frame_selected (item : Z) : M Viewer unit :=
  self <- get ;;
  match bbox tk (pdf_canvas self) item with
  | Some (x0, y0, x1, y1) =>
      let pad := 3 in
      canvas_new rectangle_item [x0 - pad; y0 - pad; x1 + pad; y1 + pad]
        [tag_text_selected] ;;;
      ret tt
  | None => ret tt
  end.

(** [_apply], the trace on the three panel variables. *)
Definition _apply : M Viewer unit :=
  self <- get ;;
  match _selected_text self with
  | None => ret tt
  | Some (item, td) =>
      match _text_drag self with
      | Some _ => ret tt
      | None =>
          label <- var _font_family ;;
          let tk_family := fst (font_map_get (_font_map self) label default_font) in
          d <- deref td ;;
          c1 <- (if negb (str_eqb (td_font d) tk_family)
                 then td_update td (td_with_font tk_family) ;;; ret true
                 else ret false) ;;
          size <- var _font_size ;;
          c2 <- (if negb (td_size d =? size)%Z
                 then td_update td (td_with_size size) ;;; ret true
                 else ret false) ;;
          color <- var _text_color ;;
          c3 <- (if negb (str_eqb (td_color d) color)
                 then td_update td (td_with_color color) ;;; ret true
                 else ret false) ;;
          when (c1 || c2 || c3)
            (on_canvas (canvas_delete item) ;;;
             _clear_text_selection ;;;
             new_item <- _render_text td ;;
             modify (set_selected_text (Some (new_item, td))) ;;;
             frame_selected new_item)
      end
  end.

(** Writing a panel variable runs its trace; Tk reports an exception of a
    callback and carries on. *)
Definition traced (write : Viewer -> Viewer) : M Viewer unit :=
  modify write ;;;
  try_except _apply (fun _ => ret tt).

(** [_create_text_panel] with [_bind_panel_traces] *)
Definition _create_text_panel : M Viewer unit :=
  self <- get ;;
  if _text_panel self then ret tt
  else
    modify (set_text_panel true) ;;;
    modify (set_font_family (fst <$> head (_font_map self))) ;;;
    modify (set_font_size (Some 12%Z)) ;;;
    modify (set_text_color (Some (lit "#000000"))).

(** [action_write] *)
Definition action_write : M Viewer unit :=
  modify (set_text_overlay (Some true)) ;;;
  modify (set_text_drag None) ;;;
  modify (set_canvas_bindings tool_write) ;;;
  _create_text_panel.

(** [_select_text] *)
Definition _select_text (item : Z) (text_data : nat) : M Viewer unit :=
  _clear_text_selection ;;;
  modify (set_selected_text (Some (item, text_data))) ;;;
  frame_selected item ;;;
  try_except
    (self <- get ;;
     d <- deref text_data ;;
     match List.find (fun '(label, (tkfam, _)) =>
                        contains (lower (td_font d)) (lower tkfam))
             (_font_map self) with
     | Some (label, _) =>
         var _font_family ;;; traced (set_font_family (Some label))
     | None => ret tt
     end ;;;
     d <- deref text_data ;;
     var _font_size ;;; traced (set_font_size (Some (td_size d))) ;;;
     d <- deref text_data ;;
     var _text_color ;;; traced (set_text_color (Some (td_color d))))
    (fun _ => ret tt).

(** The annotation a canvas item stands for: the first [text_id_] tag of the
    item, looked up by identity among the annotations of the current page. *)
Definition text_of_item (self : Viewer) (item : Z) : option nat :=
  match List.find (fun t => match t with tag_text_id _ => true | _ => false end)
          (gettags (pdf_canvas self) item) with
  | Some (tag_text_id tid) =>
      match _texts_by_page self !! current_page self with
      | Some tds => List.find (Nat.eqb tid) tds
      | None => None
      end
  | _ => None
  end.

(** [not hasattr(self, '_text_overlay') or not self._text_overlay.get("active")] *)
Definition text_tool_off (self : Viewer) : bool :=
  match _text_overlay self with
  | Some active => negb active
  | None => true
  end.

(** [_text_click] *)
Definition _text_click (event : Event) : M Viewer unit :=
  self <- get ;;
  if text_tool_off self then ret tt
  else
    let items := find_overlapping tk (pdf_canvas self)
                   (ex event - 5) (ey event - 5) (ex event + 5) (ey event + 5) in
    match first_tagged (pdf_canvas self) tag_text_overlay items with
    | Some item =>
        match text_of_item self item with
        | None => ret tt
        | Some td =>
            try_except (_select_text item td) (fun _ => ret tt) ;;;
            self <- get ;;
            d <- deref td ;;
            let '(px, py) :=
              match canvas_coords (pdf_canvas self) item with
              | c0 :: c1 :: _ => (c0, c1)
              | _ => (td_x d, td_y d)
              end in
            modify (set_text_drag
                      (Some {| drag_item := item; drag_td := td;
                               drag_dx := ex event - px;
                               drag_dy := ey event - py |}))
        end
    | None =>
        label <- var _font_family ;;
        let tk_family := fst (font_map_get (_font_map self) label default_font) in
        var _font_size ;;;
        var _text_color ;;;
        let entry := length (text_entries self) in
        text_window <- canvas_new (window_item entry) [ex event; ey event] [] ;;
        modify (fun s =>
          set_text_entries
            (text_entries s ++
               [{| entry_x := event_x event; entry_y := event_y event;
                   entry_tk_family := tk_family;
                   entry_text_window := text_window |}]) s)
    end.

(** [save_text], the closure bound to [<Return>] of the entry; [text] is
    what [text_entry.get()] returns. *)
Definition save_text (entry : Entry) (text : str) : M Viewer unit :=
  if truthy (strip text) then
    self <- get ;;
    let page := current_page self in
    when (negb (bool_decide (is_Some (_texts_by_page self !! page))))
      (modify (set_texts_by_page (<[page := []]> (_texts_by_page self)))) ;;;
    size <- var _font_size ;;
    color <- var _text_color ;;
    let text_data :=
      {| td_x := inject_Z (entry_x entry); td_y := inject_Z (entry_y entry);
         td_text := text; td_font := entry_tk_family entry;
         td_size := size; td_color := color; td_id := page |} in
    let td := length (text_heap self) in
    modify (set_text_heap (text_heap self ++ [text_data])) ;;;
    modify (fun s =>
      set_texts_by_page
        (<[page := default [] (_texts_by_page s !! page) ++ [td]]>
           (_texts_by_page s)) s) ;;;
    on_canvas (canvas_delete (entry_text_window entry)) ;;;
    _render_text td ;;;
    ret tt
  else
    on_canvas (canvas_delete (entry_text_window entry)).

(** [text_data in l] and [l.remove(text_data)] on a list of dicts: the same
    object, or an equal one. *)
Definition same_text (heap : list TextData) (a b : nat) : bool :=
  Nat.eqb a b ||
  match heap !! a, heap !! b with
  | Some da, Some db => td_eqb da db
  | _, _ => false
  end.

(** [_delete_text] *)
Definition _delete_text (item : Z) (text_data : nat) : M Viewer unit :=
  on_canvas (canvas_delete item) ;;;
  self <- get ;;
  match _texts_by_page self !! current_page self with
  | Some tds =>
      when (py_in (same_text (text_heap self)) text_data tds)
        (modify (set_texts_by_page
                   (<[current_page self :=
                        py_remove (same_text (text_heap self)) text_data tds]>
                      (_texts_by_page self))))
  | None => ret tt
  end.

(** [_text_right_click] *)
Definition _text_right_click (event : Event) : M Viewer unit :=
  self <- get ;;
  if text_tool_off self then ret tt
  else
    let items := find_overlapping tk (pdf_canvas self)
                   (ex event - 5) (ey event - 5) (ex event + 5) (ey event + 5) in
    match first_tagged (pdf_canvas self) tag_text_overlay items with
    | Some item =>
        match text_of_item self item with
        | Some td => _delete_text item td ;;; _clear_text_selection
        | None => ret tt
        end
    | None => ret tt
    end.

(** [_text_drag_move] *)
Definition _text_drag_move (event : Event) : M Viewer unit :=
  self <- get ;;
  match _text_drag self with
  | None => ret tt
  | Some d =>
      let item := drag_item d in
      let new_x := ex event - drag_dx d in
      let new_y := ey event - drag_dy d in
      on_canvas (canvas_set_coords item [new_x; new_y]) ;;;
      _clear_text_selection ;;;
      frame_selected item
  end.

(** [_text_drag_drop] *)
Definition _text_drag_drop (event : Event) : M Viewer unit :=
  self <- get ;;
  match _text_drag self with
  | None => ret tt
  | Some d =>
      let item := drag_item d in
      let td := drag_td d in
      match canvas_coords (pdf_canvas self) item with
      | c0 :: c1 :: _ => td_update td (td_with_xy c0 c1)
      | _ => ret tt
      end ;;;
      modify (set_text_drag None) ;;;
      _clear_text_selection ;;;
      modify (set_selected_text (Some (item, td))) ;;;
      frame_selected item
  end.

(** [deactivate_current_tool] *)
Definition deactivate_current_tool : M Viewer unit :=
  modify (set_canvas_bindings tool_none) ;;;
  try_except _clear_text_selection (fun _ => ret tt) ;;;
  modify (set_key_bindings keys_unbound) ;;;
  modify (fun s => set_text_overlay ((fun _ => false) <$> _text_overlay s) s) ;;;
  modify (set_text_panel false) ;;;
  modify (set_redact_overlay None).

(** *** Export *)

(** [_hex_to_rgb01] *)
Definition _hex_to_rgb01 (hexstr : str) : result (Q * Q * Q) :=
  let hexstr := lstrip_by (chr_eqb 35) (strip hexstr) in
  let hexstr :=
    if (length hexstr =? 3)%nat then flat_map (fun ch => [ch; ch]) hexstr
    else hexstr in
  r <~ int16 (slice hexstr 0 2) ;;
  g <~ int16 (slice hexstr 2 4) ;;
  b <~ int16 (slice hexstr 4 6) ;;
  Ok (inject_Z r / 255, inject_Z g / 255, inject_Z b / 255).

(** [_fitz_font_from_tk] *)
Definition _fitz_font_from_tk (self : Viewer) (tk_family : str) : str :=
  match List.find (fun '(label, (tkfam, fitzname)) =>
                     contains (lower tk_family) (lower tkfam))
          (_font_map self) with
  | Some (_, (_, fitzname)) => fitzname
  | None =>
      let name := lower tk_family in
      if contains name (lit "time") || contains name (lit "georgia")
         || contains name (lit "serif") then lit "times"
      else if contains name (lit "cour") || contains name (lit "mono")
      then lit "cour"
      else lit "helv"
  end.

(** [page.draw_rect] and [page.insert_text] on page [page_idx] of [out]. *)
Definition add_op (page_idx : Z) (op : DrawOp) (out : list OutPage) : list OutPage :=
  alter (fun p => {| out_page := out_page p; out_ops := out_ops p ++ [op] |})
        (Z.to_nat page_idx) out.

(** The body of the loop over the annotations of a page. *)
Definition export_text (page_idx : Z) (out : list OutPage) (td : nat)
  : M Viewer (list OutPage) :=
  self <- get ;;
  let old_page := current_page self in
  when (negb (page_idx =? current_page self)%Z)
    (modify (set_current_page page_idx) ;;; display_page) ;;;
  d <- deref td ;;
  '(pdf_x, pdf_y) <- call (fun s => _canvas_to_pdf_point s page_idx (td_x d) (td_y d)) ;;
  let font_size := td_size d in
  let pdf_y_baseline := pdf_y + inject_Z font_size * (8 # 10) in
  color <- lift (_hex_to_rgb01 (td_color d)) ;;
  let fontname := _fitz_font_from_tk self (td_font d) in
  let point := (pdf_x, pdf_y_baseline) in
  let out :=
    match insert_text_raises tk (Some fontname) (td_text d) with
    | None =>
        add_op page_idx
          (insert_text point (td_text d) font_size (Some fontname) color) out
    | Some _ =>
        match insert_text_raises tk None (td_text d) with
        | None =>
            add_op page_idx (insert_text point (td_text d) font_size None color) out
        | Some _ => out
        end
    end in
  when (negb (old_page =? page_idx)%Z)
    (modify (set_current_page old_page) ;;; display_page) ;;;
  ret out.

(** The body of the loop over the redaction rectangles of a page. *)
Definition export_redaction (page_idx : Z) (out : list OutPage) (r : Rect)
  : M Viewer (list OutPage) :=
  let '(x0, y0, x1, y1) := r in
  rect <- call (fun s => _canvas_rect_to_pdf_rect s page_idx x0 y0 x1 y1) ;;
  ret (add_op page_idx (draw_rect rect) out).

(** [_export_with_overlays]: returns the document that was saved. *)
Definition _export_with_overlays (target_path : str) : M Viewer (list OutPage) :=
  self <- get ;;
  let src := pdf_document self in
  let out := map (fun p => {| out_page := p; out_ops := [] |}) src in
  out <- for_fold (range 0 (Z.of_nat (length out)))
    (fun out page_idx =>
       self <- get ;;
       out <- match _redactions_by_page self !! page_idx with
              | Some rects => for_fold rects (export_redaction page_idx) out
              | None => ret out
              end ;;
       self <- get ;;
       match _texts_by_page self !! page_idx with
       | Some tds => for_fold tds (export_text page_idx) out
       | None => ret out
       end)
    out ;;
  match save_raises tk target_path out with
  | Some e => raise e
  | None => ret out
  end.

(** [do_save] of [action_share_save]; [path] is what the file dialog
    returned.  The result says which message box is shown. *)
Inductive SaveOutcome := save_cancelled | save_done | save_failed (e : exn).

Definition do_save (path : str) : M Viewer SaveOutcome :=
  if negb (truthy path) then ret save_cancelled
  else
    try_except (_export_with_overlays path ;;; ret save_done)
               (fun e => ret (save_failed e)).

(** *** Thumbnails *)

(** The [OrderedDict] operations used on [thumbnail_cache]. *)
Definition od_get {V} (d : list (Z * V)) (k : Z) : option V :=
  snd <$> List.find (fun p => (fst p =? k)%Z) d.

Definition od_remove {V} (k : Z) (d : list (Z * V)) : list (Z * V) :=
  List.filter (fun p => negb (fst p =? k)%Z) d.

(** [d.move_to_end(k)] *)
Definition move_to_end {V} (k : Z) (d : list (Z * V)) : result (list (Z * V)) :=
  match od_get d k with
  | Some v => Ok (od_remove k d ++ [(k, v)])
  | None => Raise KeyError
  end.

(** [d[k] = v]: a new key goes to the end, an old one keeps its place. *)
Definition od_setitem {V} (k : Z) (v : V) (d : list (Z * V)) : list (Z * V) :=
  match od_get d k with
  | Some _ => map (fun p => if (fst p =? k)%Z then (k, v) else p) d
  | None => d ++ [(k, v)]
  end.

(** [while len(d) > cap: d.popitem(last=False)] *)
Fixpoint evict {V} (cap : Z) (d : list (Z * V)) : result (list (Z * V)) :=
  match d with
  | [] => if (cap <? 0)%Z then Raise KeyError else Ok []
  | _ :: d' => if (cap <? Z.of_nat (length d))%Z then evict cap d' else Ok d
  end.

(** The image a thumbnail button ends up with. *)
Definition thumb_photo (page : Page) (target : Z * Z) : PhotoImage :=
  let '(w, h) := thumbnail tk (get_pixmap_size tk page (1 # 2)) target in
  {| width := w; height := h |}.

(** [_ensure_thumb] *)
Definition _ensure_thumb (page_index : Z) : M Viewer unit :=
  self <- get ;;
  photo <-
    match od_get (thumbnail_cache self) page_index with
    | Some photo =>
        cache <- lift (move_to_end page_index (thumbnail_cache self)) ;;
        modify (set_thumbnail_cache cache) ;;;
        ret photo
    | None =>
        page <- lift (doc_getitem (pdf_document self) page_index) ;;
        let photo := thumb_photo page (_thumb_target_size self) in
        modify (set_thumbnail_cache
                  (od_setitem page_index photo (thumbnail_cache self))) ;;;
        self <- get ;;
        cache <- lift (evict (max_thumb_cache self) (thumbnail_cache self)) ;;
        modify (set_thumbnail_cache cache) ;;;
        ret photo
    end ;;
  self <- get ;;
  lift (getitem (_thumb_buttons self) page_index) ;;;
  let n := Z.of_nat (length (_thumb_buttons self)) in
  let btn := if (page_index <? 0)%Z then (page_index + n)%Z else page_index in
  modify (set_thumb_buttons
            (<[Z.to_nat btn := Some photo]> (_thumb_buttons self))) ;;;
  modify (fun s => set_thumb_photos_by_button
                     (<[btn := photo]> (_thumb_photos_by_button s)) s).

(** [_schedule_thumb_batch] *)
Definition _schedule_thumb_batch : M Viewer unit :=
  self <- get ;;
  if (total_pages self <=? _thumb_batch_idx self)%Z then ret tt
  else
    let end_ := Z.min (_thumb_batch_idx self + _thumb_batch_size self)
                      (total_pages self) in
    for_each (range (_thumb_batch_idx self) end_) _ensure_thumb ;;;
    modify (set_thumb_batch_idx end_) ;;;
    when (end_ <? total_pages self)%Z (after cb_schedule_thumb_batch).

(** *** Navigation and zoom *)

(** [goto_page] (scrolling the thumbnail strip left out) *)
Definition goto_page (page_num : Z) : M Viewer unit :=
  self <- get ;;
  when ((0 <=? page_num) && (page_num <? total_pages self))%Z
    (modify (set_current_page page_num) ;;;
     _ensure_thumb page_num ;;;
     display_page).

(** [next_page] *)
Definition next_page : M Viewer unit :=
  self <- get ;;
  when (current_page self <? total_pages self - 1)%Z
    (goto_page (current_page self + 1)).

(** [prev_page] *)
Definition prev_page : M Viewer unit :=
  self <- get ;;
  when (0 <? current_page self)%Z (goto_page (current_page self - 1)).

(** [toggle_fit] *)
Definition toggle_fit : M Viewer unit :=
  modify (fun s => set_fit_to_window (negb (fit_to_window s)) s) ;;;
  display_page.

(** [zoom_in] *)
Definition zoom_in (step : Q) : M Viewer unit :=
  modify (set_fit_to_window false) ;;;
  modify (fun s => set_zoom (Py.min (max_zoom s) (zoom s + step)) s) ;;;
  display_page.

(** [zoom_out] *)
Definition zoom_out (step : Q) : M Viewer unit :=
  modify (set_fit_to_window false) ;;;
  modify (fun s => set_zoom (Py.max (min_zoom s) (zoom s - step)) s) ;;;
  display_page.

(** [zoom_reset] *)
Definition zoom_reset : M Viewer unit :=
  modify (set_fit_to_window false) ;;;
  modify (set_zoom 1) ;;;
  display_page.

(** [_wheel_to_pages] *)
Definition _wheel_to_pages (direction : Z) : M Viewer unit :=
  if (0 <? direction)%Z then prev_page else next_page.

(** *** The action rows *)

(** [on_stamp], [on_write], [on_esign], [on_redact] of
    [create_seamless_layout]; [action_stamp] and [action_esignature] only
    show a message box. *)
Definition tool_eqb (a b : Tool) : bool :=
  match a, b with
  | tool_none, tool_none | tool_stamp, tool_stamp | tool_write, tool_write
  | tool_esign, tool_esign | tool_redact, tool_redact => true
  | _, _ => false
  end.

Definition on_tool (t : Tool) : M Viewer unit :=
  self <- get ;;
  if tool_eqb (_active_tool self) t then
    modify (set_active_tool tool_none) ;;;
    deactivate_current_tool
  else
    deactivate_current_tool ;;;
    modify (set_active_tool t) ;;;
    match t with
    | tool_write => action_write
    | tool_redact => action_redact
    | _ => ret tt
    end.

(** *** Construction and the event loop *)

(** The attributes as [__init__] assigns them, with the document that
    [load_pdf] opened and one thumbnail button per page
    ([_build_thumbnail_placeholders]).  The canvas is not on screen yet: Tk
    reports a size of one pixel. *)
Definition new_viewer (doc : list Page) : Viewer :=
  {| pdf_document := doc;
     current_page := 0;
     total_pages := Z.of_nat (length doc);
     _page_photo := PyNone;
     thumbnail_cache := [];
     max_thumb_cache := 200;
     _thumb_photos_by_button := ∅;
     base_zoom := 15 # 10;
     zoom := 15 # 10;
     min_zoom := 4 # 10;
     max_zoom := 6;
     fit_to_window := true;
     _thumb_batch_idx := 0;
     _thumb_buttons := map (fun _ => None) doc;
     _thumb_batch_size := 8;
     _thumb_target_size := (140, 180)%Z;
     _redactions_by_page := ∅;
     _texts_by_page := ∅;
     text_heap := [];
     _selected_text := None;
     _font_map :=
       [(lit "Sans (Helvetica)", (lit "Helvetica", lit "helv"));
        (lit "Serif (Times)", (lit "Times New Roman", lit "times"));
        (lit "Mono (Courier)", (lit "Courier New", lit "cour"))];
     _active_tool := tool_none;
     _text_overlay := None;
     _text_drag := None;
     _text_panel := false;
     _font_family := None;
     _font_size := None;
     _text_color := None;
     _redact_overlay := None;
     pdf_canvas := {| winfo_width := 1; winfo_height := 1;
                      last_item := 0; canvas_items := [] |};
     text_entries := [];
     after_queue := [];
     canvas_bindings := tool_none;
     key_bindings := keys_unbound |}.

(** [__init__]: [create_seamless_layout] starts the thumbnail batches, then
    the first page is displayed and [bind_events] binds the arrow keys. *)
Definition __init__ : M Viewer unit :=
  _schedule_thumb_batch ;;;
  display_page ;;;
  modify (set_key_bindings keys_navigate).

(** What the window system and the user deliver to the viewer. *)
Inductive Input :=
| Configure (w h : Z)
| Timer
| Row (t : Tool)
| Share (path : str)
| Button1 (e : Event)
| Motion (e : Event)
| Release (e : Event)
| Button3 (e : Event)
| KeyUp | KeyDown | KeyLeft | KeyRight | KeyDelete
| EntryReturn (entry : nat) (text : str)
| EntryEscape (entry : nat)
| PanelFont (label : str)
| PanelSize (size : Z)
| PanelColor (color : str)
| Thumb (page : Z)
| Wheel (direction : Z)
| CtrlWheel (up : bool) (step : Q).

(** The handler an input is dispatched to, by the bindings in force. *)
Definition handle (i : Input) : M Viewer unit :=
  self <- get ;;
  match i with
  | Configure w h =>
      on_canvas (canvas_resize w h) ;;;
      when (fit_to_window self) display_page
  | Timer =>
      match after_queue self with
      | [] => ret tt
      | cb :: q =>
          modify (set_after_queue q) ;;;
          match cb with
          | cb_display_page => display_page
          | cb_schedule_thumb_batch => _schedule_thumb_batch
          end
      end
  | Row t =>
      match t with
      | tool_none => ret tt
      | _ => on_tool t
      end
  | Share path =>
      modify (set_active_tool tool_none) ;;;
      do_save path ;;; ret tt
  | Button1 e =>
      match canvas_bindings self with
      | tool_write => _text_click e
      | tool_redact => _redact_start e
      | _ => ret tt
      end
  | Motion e =>
      match canvas_bindings self with
      | tool_write => _text_drag_move e
      | tool_redact => _redact_drag e
      | _ => ret tt
      end
  | Release e =>
      match canvas_bindings self with
      | tool_write => _text_drag_drop e
      | tool_redact => _redact_finish e
      | _ => ret tt
      end
  | Button3 e =>
      match canvas_bindings self with
      | tool_write => _text_right_click e
      | tool_redact => _redact_right_click e
      | _ => ret tt
      end
  | KeyUp =>
      match key_bindings self with
      | keys_redact => _adjust_redact true 5
      | _ => ret tt
      end
  | KeyDown =>
      match key_bindings self with
      | keys_redact => _adjust_redact true (-5)
      | _ => ret tt
      end
  | KeyRight =>
      match key_bindings self with
      | keys_redact => _adjust_redact false 5
      | keys_navigate => next_page
      | keys_unbound => ret tt
      end
  | KeyLeft =>
      match key_bindings self with
      | keys_redact => _adjust_redact false (-5)
      | keys_navigate => prev_page
      | keys_unbound => ret tt
      end
  | KeyDelete =>
      match key_bindings self with
      | keys_redact => _delete_redact
      | _ => ret tt
      end
  | EntryReturn entry text =>
      match text_entries self !! entry with
      | Some en => save_text en text
      | None => ret tt
      end
  | EntryEscape entry =>
      match text_entries self !! entry with
      | Some en => on_canvas (canvas_delete (entry_text_window en))
      | None => ret tt
      end
  | PanelFont label =>
      when (_text_panel self) (traced (set_font_family (Some label)))
  | PanelSize size =>
      when (_text_panel self) (traced (set_font_size (Some size)))
  | PanelColor color =>
      when (_text_panel self) (traced (set_text_color (Some color)))
  | Thumb page => goto_page page
  | Wheel direction => _wheel_to_pages direction
  | CtrlWheel up step => if up then zoom_in step else zoom_out step
  end.

(** Tk reports an exception raised by a handler and goes on with the state
    the handler left. *)
Definition step (s : Viewer) (i : Input) : Viewer := fst (handle i s).

Definition run (s : Viewer) (inputs : list Input) : Viewer :=
  fold_left step inputs s.

(** The states a session on document [doc] goes through. *)
Inductive reachable (doc : list Page) : Viewer -> Prop :=
| reachable_init : reachable doc (fst (__init__ (new_viewer doc)))
| reachable_step s i : reachable doc s -> reachable doc (step s i).

End Methods.

(** ** A concrete toolkit

    Used to run the viewer on concrete sessions: PyMuPDF rasters rounded up
    to whole pixels, PIL's aspect-preserving [thumbnail], hit testing by
    bounding boxes (a text item gets a nominal box), and libraries that do
    not raise. *)

Module Demo.

Definition pixmap_size (page : Page) (z : Q) : Z * Z :=
  (Qceiling (rect_width page * z), Qceiling (rect_height page * z)).

(** PIL: [max(min(floor(number), ceil(number), key=key), 1)] *)
Definition round_aspect (number : Q) (key : Z -> Q) : Z :=
  let lo := Qfloor number in
  let hi := Qceiling number in
  Z.max (if ltb (key hi) (key lo) then hi else lo) 1.

(** PIL: the size [Image.thumbnail] gives an image of size [size]. *)
Definition pil_thumbnail (size target : Z * Z) : Z * Z :=
  let '(w, h) := size in
  let '(tx, ty) := target in
  if ((w <=? tx) && (h <=? ty))%Z then size
  else
    let aspect := inject_Z w / inject_Z h in
    if Qle_bool aspect (inject_Z tx / inject_Z ty) then
      (round_aspect (inject_Z ty * aspect)
         (fun n => Qabs (aspect - inject_Z n / inject_Z ty)), ty)
    else
      (tx, round_aspect (inject_Z tx / aspect)
             (fun n => if (n =? 0)%Z then 0
                       else Qabs (aspect - inject_Z tx / inject_Z n))).

Definition item_box (it : Item) : option (Q * Q * Q * Q) :=
  match item_kind it, item_coords it with
  | rectangle_item, [x0; y0; x1; y1] => Some (x0, y0, x1, y1)
  | image_item photo CENTER, [cx; cy] =>
      let w := inject_Z (width photo) in
      let h := inject_Z (height photo) in
      Some (cx - w / 2, cy - h / 2, cx + w / 2, cy + h / 2)
  | image_item photo NW, [x0; y0] =>
      Some (x0, y0, x0 + inject_Z (width photo), y0 + inject_Z (height photo))
  | text_item text _ size _, [x0; y0] =>
      Some (x0, y0, x0 + inject_Z (size * Z.of_nat (length text)),
            y0 + inject_Z (2 * size))
  | window_item _, [x0; y0] => Some (x0, y0, x0, y0)
  | _, _ => None
  end.

Definition overlaps (a b : Q * Q * Q * Q) : bool :=
  let '(a0, a1, a2, a3) := a in
  let '(b0, b1, b2, b3) := b in
  Qle_bool a0 b2 && Qle_bool b0 a2 && Qle_bool a1 b3 && Qle_bool b1 a3.

Definition hits (c : Canvas) (x0 y0 x1 y1 : Q) : list Z :=
  map fst
    (List.filter
       (fun p => match item_box (snd p) with
                 | Some b => overlaps b (x0, y0, x1, y1)
                 | None => false
                 end)
       (canvas_items c)).

Definition item_bbox (c : Canvas) (id : Z) : option (Q * Q * Q * Q) :=
  it ← canvas_lookup c id; item_box it.

Definition tk : Toolkit :=
  {| get_pixmap_size := pixmap_size;
     thumbnail := pil_thumbnail;
     find_overlapping := hits;
     bbox := item_bbox;
     insert_text_raises := fun _ _ => None;
     save_raises := fun _ _ => None |}.

(** The same libraries on a disk that is full: saving raises. *)
Definition tk_disk_full : Toolkit :=
  {| get_pixmap_size := pixmap_size;
     thumbnail := pil_thumbnail;
     find_overlapping := hits;
     bbox := item_bbox;
     insert_text_raises := fun _ _ => None;
     save_raises := fun _ _ => Some (OSError 28) |}.

(** A portrait and a landscape US-Letter page. *)
Definition portrait : Page := {| rect_width := 612; rect_height := 792 |}.
Definition landscape : Page := {| rect_width := 792; rect_height := 612 |}.

Definition at_ (px py : Z) : Event := {| event_x := px; event_y := py |}.

End Demo.

(** ** Concrete sessions *)

Module Session.

Import Demo.

(** A document with a portrait and a landscape page, just opened: the
    window is not on screen yet. *)
Definition doc : list Page := [portrait; landscape].
Definition opened : Viewer := fst (__init__ tk (new_viewer doc)).

(** The canvas gets 540 x 700 pixels and the pending [display_page] runs:
    page 0 is shown, fitted to the window. *)
Definition shown : Viewer := run tk opened [Configure 540 700; Timer].


(** A redaction is drawn on page 0 from (100, 100) to (200, 150). *)
Definition drawn : Viewer :=
  run tk shown [Row tool_redact; Button1 (at_ 100 100);
                Motion (at_ 200 150); Release (at_ 200 150)].

(** The rectangle is then made five pixels higher with the Up key, or
    dragged by ten pixels. *)
Definition nudged : Viewer := run tk drawn [KeyUp].
Definition moved : Viewer :=
  run tk drawn [Button1 (at_ 150 120); Motion (at_ 160 130);
                Release (at_ 160 130)].

(** A redaction is drawn on page 1 while page 1 is shown; then the user
    goes back to page 0. *)
Definition redacted_page1 : Viewer :=
  run tk shown [Thumb 1; Row tool_redact; Button1 (at_ 100 200);
                Motion (at_ 200 250); Release (at_ 200 250)].
Definition back_on_page0 : Viewer := run tk redacted_page1 [Thumb 0].

(** The same with a text annotation placed on page 1 at (100, 200). *)
Definition annotated_page1 : Viewer :=
  run tk shown [Thumb 1; Row tool_write; Button1 (at_ 100 200);
                EntryReturn 0 (lit "Hello")].
Definition annotated_back_on_page0 : Viewer := run tk annotated_page1 [Thumb 0].

(** A window whose canvas is only 40 pixels high: [display_page] keeps
    waiting for a larger canvas, and the user draws a redaction. *)
Definition cramped : Viewer :=
  run tk opened [Configure 540 40; Timer; Row tool_redact;
                 Button1 (at_ 10 10); Motion (at_ 30 30); Release (at_ 30 30)].

(** A stroke only three pixels wide; a text of three spaces; a text. *)
Definition thin_stroke : Viewer :=
  run tk shown [Row tool_redact; Button1 (at_ 100 100);
                Motion (at_ 103 150); Release (at_ 103 150)].
Definition blank_text : Viewer :=
  run tk shown [Row tool_write; Button1 (at_ 50 50); EntryReturn 0 (lit "   ")].
Definition hello_text : Viewer :=
  run tk shown [Row tool_write; Button1 (at_ 50 50); EntryReturn 0 (lit "Hello")].

(** The redaction tool picked on page 0, before anything is drawn. *)
Definition redacting : Viewer := run tk shown [Row tool_redact].

(** The annotation that [hello_text] stores. *)
Definition hello : TextData :=
  {| td_x := 50; td_y := 50; td_text := lit "Hello"; td_font := lit "Helvetica";
     td_size := 12; td_color := lit "#000000"; td_id := 0 |}.

(** The text "Hello" grabbed with the text tool, and let go again: it stays
    selected. *)
Definition held_text : Viewer := run tk hello_text [Button1 (at_ 50 50)].
Definition picked_text : Viewer := run tk held_text [Release (at_ 50 50)].

(** A document of 201 pages, before any thumbnail is made. *)
Definition long_doc : Viewer := new_viewer (repeat portrait 201).


End Session.

(** ** Vocabulary of the properties *)

(** The clamp of image-local coordinates: [v] brought into [[0, hi]]. *)
Definition clamp (hi v : Q) : Q :=
  if Qlt_le_dec v 0 then 0 else if Qlt_le_dec hi v then hi else v.

(** The image-local coordinate that gets scaled: in fit mode the centring
    offset is subtracted and the result clamped, in zoom mode the canvas
    coordinate is taken as it is. *)
Definition local (fit : bool) (canvas display v : Q) : Q :=
  if fit then clamp display (v - (canvas - display) / 2) else v.

(** The inverse of the fit-mode mapping, from page space back to canvas
    pixels: undo the flip, undo the scaling, add the centring offset.  The
    program has no such function; it is the "and back" of the round trip. *)
Definition pdf_point_to_canvas (cw ch dw dh pw ph : Q) (p : Q * Q) : Q * Q :=
  (fst p * dw / pw + (cw - dw) / 2, (ph - snd p) * dh / ph + (ch - dh) / 2).

(** Results equal as Python compares them: the same exception, or tuples of
    equal numbers. *)
Definition point_eq (p q : Q * Q) : Prop := fst p == fst q /\ snd p == snd q.

Definition rect_eq (a b : Rect) : Prop :=
  let '(a0, a1, a2, a3) := a in
  let '(b0, b1, b2, b3) := b in
  a0 == b0 /\ a1 == b1 /\ a2 == b2 /\ a3 == b3.

Definition result_eq {A} (eq : A -> A -> Prop) (r r' : result A) : Prop :=
  match r, r' with
  | Ok a, Ok a' => eq a a'
  | Raise e, Raise e' => e = e'
  | _, _ => False
  end.


(** The parts of the viewer the properties talk about. *)
Definition thumb_state (s : Viewer) := (thumbnail_cache s, max_thumb_cache s).
Definition text_state (s : Viewer) := (_texts_by_page s, text_heap s).
Definition overlay_state (s : Viewer) := (_redactions_by_page s, text_state s).
Definition core (s : Viewer) := (overlay_state s, thumb_state s).
Definition beside_redactions (s : Viewer) := (text_state s, thumb_state s).
Definition beside_texts (s : Viewer) := (_redactions_by_page s, thumb_state s).
Definition beside_thumbs (s : Viewer) := (overlay_state s, max_thumb_cache s).

(** A method keeps an invariant, whether it returns or raises; it preserves
    a part of the viewer when that part is the same afterwards. *)
Definition keeps {A} (I : Viewer -> Prop) (m : M Viewer A) : Prop :=
  forall s, I s -> I (fst (m s)).
Definition preserves {A T} (f : Viewer -> T) (m : M Viewer A) : Prop :=
  forall s, f (fst (m s)) = f s.

(** A redaction rectangle that is at least five pixels wide and high. *)
Definition nondegenerate (r : Rect) : Prop :=
  let '(x0, y0, x1, y1) := r in 5 <= Qabs (x1 - x0) /\ 5 <= Qabs (y1 - y0).

Definition redactions_ok (store : gmap Z (list Rect)) : Prop :=
  forall page rects r,
    store !! page = Some rects -> In r rects -> nondegenerate r.

(** A text with a character that is not whitespace. *)
Definition nonblank (text : str) : Prop :=
  exists c, In c text /\ isspace c = false.

(** Every annotation dict holds a non-blank text, and the references kept
    in the store point to dicts. *)
Definition texts_ok (st : gmap Z (list nat) * list TextData) : Prop :=
  (forall td d, st.2 !! td = Some d -> nonblank (td_text d)) /\
  (forall page tds td,
      st.1 !! page = Some tds -> In td tds -> (td < length st.2)%nat).

(** The keys of the thumbnail cache, oldest first, and the last [n]
    elements of a list. *)
Definition keys {V} (d : list (Z * V)) : list Z := map fst d.
Definition lastn {A} (n : nat) (l : list A) : list A := skipn (length l - n) l.

(** The pages that were accessed, each once, in the order of their last
    access: least recently accessed first. *)
Definition touch (r : list Z) (p : Z) : list Z :=
  List.filter (fun q => negb (q =? p)%Z) r ++ [p].
Definition recency (accesses : list Z) : list Z := fold_left touch accesses [].

(** The cached keys [ks] are the tail of the recency order [r]: all of it,
    or its last [cap] pages. *)
Definition lru_tail (cap : nat) (r ks : list Z) : Prop :=
  exists r1, r = r1 ++ ks /\ (r1 = [] \/ length ks = cap) /\ (length ks <= cap)%nat.

(** The thumbnail cache within its capacity of 200 entries. *)
Definition cache_ok (st : list (Z * PhotoImage) * Z) : Prop :=
  st.2 = 200%Z /\ (length st.1 <= 200)%nat.

(** One [_ensure_thumb] after the other. *)
Definition ensure_thumbs (tk : Toolkit) (pages : list Z) (s : Viewer) : Viewer :=
  fold_left (fun s p => fst (_ensure_thumb tk p s)) pages s.

(** ** Further vocabulary *)

(** The colour a pair of hexadecimal digits stands for, in [[0, 1]]. *)
Definition channel (v w : Z) : Q := inject_Z (16 * v + w) / 255.

(** The font map [__init__] builds. *)
Definition the_font_map : list (str * (str * str)) := _font_map (new_viewer []).

(** The document is the one that was opened, [total_pages] is its length
    and [current_page] is one of its pages. *)
Definition view_ok (doc : list Page) (s : Viewer) : Prop :=
  pdf_document s = doc /\ total_pages s = Z.of_nat (length doc) /\
  (0 <= current_page s < Z.of_nat (length doc))%Z.

(** There is one thumbnail button per page. *)
Definition buttons_ok (doc : list Page) (s : Viewer) : Prop :=
  length (_thumb_buttons s) = length doc.




(** Tk hands out item ids in increasing order: no item of the display list
    has an id above [last_item]. *)
Definition canvas_fresh (c : Canvas) : Prop :=
  Forall (fun p => (fst p <= last_item c)%Z) (canvas_items c).

(** While the canvas is bound to the redaction tool, the dict
    [_redact_overlay] is there and the arrow keys and [<Delete>] work on the
    redaction. *)
Definition redact_tool_ok (s : Viewer) : Prop :=
  canvas_bindings s = tool_redact ->
  _redact_overlay s <> None /\ key_bindings s = keys_redact.

(** The rectangle [item] is held in state [s] by the dict [o] of the
    gesture, and is [w] wide and [h] high. *)
Definition held (item : Z) (tags : list Tag) (o : RedactOverlay) (w h : Q)
    (s : Viewer) : Prop :=
  _redact_overlay s = Some o /\ canvas_bindings s = tool_redact /\
  exists a b c d,
    canvas_lookup (pdf_canvas s) item =
      Some {| item_kind := rectangle_item; item_coords := [a; b; c; d];
              item_tags := tags |} /\
    c - a == w /\ d - b == h.

(** What the redaction handlers leave alone beside the canvas, the dict of
    the gesture and the store. *)
Definition beside_gesture (s : Viewer) := (current_page s, canvas_bindings s).

(** The annotation [d] with the values of the text panel: the font family
    of the panel's label, its size and its colour. *)
Definition restyled (font_map : list (str * (str * str))) (label : str)
    (size : Z) (color : str) (d : TextData) : TextData :=
  td_with_color color
    (td_with_size size
       (td_with_font (fst (font_map_get font_map label default_font)) d)).

(** What the text panel and a drag hold, and where the annotations are. *)
Definition panel_state (s : Viewer) :=
  (_text_drag s, _font_family s, _font_size s, _text_color s, _font_map s,
   _texts_by_page s, current_page s).



(** The items of the canvas in stacking order, without their ids, and those
    that carry a tag. *)
Definition shapes (c : Canvas) : list Item := map snd (canvas_items c).
Definition shown_with (t : Tag) (c : Canvas) : list Item :=
  List.filter (has_tag t) (shapes c).

(** The canvas items that stand for a stored redaction and for a stored
    annotation. *)
Definition rect_shape (r : Rect) : Item :=
  let '(x0, y0, x1, y1) := r in
  {| item_kind := rectangle_item; item_coords := tk_order [x0; y0; x1; y1];
     item_tags := [tag_redact_overlay] |}.
Definition text_shape (heap : list TextData) (td : nat) : option Item :=
  (fun d => {| item_kind := text_item (td_text d) (td_font d) (td_size d)
                              (td_color d);
               item_coords := [td_x d; td_y d];
               item_tags := [tag_text_overlay; tag_text_id td] |})
    <$> heap !! td.

(** What [display_page] leaves alone beside the canvas and the page image. *)
Definition view_frame (s : Viewer) :=
  (_redactions_by_page s, _texts_by_page s, text_heap s, current_page s).

(** The drawing operations on page [i] of an exported document. *)
Definition ops_of (out : list OutPage) (i : nat) : list DrawOp :=
  match out !! i with
  | Some p => out_ops p
  | None => []
  end.

Definition is_draw_rect (op : DrawOp) : bool :=
  match op with draw_rect _ => true | _ => false end.

(** [out'] is [out] with the operations [extra] added to page [k]. *)
Definition grown (k : nat) (extra : list DrawOp) (out out' : list OutPage) : Prop :=
  length out' = length out /\
  ops_of out' k = ops_of out k ++ extra /\
  forall j, j <> k -> ops_of out' j = ops_of out j.

(** The body of the loop of [_export_with_overlays] over the pages. *)
Definition export_page (tk : Toolkit) (out : list OutPage) (page_idx : Z)
  : M Viewer (list OutPage) :=
  self <- get ;;
  out <- match _redactions_by_page self !! page_idx with
         | Some rects => for_fold rects (export_redaction page_idx) out
         | None => ret out
         end ;;
  self <- get ;;
  match _texts_by_page self !! page_idx with
  | Some tds => for_fold tds (export_text tk page_idx) out
  | None => ret out
  end.

(** The operations an export adds to page [k]: one rectangle for each
    redaction of the page, then at most one text for each annotation. *)
Definition page_ops (s : Viewer) (k : nat) (ops : list DrawOp) : Prop :=
  exists rs ts,
    ops = map draw_rect rs ++ ts /\
    length rs = length (default [] (_redactions_by_page s !! Z.of_nat k)) /\
    (length ts <= length (default [] (_texts_by_page s !! Z.of_nat k)))%nat /\
    Forall (fun op => is_draw_rect op = false) ts.

(** * Properties *)

(** ** Comparisons, [min] and [max] *)

Lemma ltb_true a b : ltb a b = true <-> a < b.
Proof.
  unfold ltb. rewrite negb_true_iff.
  split; intros H.
  - apply Qnot_le_lt. intros Hle. apply Qle_bool_iff in Hle. congruence.
  - destruct (Qle_bool b a) eqn:E; [|reflexivity].
    apply Qle_bool_iff in E. lra.
Qed.

Lemma ltb_false a b : ltb a b = false <-> b <= a.
Proof.
  unfold ltb. rewrite negb_false_iff. apply Qle_bool_iff.
Qed.

Ltac cmp :=
  unfold Py.min, Py.max, gtb in *;
  repeat match goal with
    | |- context [ltb ?a ?b] =>
        let E := fresh "E" in
        destruct (ltb a b) eqn:E;
        [apply ltb_true in E | apply ltb_false in E]
    | H : context [ltb ?a ?b] |- _ =>
        let E := fresh "E" in
        destruct (ltb a b) eqn:E;
        [apply ltb_true in E | apply ltb_false in E]
    end.

Lemma min_le_l a b : Py.min a b <= a.
Proof. cmp; lra. Qed.
Lemma min_le_r a b : Py.min a b <= b.
Proof. cmp; lra. Qed.
Lemma max_ge_l a b : a <= Py.max a b.
Proof. cmp; lra. Qed.
Lemma max_ge_r a b : b <= Py.max a b.
Proof. cmp; lra. Qed.
Lemma min_comm a b : Py.min a b == Py.min b a.
Proof. cmp; lra. Qed.
Lemma max_comm a b : Py.max a b == Py.max b a.
Proof. cmp; lra. Qed.
Lemma min_compat a a' b b' : a == a' -> b == b' -> Py.min a b == Py.min a' b'.
Proof. intros. cmp; lra. Qed.
Lemma max_compat a a' b b' : a == a' -> b == b' -> Py.max a b == Py.max a' b'.
Proof. intros. cmp; lra. Qed.

Lemma max_min_clamp hi v : 0 <= hi -> Py.max 0 (Py.min hi v) == clamp hi v.
Proof. intros. unfold clamp. repeat destruct Qlt_le_dec; cmp; lra. Qed.

Lemma clamp_id hi v : 0 <= v <= hi -> clamp hi v == v.
Proof. intros. unfold clamp. repeat destruct Qlt_le_dec; lra. Qed.


Section Mapper.

Variables (self : Viewer) (page_idx : Z) (page : Page) (photo : PhotoImage).
Hypothesis Hpage : doc_getitem (pdf_document self) page_idx = Ok page.
Hypothesis Hphoto : _page_photo self = Obj photo.
Hypothesis Hw : (0 < width photo)%Z.
Hypothesis Hh : (0 < height photo)%Z.

Let pw := rect_width page.
Let ph := rect_height page.
Let dw := inject_Z (width photo).
Let dh := inject_Z (height photo).
Let cw := inject_Z (winfo_width (pdf_canvas self)).
Let ch := inject_Z (winfo_height (pdf_canvas self)).

Lemma dw_pos : 0 < dw.
Proof. unfold dw. change 0 with (inject_Z 0). rewrite <- Zlt_Qlt. exact Hw. Qed.
Lemma dh_pos : 0 < dh.
Proof. unfold dh. change 0 with (inject_Z 0). rewrite <- Zlt_Qlt. exact Hh. Qed.

Lemma canvas_to_pdf_point_scaled x y :
  exists px py,
    _canvas_to_pdf_point self page_idx x y = Ok (px, py) /\
    px == local (fit_to_window self) cw dw x * (pw / dw) /\
    py == ph - local (fit_to_window self) ch dh y * (ph / dh).
Proof.
  pose proof dw_pos as Hdw. pose proof dh_pos as Hdh.
  unfold _canvas_to_pdf_point. rewrite Hpage, Hphoto. cbn [rbind hasattr negb].
  fold pw ph dw dh cw ch.
  assert (Ew : Qeq_bool dw 0 = false).
  { destruct (Qeq_bool dw 0) eqn:E; [|reflexivity].
    apply Qeq_bool_iff in E. lra. }
  assert (Eh : Qeq_bool dh 0 = false).
  { destruct (Qeq_bool dh 0) eqn:E; [|reflexivity].
    apply Qeq_bool_iff in E. lra. }
  unfold local.
  destruct (fit_to_window self).
  - match goal with |- context [if ?c then (_, _) else _] => destruct c eqn:Ec end;
      rewrite Ew, Eh; eexists _, _; (split; [reflexivity|]).
    + rewrite !max_min_clamp by lra. split; reflexivity.
    + apply orb_false_iff in Ec as [Ec E4]. apply orb_false_iff in Ec as [Ec E3].
      apply orb_false_iff in Ec as [E1 E2].
      unfold gtb in *. apply ltb_false in E1, E2, E3, E4.
      rewrite !clamp_id by lra. split; reflexivity.
  - rewrite Ew, Eh. eexists _, _. split; [reflexivity|]. split; reflexivity.
Qed.



Lemma scaled_eq a b s p : a == b -> p - a * s == p - b * s.
Proof. intros ->. reflexivity. Qed.



(** C4: in fit-to-window mode, for a pointer within the displayed image,
    the mapping subtracts the centring offset, scales each axis and flips
    Y; mapping the result back gives the pointer again, and two pointers
    within the image with equal results are equal. *)
Theorem fit_mode_formula_and_round_trip x y :
  fit_to_window self = true ->
  0 < pw -> 0 < ph ->
  0 <= x - (cw - dw) / 2 <= dw ->
  0 <= y - (ch - dh) / 2 <= dh ->
  exists px py,
    _canvas_to_pdf_point self page_idx x y = Ok (px, py) /\
    px == (x - (cw - dw) / 2) * pw / dw /\
    py == ph - (y - (ch - dh) / 2) * ph / dh /\
    point_eq (pdf_point_to_canvas cw ch dw dh pw ph (px, py)) (x, y) /\
    (forall x' y' px' py',
        0 <= x' - (cw - dw) / 2 <= dw ->
        0 <= y' - (ch - dh) / 2 <= dh ->
        _canvas_to_pdf_point self page_idx x' y' = Ok (px', py') ->
        point_eq (px', py') (px, py) -> point_eq (x', y') (x, y)).
Proof.
  intros Hfit Hpw Hph Hx Hy.
  pose proof dw_pos as Hdw. pose proof dh_pos as Hdh.
  assert (formula : forall u v qx qy,
             0 <= u - (cw - dw) / 2 <= dw -> 0 <= v - (ch - dh) / 2 <= dh ->
             _canvas_to_pdf_point self page_idx u v = Ok (qx, qy) ->
             qx == (u - (cw - dw) / 2) * pw / dw /\
             qy == ph - (v - (ch - dh) / 2) * ph / dh).
  { intros u v qx qy Hu Hv E.
    destruct (canvas_to_pdf_point_scaled u v) as (qx' & qy' & E' & Ex & Ey).
    rewrite E in E'. injection E' as <- <-.
    rewrite Hfit in Ex, Ey. unfold local in Ex, Ey.
    rewrite clamp_id in Ex, Ey by assumption.
    rewrite Ex, Ey. split; field; lra. }
  destruct (canvas_to_pdf_point_scaled x y) as (px & py & E & _).
  destruct (formula x y px py Hx Hy E) as [Ex Ey].
  exists px, py. split; [exact E|]. split; [exact Ex|]. split; [exact Ey|].
  split.
  - unfold point_eq, pdf_point_to_canvas; cbn [fst snd].
    rewrite Ex, Ey. split; field; lra.
  - intros x' y' px' py' Hx' Hy' E' [Hpx Hpy]. cbn [fst snd] in Hpx, Hpy.
    destruct (formula x' y' px' py' Hx' Hy' E') as [Ex' Ey'].
    rewrite Ex, Ex' in Hpx. rewrite Ey, Ey' in Hpy.
    assert (Hsx : (x' - (cw - dw) / 2) * (pw / dw) == (x - (cw - dw) / 2) * (pw / dw)).
    { revert Hpx. unfold Qdiv. rewrite <- !Qmult_assoc. exact (fun H => H). }
    assert (Hsy : (y' - (ch - dh) / 2) * (ph / dh) == (y - (ch - dh) / 2) * (ph / dh)).
    { assert (H := Hpy). unfold Qdiv in H |- *. rewrite <- !Qmult_assoc in H. lra. }
    assert (Hrx : ~ pw / dw == 0).
    { intros H. assert (pw == pw / dw * dw) by (field; lra). rewrite H in H0. lra. }
    assert (Hry : ~ ph / dh == 0).
    { intros H. assert (ph == ph / dh * dh) by (field; lra). rewrite H in H0. lra. }
    apply Qmult_inj_r in Hsx; [|exact Hrx].
    apply Qmult_inj_r in Hsy; [|exact Hry].
    split; cbn [fst snd]; lra.
Qed.

End Mapper.

(** Without a page photo the mapping raises: [None] has no [width]. *)
Lemma canvas_to_pdf_point_no_photo self page_idx page x y :
  doc_getitem (pdf_document self) page_idx = Ok page ->
  _page_photo self = PyNone ->
  _canvas_to_pdf_point self page_idx x y = Raise AttributeError.
Proof.
  intros Hpage Hphoto. unfold _canvas_to_pdf_point.
  rewrite Hpage, Hphoto. reflexivity.
Qed.

(** Whatever the view, the mapping of a point works axis by axis, or raises
    an exception that the point does not choose. *)
Lemma canvas_to_pdf_point_per_axis self page_idx :
  (exists e, forall x y, _canvas_to_pdf_point self page_idx x y = Raise e) \/
  (exists fx fy, forall x y, exists px py,
      _canvas_to_pdf_point self page_idx x y = Ok (px, py) /\
      px == fx x /\ py == fy y).
Proof.
  destruct (doc_getitem (pdf_document self) page_idx) as [page|e] eqn:Hpage.
  2: { left. exists e. intros. unfold _canvas_to_pdf_point. rewrite Hpage. reflexivity. }
  destruct (_page_photo self) as [| |photo] eqn:Hphoto.
  - right. exists (fun x => x), (fun y => rect_height page - y). intros x y.
    unfold _canvas_to_pdf_point. rewrite Hpage, Hphoto. cbn.
    eexists _, _. split; [reflexivity|]. split; reflexivity.
  - left. exists AttributeError. intros. unfold _canvas_to_pdf_point.
    rewrite Hpage, Hphoto. reflexivity.
  - destruct (Qeq_bool (inject_Z (width photo)) 0) eqn:Ew.
    { left. exists ZeroDivisionError. intros. unfold _canvas_to_pdf_point.
      rewrite Hpage, Hphoto. cbn [rbind hasattr negb].
      repeat match goal with |- context [if ?c then _ else _] => destruct c end;
        reflexivity || discriminate. }
    destruct (Qeq_bool (inject_Z (height photo)) 0) eqn:Eh.
    { left. exists ZeroDivisionError. intros. unfold _canvas_to_pdf_point.
      rewrite Hpage, Hphoto. cbn [rbind hasattr negb].
      repeat match goal with |- context [if ?c then _ else _] => destruct c end;
        reflexivity || discriminate. }
    right.
    assert (Hw : ~ inject_Z (width photo) == 0).
    { intros H. apply Qeq_bool_iff in H. congruence. }
    assert (Hh : ~ inject_Z (height photo) == 0).
    { intros H. apply Qeq_bool_iff in H. congruence. }
    set (dw := inject_Z (width photo)) in *.
    set (dh := inject_Z (height photo)) in *.
    set (cw := inject_Z (winfo_width (pdf_canvas self))).
    set (ch := inject_Z (winfo_height (pdf_canvas self))).
    pose (axis := fun (fit : bool) (c d v : Q) =>
            if fit then
              let rel := v - (c - d) / 2 in
              if ltb rel 0 || gtb rel d then Py.max 0 (Py.min d rel) else rel
            else v).
    exists (fun x => axis (fit_to_window self) cw dw x * (rect_width page / dw)),
           (fun y => rect_height page
                     - axis (fit_to_window self) ch dh y * (rect_height page / dh)).
    intros x y. unfold _canvas_to_pdf_point.
    rewrite Hpage, Hphoto. cbn [rbind hasattr negb].
    fold dw dh cw ch. unfold axis.
    destruct (fit_to_window self).
    + destruct (ltb (x - (cw - dw) / 2) 0 || gtb (x - (cw - dw) / 2) dw) eqn:Ex;
        destruct (ltb (y - (ch - dh) / 2) 0 || gtb (y - (ch - dh) / 2) dh) eqn:Ey;
        rewrite <- ?orb_assoc, ?Ey, ?orb_true_r; rewrite ?Ex; cbn [orb];
        rewrite ?Ey; rewrite Ew, Eh; eexists _, _;
        (split; [reflexivity|]); cbn zeta.
      * split; reflexivity.
      * split; [reflexivity|]. apply scaled_eq.
        apply orb_false_iff in Ey as [E1 E2]. cmp; lra.
      * split; [|reflexivity]. apply Qmult_comp; [|reflexivity].
        apply orb_false_iff in Ex as [E1 E2]. cmp; lra.
      * split; reflexivity.
    + rewrite Ew, Eh. eexists _, _. split; [reflexivity|]. split; reflexivity.
Qed.

(** C5: the rectangle mapping gives equal results for every order of the
    two corners (swapped, or the other diagonal either way), and a result
    [(a, b, c, d)] has [a <= c] and [b <= d]. *)
Theorem canvas_rect_to_pdf_rect_normalised self page_idx x0 y0 x1 y1 :
  let r := _canvas_rect_to_pdf_rect self page_idx in
  result_eq rect_eq (r x0 y0 x1 y1) (r x1 y1 x0 y0) /\
  result_eq rect_eq (r x0 y0 x1 y1) (r x0 y1 x1 y0) /\
  result_eq rect_eq (r x0 y0 x1 y1) (r x1 y0 x0 y1) /\
  (forall a b c d, r x0 y0 x1 y1 = Ok (a, b, c, d) -> a <= c /\ b <= d).
Proof.
  intros r. subst r. unfold _canvas_rect_to_pdf_rect.
  destruct (canvas_to_pdf_point_per_axis self page_idx) as [[e He]|(fx & fy & Hf)].
  - rewrite !He. cbn. repeat split; try reflexivity. all: discriminate.
  - destruct (Hf x0 y0) as (p00 & q00 & E00 & X00 & Y00).
    destruct (Hf x1 y1) as (p11 & q11 & E11 & X11 & Y11).
    destruct (Hf x0 y1) as (p01 & q01 & E01 & X01 & Y01).
    destruct (Hf x1 y0) as (p10 & q10 & E10 & X10 & Y10).
    rewrite E00, E11, E01, E10. cbn.
    repeat split.
    all: try match goal with H : Ok _ = Ok _ |- _ => injection H as <- <- <- <- end.
    all: cmp; lra.
Qed.

(** ** Colours and fonts of the export *)

Ltac n_bools :=
  repeat match goal with
    | H : (_ && _)%bool = true |- _ => apply andb_true_iff in H as [? ?]
    | H : (_ <=? _)%N = true |- _ => apply N.leb_le in H
    | H : (_ <=? _)%N = false |- _ => apply N.leb_gt in H
    end.

Lemma hex_digit_bounds c v :
  hex_digit c = Some v -> (48 <= c <= 102)%N /\ (0 <= v <= 15)%Z.
Proof.
  unfold hex_digit.
  destruct ((48 <=? c) && (c <=? 57))%N eqn:E1;
    [|destruct ((97 <=? c) && (c <=? 102))%N eqn:E2;
      [|destruct ((65 <=? c) && (c <=? 70))%N eqn:E3]];
    intros [= <-]; n_bools; lia.
Qed.

Lemma plain_chr c : (48 <= c <= 102)%N -> isspace c = false /\ chr_eqb c 35 = false.
Proof.
  intros Hc. unfold isspace, chr_eqb.
  assert (E1 : (c <=? 13)%N = false) by (apply N.leb_gt; lia).
  assert (E2 : (c <=? 32)%N = false) by (apply N.leb_gt; lia).
  assert (E3 : (8192 <=? c)%N = false) by (apply N.leb_gt; lia).
  assert (E4 : forall k, (102 < k)%N -> (c =? k)%N = false)
    by (intros k Hk; apply N.eqb_neq; lia).
  rewrite E1, E2, E3, !E4 by lia. rewrite !andb_false_r.
  split; [reflexivity|]. apply N.eqb_neq. lia.
Qed.

Lemma hex_digit_plain c v :
  hex_digit c = Some v -> isspace c = false /\ chr_eqb c 35 = false.
Proof. intros H. apply plain_chr, (hex_digit_bounds c v H). Qed.

Lemma strip_plain_ends a s z :
  isspace a = false -> isspace z = false -> strip (a :: s ++ [z]) = a :: s ++ [z].
Proof.
  intros Ha Hz. unfold strip, rstrip_by. cbn [lstrip_by]. rewrite Ha.
  assert (E : rev (a :: s ++ [z]) = z :: rev (a :: s)).
  { change (a :: s ++ [z]) with ((a :: s) ++ [z]).
    rewrite rev_app_distr. reflexivity. }
  rewrite E. cbn [lstrip_by]. rewrite Hz, <- E. apply rev_involutive.
Qed.

Lemma strip_plain s a t z :
  s = a :: t ++ [z] -> isspace a = false -> isspace z = false -> strip s = s.
Proof. intros -> Ha Hz. apply strip_plain_ends; assumption. Qed.

Lemma int16_pair a b v w :
  hex_digit a = Some v -> hex_digit b = Some w ->
  int16 [a; b] = Ok (16 * v + w)%Z.
Proof.
  intros Ha Hb. unfold int16.
  destruct (hex_digit_plain a v Ha) as [Sa _].
  destruct (hex_digit_plain b w Hb) as [Sb _].
  rewrite (strip_plain [a; b] a [] b eq_refl Sa Sb), Ha, Hb. reflexivity.
Qed.

Lemma channel_range v w :
  (0 <= v <= 15)%Z -> (0 <= w <= 15)%Z -> 0 <= channel v w <= 1.
Proof.
  intros Hv Hw. unfold channel.
  assert (H0 : 0 <= inject_Z (16 * v + w)).
  { change 0 with (inject_Z 0). rewrite <- Zle_Qle. lia. }
  assert (H1 : inject_Z (16 * v + w) <= 255).
  { change 255 with (inject_Z 255). rewrite <- Zle_Qle. lia. }
  split.
  - apply Qle_shift_div_l; lra.
  - apply Qle_shift_div_r; lra.
Qed.

Lemma hex_core_six c1 c2 c3 c4 c5 c6 v1 v2 v3 v4 v5 v6 prefix :
  hex_digit c1 = Some v1 -> hex_digit c2 = Some v2 ->
  hex_digit c3 = Some v3 -> hex_digit c4 = Some v4 ->
  hex_digit c5 = Some v5 -> hex_digit c6 = Some v6 ->
  prefix = [] \/ prefix = [35%N] ->
  _hex_to_rgb01 (prefix ++ [c1; c2; c3; c4; c5; c6]) =
  Ok (channel v1 v2, channel v3 v4, channel v5 v6).
Proof.
  intros H1 H2 H3 H4 H5 H6 Hp. unfold _hex_to_rgb01.
  destruct (hex_digit_plain c1 v1 H1) as [S1 N1].
  destruct (hex_digit_plain c6 v6 H6) as [S6 _].
  assert (E : lstrip_by (chr_eqb 35) (strip (prefix ++ [c1; c2; c3; c4; c5; c6]))
              = [c1; c2; c3; c4; c5; c6]).
  { destruct Hp as [-> | ->]; cbn [app].
    - rewrite (strip_plain [c1; c2; c3; c4; c5; c6] c1 [c2; c3; c4; c5] c6 eq_refl S1 S6). cbn [lstrip_by].
      unfold chr_eqb in *. rewrite N.eqb_sym, N1. reflexivity.
    - rewrite (strip_plain [35%N; c1; c2; c3; c4; c5; c6] 35%N [c1; c2; c3; c4; c5] c6 eq_refl eq_refl S6).
      cbn [lstrip_by]. unfold chr_eqb in *.
      rewrite N.eqb_refl, N.eqb_sym, N1. reflexivity. }
  rewrite E. cbn [length Nat.eqb slice skipn firstn Nat.sub].
  rewrite (int16_pair c1 c2 v1 v2 H1 H2). cbn [rbind].
  rewrite (int16_pair c3 c4 v3 v4 H3 H4). cbn [rbind].
  rewrite (int16_pair c5 c6 v5 v6 H5 H6). reflexivity.
Qed.

(** X1: a colour of six hexadecimal digits, with or without the leading
    [#], is converted without raising to the three channels
    [(16 * hi + lo) / 255], each within [[0, 1]]. *)
Theorem hex_to_rgb01_six_digits c1 c2 c3 c4 c5 c6 v1 v2 v3 v4 v5 v6 :
  hex_digit c1 = Some v1 -> hex_digit c2 = Some v2 ->
  hex_digit c3 = Some v3 -> hex_digit c4 = Some v4 ->
  hex_digit c5 = Some v5 -> hex_digit c6 = Some v6 ->
  exists r g b,
    _hex_to_rgb01 (35%N :: [c1; c2; c3; c4; c5; c6]) = Ok (r, g, b) /\
    _hex_to_rgb01 [c1; c2; c3; c4; c5; c6] = Ok (r, g, b) /\
    r = channel v1 v2 /\ g = channel v3 v4 /\ b = channel v5 v6 /\
    0 <= r <= 1 /\ 0 <= g <= 1 /\ 0 <= b <= 1.
Proof.
  intros H1 H2 H3 H4 H5 H6.
  exists (channel v1 v2), (channel v3 v4), (channel v5 v6).
  split; [exact (hex_core_six _ _ _ _ _ _ _ _ _ _ _ _ [35%N] H1 H2 H3 H4 H5 H6 (or_intror eq_refl))|].
  split; [exact (hex_core_six _ _ _ _ _ _ _ _ _ _ _ _ [] H1 H2 H3 H4 H5 H6 (or_introl eq_refl))|].
  repeat split; try reflexivity;
    apply channel_range; eapply hex_digit_bounds; eassumption.
Qed.

(** X2: the three-character shorthand [#abc] gives the same result,
    value or exception, as the six-character [#aabbcc]. *)
Theorem hex_to_rgb01_shorthand a b c :
  isspace a = false -> isspace c = false ->
  chr_eqb 35 a = false ->
  _hex_to_rgb01 (35%N :: [a; b; c]) = _hex_to_rgb01 (35%N :: [a; a; b; b; c; c]).
Proof.
  intros Sa Sc Na. unfold _hex_to_rgb01.
  rewrite (strip_plain [35%N; a; b; c] 35%N [a; b] c eq_refl eq_refl Sc).
  rewrite (strip_plain [35%N; a; a; b; b; c; c] 35%N [a; a; b; b; c] c eq_refl eq_refl Sc).
  cbn [lstrip_by]. unfold chr_eqb in *. rewrite N.eqb_refl, Na.
  reflexivity.
Qed.

(** X3: a colour with fewer than five characters after stripping
    whitespace and leading [#], other than the three-character shorthand,
    raises ValueError. *)
Theorem hex_to_rgb01_too_short hexstr :
  let core := lstrip_by (chr_eqb 35) (strip hexstr) in
  (length core < 5)%nat -> length core <> 3%nat ->
  _hex_to_rgb01 hexstr = Raise ValueError.
Proof.
  intros core Hlen H3. unfold _hex_to_rgb01. fold core.
  assert (Eint : forall s, int16 s = Raise ValueError \/ exists v, int16 s = Ok v).
  { intros s. unfold int16.
    repeat match goal with
           | |- context [match ?x with _ => _ end] => destruct x
           end; eauto. }
  assert (Enil : int16 [] = Raise ValueError) by reflexivity.
  destruct core as [|c1 [|c2 [|c3 [|c4 [|c5 rest]]]]]; cbn in Hlen, H3; try lia;
    cbn [length Nat.eqb slice skipn firstn Nat.sub].
  - reflexivity.
  - destruct (Eint [c1]) as [->|[v ->]]; reflexivity.
  - destruct (Eint [c1; c2]) as [->|[v ->]]; reflexivity.
  - destruct (Eint [c1; c2]) as [->|[v ->]]; [reflexivity|]. cbn [rbind].
    destruct (Eint [c3; c4]) as [->|[w ->]]; reflexivity.
Qed.

(** X4: with the font map of [__init__], [_fitz_font_from_tk] always
    returns one of the names helv, times, cour; the three families of the
    panel map to their own name; a family containing "helvetica" in any
    case maps to helv, and so does a family that matches none of the
    keywords. *)
Theorem fitz_font_is_base14 self tk_family :
  _font_map self = the_font_map ->
  let fitz := _fitz_font_from_tk self in
  In (fitz tk_family) [lit "helv"; lit "times"; lit "cour"] /\
  fitz (lit "Helvetica") = lit "helv" /\
  fitz (lit "Times New Roman") = lit "times" /\
  fitz (lit "Courier New") = lit "cour" /\
  (contains (lower tk_family) (lit "helvetica") = true ->
   fitz tk_family = lit "helv") /\
  ((forall key, In key [lit "helvetica"; lit "times new roman"; lit "courier new";
                        lit "time"; lit "georgia"; lit "serif"; lit "cour";
                        lit "mono"] ->
                contains (lower tk_family) key = false) ->
   fitz tk_family = lit "helv").
Proof.
  intros Hmap fitz. subst fitz. unfold _fitz_font_from_tk. rewrite Hmap.
  unfold the_font_map. cbn [_font_map new_viewer List.find].
  change (lower (lit "Helvetica")) with (lit "helvetica").
  change (lower (lit "Times New Roman")) with (lit "times new roman").
  change (lower (lit "Courier New")) with (lit "courier new").
  split; [|split; [|split; [|split; [|split]]]].
  - repeat match goal with
           | |- context [if ?b then _ else _] => destruct b
           end; cbn; tauto.
  - vm_compute. reflexivity.
  - vm_compute. reflexivity.
  - vm_compute. reflexivity.
  - intros ->. reflexivity.
  - intros H. rewrite !H by (cbn; tauto). reflexivity.
Qed.

Lemma clamp_mono hi v v' : 0 <= hi -> v <= v' -> clamp hi v <= clamp hi v'.
Proof. intros. unfold clamp. repeat destruct Qlt_le_dec; lra. Qed.

Lemma local_mono fit c d v v' : 0 <= d -> v <= v' -> local fit c d v <= local fit c d v'.
Proof.
  intros Hd Hv. unfold local. destruct fit; [|exact Hv].
  apply clamp_mono; [exact Hd|lra].
Qed.

(** X5: with a page photo of positive size, the point mapping grows with
    x and falls with y, in both view modes; so for canvas corners
    [x0 <= x1], [y0 <= y1] the page rectangle is made of the x of the first
    and second corner and of the y of the second and first corner (the Y
    axis is flipped). *)
Theorem canvas_rect_flips_corners self page_idx page photo x0 y0 x1 y1 :
  doc_getitem (pdf_document self) page_idx = Ok page ->
  _page_photo self = Obj photo ->
  (0 < width photo)%Z -> (0 < height photo)%Z ->
  0 <= rect_width page -> 0 <= rect_height page ->
  x0 <= x1 -> y0 <= y1 ->
  exists px0 py0 px1 py1,
    _canvas_to_pdf_point self page_idx x0 y0 = Ok (px0, py0) /\
    _canvas_to_pdf_point self page_idx x1 y1 = Ok (px1, py1) /\
    px0 <= px1 /\ py1 <= py0 /\
    result_eq rect_eq (_canvas_rect_to_pdf_rect self page_idx x0 y0 x1 y1)
      (Ok (px0, py1, px1, py0)).
Proof.
  intros Hpage Hphoto Hw Hh Hpw Hph Hx Hy.
  destruct (canvas_to_pdf_point_scaled self page_idx page photo Hpage Hphoto Hw Hh x0 y0)
    as (px0 & py0 & E0 & X0 & Y0).
  destruct (canvas_to_pdf_point_scaled self page_idx page photo Hpage Hphoto Hw Hh x1 y1)
    as (px1 & py1 & E1 & X1 & Y1).
  pose proof (dw_pos photo Hw) as Hdw. pose proof (dh_pos photo Hh) as Hdh.
  set (dw := inject_Z (width photo)) in *. set (dh := inject_Z (height photo)) in *.
  assert (Hsx : 0 <= rect_width page / dw) by (apply Qle_shift_div_l; lra).
  assert (Hsy : 0 <= rect_height page / dh) by (apply Qle_shift_div_l; lra).
  assert (Lx := local_mono (fit_to_window self)
                  (inject_Z (winfo_width (pdf_canvas self))) dw x0 x1
                  (Qlt_le_weak _ _ Hdw) Hx).
  assert (Ly := local_mono (fit_to_window self)
                  (inject_Z (winfo_height (pdf_canvas self))) dh y0 y1
                  (Qlt_le_weak _ _ Hdh) Hy).
  assert (Px : px0 <= px1).
  { rewrite X0, X1. apply Qmult_le_compat_r; assumption. }
  assert (Py : py1 <= py0).
  { rewrite Y0, Y1.
    pose proof (Qmult_le_compat_r _ _ _ Ly Hsy). lra. }
  exists px0, py0, px1, py1. repeat split; try assumption.
  unfold _canvas_rect_to_pdf_rect. rewrite E0, E1. cbn.
  repeat split; cmp; lra.
Qed.

(** ** The coordinate mapping on doubles *)

Lemma SFcompare_antisym a b :
  SFcompare b a = option_map CompOpp (SFcompare a b).
Proof.
  destruct a as [sa|sa| |sa ma ea], b as [sb|sb| |sb mb eb]; cbn;
    try reflexivity;
    try (destruct sa; reflexivity); try (destruct sb; reflexivity);
    try (destruct sa, sb; reflexivity).
  f_equal. change (PosDef.Pos.compare_cont Eq) with Pos.compare.
  rewrite (Z.compare_antisym ea eb), (Pos.compare_antisym ma mb).
  destruct sa, sb; try reflexivity;
    destruct (ea ?= eb)%Z; cbn; try reflexivity;
    destruct (ma ?= mb)%positive; reflexivity.
Qed.

Lemma double_ltb_asym a b : Double.ltb a b = true -> Double.ltb b a = false.
Proof.
  unfold Double.ltb. rewrite !ltb_spec. unfold SFltb.
  rewrite (SFcompare_antisym (Prim2SF a) (Prim2SF b)).
  destruct (SFcompare (Prim2SF a) (Prim2SF b)) as [[]|]; cbn; congruence.
Qed.

Lemma double_ltb_irrefl a : Double.ltb a a = false.
Proof.
  destruct (Double.ltb a a) eqn:E; [|reflexivity].
  pose proof (double_ltb_asym a a E). congruence.
Qed.

(** [float(z) < 0] is false for an [int] that is not negative. *)
Lemma of_int_not_negative z :
  (0 <= z)%Z -> Double.ltb (Double.of_int z) 0 = false.
Proof.
  intros Hz. unfold Double.ltb. rewrite ltb_spec.
  destruct z as [|p|p]; [reflexivity| |lia].
  unfold Double.of_int. rewrite of_uint63_spec.
  change (Prim2SF 0) with (S754_zero false).
  unfold binary_normalize.
  destruct (Uint63Axioms.to_Z (Uint63.of_Z (Z.pos p))) as [|m|m] eqn:E;
    [reflexivity| |].
  - unfold binary_round.
    destruct (shl_align _ _ _) as [mz ez]. unfold binary_round_aux.
    destruct (shr_fexp _ _ _ _ _) as [mrs' e'].
    destruct (shr_fexp _ _ _ _ _) as [mrs'' e''].
    destruct (shr_m mrs''); [reflexivity| |reflexivity].
    destruct (_ <=? _)%Z; reflexivity.
  - pose proof (Uint63.to_Z_bounded (Uint63.of_Z (Z.pos p))).
    change Uint63Axioms.to_Z with Uint63.to_Z in E. lia.
Qed.

(** [max(0, min(d, r))] is [r], 0 or [d], and neither below 0 nor above
    [d], whatever [r] is. *)
Lemma double_clamp d r :
  Double.ltb d 0 = false ->
  let c := Double.max 0 (Double.min d r) in
  (c = r \/ c = 0%float \/ c = d) /\
  Double.ltb c 0 = false /\ Double.gtb c d = false.
Proof.
  intros Hd. cbv zeta. unfold Double.max, Double.min, Double.gtb.
  destruct (Double.ltb r d) eqn:E1.
  - destruct (Double.ltb 0 r) eqn:E2.
    + split; [left; reflexivity|].
      split; [exact (double_ltb_asym _ _ E2)|exact (double_ltb_asym _ _ E1)].
    + split; [right; left; reflexivity|]. split; [reflexivity|exact Hd].
  - destruct (Double.ltb 0 d) eqn:E2.
    + split; [right; right; reflexivity|].
      split; [exact Hd|apply double_ltb_irrefl].
    + split; [right; left; reflexivity|]. split; [reflexivity|exact Hd].
Qed.

(** X21: the clamp of the fit-to-window branch in doubles.  With a page
    photo of positive size the mapping returns the scaled and flipped
    image-local coordinate, which is the coordinate of the pointer less the
    offset of the image, 0 or the size of the image, and is neither below 0
    nor above the size of the image; this holds for every double, infinite
    or not a number. *)
Theorem fit_mode_clamps_in_doubles
    winfo_width winfo_height width height pdf_width pdf_height canvas_x canvas_y :
  (0 < width)%Z -> (0 < height)%Z ->
  let display_width := Double.of_int width in
  let display_height := Double.of_int height in
  let rel_x := (canvas_x - Double.of_int (winfo_width - width) / 2)%float in
  let rel_y := (canvas_y - Double.of_int (winfo_height - height) / 2)%float in
  exists lx ly,
    Double._canvas_to_pdf_point true winfo_width winfo_height width height
      pdf_width pdf_height canvas_x canvas_y =
    Ok ((lx * (pdf_width / display_width))%float,
        (pdf_height - ly * (pdf_height / display_height))%float) /\
    (lx = rel_x \/ lx = 0%float \/ lx = display_width) /\
    (ly = rel_y \/ ly = 0%float \/ ly = display_height) /\
    Double.ltb lx 0 = false /\ Double.gtb lx display_width = false /\
    Double.ltb ly 0 = false /\ Double.gtb ly display_height = false.
Proof.
  intros Hw Hh dw dh rel_x rel_y.
  assert (Hdw : Double.ltb dw 0 = false) by (apply of_int_not_negative; lia).
  assert (Hdh : Double.ltb dh 0 = false) by (apply of_int_not_negative; lia).
  unfold Double._canvas_to_pdf_point. fold dw dh rel_x rel_y.
  replace (width =? 0)%Z with false by (symmetry; apply Z.eqb_neq; lia).
  replace (height =? 0)%Z with false by (symmetry; apply Z.eqb_neq; lia).
  destruct (Double.ltb rel_x 0 || Double.gtb rel_x dw
            || Double.ltb rel_y 0 || Double.gtb rel_y dh) eqn:E.
  - destruct (double_clamp dw rel_x Hdw) as (Mx & Lx & Gx).
    destruct (double_clamp dh rel_y Hdh) as (My & Ly & Gy).
    eexists _, _. split; [reflexivity|]. repeat split; assumption.
  - apply orb_false_iff in E as [E Gy]. apply orb_false_iff in E as [E Ly].
    apply orb_false_iff in E as [Lx Gx].
    exists rel_x, rel_y. split; [reflexivity|].
    repeat split; auto.
Qed.

(** ** Invariants through the monad *)

Section Keeps.

Context {A B : Type} (I : Viewer -> Prop).

Lemma keeps_ret (a : A) : keeps I (ret a).
Proof. intros s H. exact H. Qed.

Lemma keeps_raise e : keeps I (raise (A := A) e).
Proof. intros s H. exact H. Qed.

Lemma keeps_lift (r : result A) : keeps I (lift r).
Proof. intros s H. exact H. Qed.

Lemma keeps_call (f : Viewer -> result A) : keeps I (call f).
Proof. intros s H. exact H. Qed.

Lemma keeps_get : keeps I get.
Proof. intros s H. exact H. Qed.

Lemma keeps_modify f : (forall s, I s -> I (f s)) -> keeps I (modify f).
Proof. intros Hf s H. apply Hf, H. Qed.

Lemma keeps_bind (m : M Viewer A) (k : A -> M Viewer B) :
  keeps I m -> (forall a, keeps I (k a)) -> keeps I (bind m k).
Proof.
  intros Hm Hk s H. unfold bind. specialize (Hm s H).
  destruct (m s) as [s' [a|e]]; cbn in *; [apply (Hk a)|]; assumption.
Qed.

Lemma keeps_bind_get (k : Viewer -> M Viewer B) :
  (forall self, I self -> keeps I (k self)) -> keeps I (bind get k).
Proof. intros Hk s H. unfold bind, get. exact (Hk s H s H). Qed.

Lemma keeps_try (m : M Viewer A) h :
  keeps I m -> (forall e, keeps I (h e)) -> keeps I (try_except m h).
Proof.
  intros Hm Hh s H. unfold try_except. specialize (Hm s H).
  destruct (m s) as [s' [a|e]]; cbn in *; [|apply (Hh e)]; assumption.
Qed.

Lemma keeps_for_each (l : list A) body :
  (forall a, keeps I (body a)) -> keeps I (for_each l body).
Proof.
  intros Hb. induction l as [|a l IH]; cbn.
  - intros s H. exact H.
  - intros s H. unfold bind. specialize (Hb a s H).
    destruct (body a s) as [s' [[]|e]]; cbn in *; [apply (IH s')|]; assumption.
Qed.

Lemma keeps_for_fold (l : list A) (body : B -> A -> M Viewer B) b :
  (forall b a, keeps I (body b a)) -> keeps I (for_fold l body b).
Proof.
  intros Hb. revert b. induction l as [|a l IH]; intros b; cbn.
  - intros s H. exact H.
  - intros s H. unfold bind. specialize (Hb b a s H).
    destruct (body b a s) as [s' [b'|e]]; cbn in *; [apply (IH b' s')|]; assumption.
Qed.

End Keeps.

Lemma keeps_when I b m : keeps I m -> keeps I (when b m).
Proof. intros H. destruct b; [exact H|apply keeps_ret]. Qed.

Lemma preserves_keeps {A T} (f : Viewer -> T) (m : M Viewer A) :
  preserves f m <-> forall o, keeps (fun s => f s = o) m.
Proof.
  split.
  - intros H o s <-. apply H.
  - intros H s. apply (H (f s)). reflexivity.
Qed.

Lemma preserves_through {A T U} (f : Viewer -> T) (g : T -> U) (m : M Viewer A) :
  preserves f m -> preserves (fun s => g (f s)) m.
Proof. intros H s. cbn. rewrite H. reflexivity. Qed.

Create HintDb keeps discriminated.

Lemma core_core {A} (m : M Viewer A) o :
  preserves core m -> keeps (fun s => core s = o) m.
Proof. intros H. apply preserves_keeps, H. Qed.
Lemma core_beside_redactions {A} (m : M Viewer A) o :
  preserves core m -> keeps (fun s => beside_redactions s = o) m.
Proof.
  intros H. apply preserves_keeps.
  exact (preserves_through core (fun c => (snd (fst c), snd c)) m H).
Qed.
Lemma core_beside_texts {A} (m : M Viewer A) o :
  preserves core m -> keeps (fun s => beside_texts s = o) m.
Proof.
  intros H. apply preserves_keeps.
  exact (preserves_through core (fun c => (fst (fst c), snd c)) m H).
Qed.
Lemma core_overlay_state {A} (m : M Viewer A) o :
  preserves core m -> keeps (fun s => overlay_state s = o) m.
Proof.
  intros H. apply preserves_keeps.
  exact (preserves_through core fst m H).
Qed.

Lemma core_beside_thumbs {A} (m : M Viewer A) o :
  preserves core m -> keeps (fun s => beside_thumbs s = o) m.
Proof.
  intros H. apply preserves_keeps.
  exact (preserves_through core (fun c => (fst c, snd (snd c))) m H).
Qed.

Lemma beside_redactions_eq {A} (m : M Viewer A) o :
  preserves beside_redactions m -> keeps (fun s => beside_redactions s = o) m.
Proof. intros H. apply preserves_keeps, H. Qed.
Lemma beside_texts_eq {A} (m : M Viewer A) o :
  preserves beside_texts m -> keeps (fun s => beside_texts s = o) m.
Proof. intros H. apply preserves_keeps, H. Qed.
Lemma beside_thumbs_eq {A} (m : M Viewer A) o :
  preserves beside_thumbs m -> keeps (fun s => beside_thumbs s = o) m.
Proof. intros H. apply preserves_keeps, H. Qed.

#[export] Hint Resolve core_core core_beside_redactions core_beside_texts
  core_beside_thumbs core_overlay_state beside_redactions_eq beside_texts_eq
  beside_thumbs_eq : keeps.

Lemma keeps_canvas_new I k coords tags :
  (forall s c, I s -> I (set_pdf_canvas c s)) -> keeps I (canvas_new k coords tags).
Proof.
  intros HI s Hs. unfold canvas_new. destruct canvas_create. cbn. apply HI, Hs.
Qed.

Lemma keeps_td_update I td f :
  (forall s h, I s -> I (set_text_heap h s)) -> keeps I (td_update td f).
Proof.
  intros HI s Hs. unfold td_update, modify. cbn.
  destruct (text_heap s !! td); [apply HI|]; exact Hs.
Qed.

Ltac keeps_leaf :=
  solve [ intros; cbn in *; try assumption; try reflexivity; auto
        | intros ? <-; reflexivity ].

Ltac keeps_step :=
  lazymatch goal with
  | |- keeps _ (bind get _) => apply keeps_bind_get; intros ? ?
  | |- keeps _ (bind _ _) => apply keeps_bind; [ | intros ? ]
  | |- keeps _ (ret _) => apply keeps_ret
  | |- keeps _ (raise _) => apply keeps_raise
  | |- keeps _ (lift _) => apply keeps_lift
  | |- keeps _ (call _) => apply keeps_call
  | |- keeps _ get => apply keeps_get
  | |- keeps _ (when _ _) => apply keeps_when
  | |- keeps _ (try_except _ _) => apply keeps_try; [ | intros ? ]
  | |- keeps _ (for_each _ _) => apply keeps_for_each; intros ?
  | |- keeps _ (for_fold _ _ _) => apply keeps_for_fold; intros ? ?
  | |- keeps _ (modify _) => apply keeps_modify; keeps_leaf
  | |- keeps _ (canvas_new _ _ _) => apply keeps_canvas_new; keeps_leaf
  | |- keeps _ (td_update _ _) => apply keeps_td_update; keeps_leaf
  | |- keeps _ (match ?x with _ => _ end) => destruct x eqn:?
  | |- keeps _ (let (_, _) := ?x in _) => destruct x eqn:?
  end.

Ltac keeps_tac := repeat first [ solve [eauto 3 with keeps] | keeps_step ].

Ltac preserves_tac := apply preserves_keeps; intros ?; keeps_tac.

(** ** Running a method step by step *)

Lemma run_get {B} (k : Viewer -> M Viewer B) s : bind get k s = k s s.
Proof. reflexivity. Qed.

Lemma run_modify {B} f (k : unit -> M Viewer B) s :
  bind (modify f) k s = k tt (f s).
Proof. reflexivity. Qed.

Lemma run_ret {A B} (a : A) (k : A -> M Viewer B) s : bind (ret a) k s = k a s.
Proof. reflexivity. Qed.

Lemma run_seq {B} (m : M Viewer unit) (k : unit -> M Viewer B) s s' :
  m s = (s', Ok tt) -> bind m k s = k tt s'.
Proof. intros E. unfold bind. rewrite E. reflexivity. Qed.

Lemma run_var {A B} (v : Viewer -> option A) (k : A -> M Viewer B) s :
  bind (var v) k s =
  match v s with
  | Some a => k a s
  | None => (s, Raise AttributeError)
  end.
Proof. unfold var, bind, get. destruct (v s); reflexivity. Qed.

Lemma run_lift {A B} (r : result A) (k : A -> M Viewer B) s :
  bind (lift r) k s =
  match r with
  | Ok a => k a s
  | Raise e => (s, Raise e)
  end.
Proof. unfold lift, bind. destruct r; reflexivity. Qed.

Lemma run_tail {A B T} (f : Viewer -> T) (m : M Viewer A) (k : A -> M Viewer B) s :
  (forall a, preserves f (k a)) -> f (fst (bind m k s)) = f (fst (m s)).
Proof.
  intros Hk. unfold bind. destruct (m s) as [s' [a|e]]; cbn; [apply Hk|reflexivity].
Qed.

(** ** What each method leaves alone *)

Section Invariants.

Variable tk : Toolkit.

Lemma on_canvas_core f : preserves core (on_canvas f).
Proof. unfold on_canvas. preserves_tac. Qed.
Hint Resolve on_canvas_core : keeps.

Lemma canvas_new_core k c t : preserves core (canvas_new k c t).
Proof. intros s. unfold canvas_new. destruct canvas_create. reflexivity. Qed.
Hint Resolve canvas_new_core : keeps.

Lemma after_core cb : preserves core (after cb).
Proof. unfold after. preserves_tac. Qed.
Hint Resolve after_core : keeps.

Lemma deref_core td : preserves core (deref td).
Proof. unfold deref. preserves_tac. Qed.
Hint Resolve deref_core : keeps.

Lemma _restore_redactions_core : preserves core _restore_redactions.
Proof. unfold _restore_redactions. preserves_tac. Qed.
Hint Resolve _restore_redactions_core : keeps.

Lemma _render_text_core td : preserves core (_render_text td).
Proof. unfold _render_text. preserves_tac. Qed.
Hint Resolve _render_text_core : keeps.

Lemma _restore_texts_core : preserves core _restore_texts.
Proof. unfold _restore_texts. preserves_tac. Qed.
Hint Resolve _restore_texts_core : keeps.

Lemma display_page_core : preserves core (display_page tk).
Proof. unfold display_page. preserves_tac. Qed.
Hint Resolve display_page_core : keeps.


Lemma var_core {A} (v : Viewer -> option A) : preserves core (var v).
Proof. unfold var. preserves_tac. Qed.
Hint Resolve var_core : keeps.

Lemma on_redact_overlay_core f : preserves core (on_redact_overlay f).
Proof. unfold on_redact_overlay. preserves_tac. Qed.
Hint Resolve on_redact_overlay_core : keeps.

Lemma action_redact_core : preserves core (action_redact).
Proof. unfold action_redact. preserves_tac. Qed.
Hint Resolve action_redact_core : keeps.

Lemma _redact_start_core e : preserves core (_redact_start tk e).
Proof. unfold _redact_start. preserves_tac. Qed.
Hint Resolve _redact_start_core : keeps.

Lemma _redact_drag_core e : preserves core (_redact_drag e).
Proof. unfold _redact_drag. preserves_tac. Qed.
Hint Resolve _redact_drag_core : keeps.

Lemma _adjust_redact_core b d : preserves core (_adjust_redact b d).
Proof. unfold _adjust_redact. preserves_tac. Qed.
Hint Resolve _adjust_redact_core : keeps.

Lemma _clear_text_selection_core : preserves core (_clear_text_selection).
Proof. unfold _clear_text_selection. preserves_tac. Qed.
Hint Resolve _clear_text_selection_core : keeps.

Lemma frame_selected_core item : preserves core (frame_selected tk item).
Proof. unfold frame_selected. preserves_tac. Qed.
Hint Resolve frame_selected_core : keeps.

Lemma _create_text_panel_core : preserves core (_create_text_panel).
Proof. unfold _create_text_panel. preserves_tac. Qed.
Hint Resolve _create_text_panel_core : keeps.

Lemma action_write_core : preserves core (action_write).
Proof. unfold action_write. preserves_tac. Qed.
Hint Resolve action_write_core : keeps.

Lemma _text_drag_move_core e : preserves core (_text_drag_move tk e).
Proof. unfold _text_drag_move. preserves_tac. Qed.
Hint Resolve _text_drag_move_core : keeps.

Lemma deactivate_current_tool_core : preserves core (deactivate_current_tool).
Proof. unfold deactivate_current_tool. preserves_tac. Qed.
Hint Resolve deactivate_current_tool_core : keeps.

Lemma export_text_core p out td : preserves core (export_text tk p out td).
Proof. unfold export_text. preserves_tac. Qed.
Hint Resolve export_text_core : keeps.

Lemma export_redaction_core p out r : preserves core (export_redaction p out r).
Proof. unfold export_redaction. preserves_tac. Qed.
Hint Resolve export_redaction_core : keeps.

Lemma _export_with_overlays_core path : preserves core (_export_with_overlays tk path).
Proof. unfold _export_with_overlays. preserves_tac. Qed.
Hint Resolve _export_with_overlays_core : keeps.

Lemma do_save_core path : preserves core (do_save tk path).
Proof. unfold do_save. preserves_tac. Qed.
Hint Resolve do_save_core : keeps.

Lemma toggle_fit_core : preserves core (toggle_fit tk).
Proof. unfold toggle_fit. preserves_tac. Qed.
Hint Resolve toggle_fit_core : keeps.

Lemma zoom_in_core st : preserves core (zoom_in tk st).
Proof. unfold zoom_in. preserves_tac. Qed.
Hint Resolve zoom_in_core : keeps.

Lemma zoom_out_core st : preserves core (zoom_out tk st).
Proof. unfold zoom_out. preserves_tac. Qed.
Hint Resolve zoom_out_core : keeps.

Lemma zoom_reset_core : preserves core (zoom_reset tk).
Proof. unfold zoom_reset. preserves_tac. Qed.
Hint Resolve zoom_reset_core : keeps.

Lemma on_tool_core t : preserves core (on_tool t).
Proof. unfold on_tool. preserves_tac. Qed.
Hint Resolve on_tool_core : keeps.

Lemma td_update_beside_texts td f : preserves beside_texts (td_update td f).
Proof. intros s. unfold td_update, modify. cbn. destruct (_ !! _); reflexivity. Qed.
Hint Resolve td_update_beside_texts : keeps.

Lemma _apply_beside_texts : preserves beside_texts (_apply tk).
Proof. unfold _apply. preserves_tac. Qed.
Hint Resolve _apply_beside_texts : keeps.

Lemma traced_beside_texts w :
  (forall s, beside_texts (w s) = beside_texts s) ->
  preserves beside_texts (traced tk w).
Proof.
  intros Hw. unfold traced. apply preserves_keeps; intros o.
  apply keeps_bind; [|intros _; keeps_tac].
  apply keeps_modify. intros s <-. apply Hw.
Qed.
Hint Resolve traced_beside_texts : keeps.
Hint Extern 1 (_ = _) => reflexivity : keeps.

Lemma _select_text_beside_texts item td : preserves beside_texts (_select_text tk item td).
Proof. unfold _select_text. preserves_tac. Qed.
Hint Resolve _select_text_beside_texts : keeps.

Lemma _text_click_beside_texts e : preserves beside_texts (_text_click tk e).
Proof. unfold _text_click. preserves_tac. Qed.
Hint Resolve _text_click_beside_texts : keeps.

Lemma save_text_beside_texts en text : preserves beside_texts (save_text en text).
Proof. unfold save_text. preserves_tac. Qed.
Hint Resolve save_text_beside_texts : keeps.

Lemma _delete_text_beside_texts item td : preserves beside_texts (_delete_text item td).
Proof. unfold _delete_text. preserves_tac. Qed.
Hint Resolve _delete_text_beside_texts : keeps.

Lemma _text_right_click_beside_texts e : preserves beside_texts (_text_right_click tk e).
Proof. unfold _text_right_click. preserves_tac. Qed.
Hint Resolve _text_right_click_beside_texts : keeps.

Lemma _text_drag_drop_beside_texts e : preserves beside_texts (_text_drag_drop tk e).
Proof. unfold _text_drag_drop. preserves_tac. Qed.
Hint Resolve _text_drag_drop_beside_texts : keeps.

Lemma forget_redaction_beside_redactions p c : preserves beside_redactions (forget_redaction p c).
Proof. unfold forget_redaction. preserves_tac. Qed.
Hint Resolve forget_redaction_beside_redactions : keeps.

Lemma _redact_right_click_beside_redactions e : preserves beside_redactions (_redact_right_click tk e).
Proof. unfold _redact_right_click. preserves_tac. Qed.
Hint Resolve _redact_right_click_beside_redactions : keeps.

Lemma _redact_finish_beside_redactions e : preserves beside_redactions (_redact_finish e).
Proof. unfold _redact_finish. preserves_tac. Qed.
Hint Resolve _redact_finish_beside_redactions : keeps.

Lemma _delete_redact_beside_redactions : preserves beside_redactions (_delete_redact).
Proof. unfold _delete_redact. preserves_tac. Qed.
Hint Resolve _delete_redact_beside_redactions : keeps.

Lemma _ensure_thumb_beside_thumbs p : preserves beside_thumbs (_ensure_thumb tk p).
Proof. unfold _ensure_thumb. preserves_tac. Qed.
Hint Resolve _ensure_thumb_beside_thumbs : keeps.

Lemma _schedule_thumb_batch_beside_thumbs : preserves beside_thumbs (_schedule_thumb_batch tk).
Proof. unfold _schedule_thumb_batch. preserves_tac. Qed.
Hint Resolve _schedule_thumb_batch_beside_thumbs : keeps.

Lemma goto_page_beside_thumbs p : preserves beside_thumbs (goto_page tk p).
Proof. unfold goto_page. preserves_tac. Qed.
Hint Resolve goto_page_beside_thumbs : keeps.

Lemma next_page_beside_thumbs : preserves beside_thumbs (next_page tk).
Proof. unfold next_page. preserves_tac. Qed.
Hint Resolve next_page_beside_thumbs : keeps.

Lemma prev_page_beside_thumbs : preserves beside_thumbs (prev_page tk).
Proof. unfold prev_page. preserves_tac. Qed.
Hint Resolve prev_page_beside_thumbs : keeps.

Lemma _wheel_to_pages_beside_thumbs d : preserves beside_thumbs (_wheel_to_pages tk d).
Proof. unfold _wheel_to_pages. preserves_tac. Qed.
Hint Resolve _wheel_to_pages_beside_thumbs : keeps.

Lemma __init___beside_thumbs : preserves beside_thumbs (__init__ tk).
Proof. unfold __init__. preserves_tac. Qed.
Hint Resolve __init___beside_thumbs : keeps.

(** ** The store of redaction rectangles *)

Lemma py_remove_In {A} eqb (x a : A) l : In a (py_remove eqb x l) -> In a l.
Proof.
  induction l as [|b l IH]; cbn; [tauto|].
  destruct (eqb x b); cbn; tauto.
Qed.

Lemma redactions_ok_insert store page rects :
  redactions_ok store ->
  (forall r, In r rects -> nondegenerate r) ->
  redactions_ok (<[page := rects]> store).
Proof.
  intros Hs Hr p rs r Hp Hin.
  destruct (decide (page = p)) as [->|Hne].
  - rewrite lookup_insert_eq in Hp. injection Hp as <-. auto.
  - rewrite lookup_insert_ne in Hp by assumption. eauto.
Qed.

Lemma core_redactions_ok {A} (m : M Viewer A) :
  preserves core m -> keeps (fun s => redactions_ok (_redactions_by_page s)) m.
Proof.
  intros H s Hs.
  pose proof (H s) as E. unfold core, overlay_state in E.
  injection E as E _ _ _ _. rewrite E. exact Hs.
Qed.
Lemma beside_texts_redactions_ok {A} (m : M Viewer A) :
  preserves beside_texts m -> keeps (fun s => redactions_ok (_redactions_by_page s)) m.
Proof.
  intros H s Hs.
  pose proof (H s) as E. unfold beside_texts in E.
  injection E as E _ _. rewrite E. exact Hs.
Qed.
Lemma beside_thumbs_redactions_ok {A} (m : M Viewer A) :
  preserves beside_thumbs m -> keeps (fun s => redactions_ok (_redactions_by_page s)) m.
Proof.
  intros H s Hs.
  pose proof (H s) as E. unfold beside_thumbs, overlay_state in E.
  injection E as E _ _ _. rewrite E. exact Hs.
Qed.
Hint Resolve core_redactions_ok beside_texts_redactions_ok
  beside_thumbs_redactions_ok : keeps.

Lemma forget_redaction_ok page coords :
  keeps (fun s => redactions_ok (_redactions_by_page s)) (forget_redaction page coords).
Proof.
  unfold forget_redaction. keeps_tac.
  intros s _. cbn.
  apply redactions_ok_insert; [assumption|].
  intros r' Hin. apply py_remove_In in Hin. eauto.
Qed.
Hint Resolve forget_redaction_ok : keeps.

Lemma _redact_finish_ok e :
  keeps (fun s => redactions_ok (_redactions_by_page s)) (_redact_finish e).
Proof.
  unfold _redact_finish. keeps_tac.
  intros s Hs. cbn.
  apply redactions_ok_insert; [assumption|].
  intros rect Hin. apply in_app_or in Hin as [Hin|[<-|[]]].
  - destruct (_redactions_by_page s !! current_page s) eqn:E; cbn in Hin; [|tauto].
    eauto.
  - split; apply ltb_false; assumption.
Qed.
Hint Resolve _redact_finish_ok : keeps.

Lemma _redact_right_click_ok e :
  keeps (fun s => redactions_ok (_redactions_by_page s)) (_redact_right_click tk e).
Proof. unfold _redact_right_click. keeps_tac. Qed.

Lemma _delete_redact_ok :
  keeps (fun s => redactions_ok (_redactions_by_page s)) _delete_redact.
Proof. unfold _delete_redact. keeps_tac. Qed.
Hint Resolve _redact_right_click_ok _delete_redact_ok : keeps.

Lemma handle_redactions_ok i :
  keeps (fun s => redactions_ok (_redactions_by_page s)) (handle tk i).
Proof.
  unfold handle. destruct i; keeps_tac.
Qed.

Lemma reachable_redactions_ok doc s :
  reachable tk doc s -> redactions_ok (_redactions_by_page s).
Proof.
  induction 1 as [|s i _ IH].
  - apply (beside_thumbs_redactions_ok _ __init___beside_thumbs).
    intros page rects r Hp. cbn in Hp. rewrite lookup_empty in Hp. discriminate.
  - apply handle_redactions_ok, IH.
Qed.

(** What [_redact_finish] does to the store, read off its code. *)
Lemma _redact_finish_store e s :
  _redactions_by_page (fst (_redact_finish e s)) =
  match _redact_overlay s with
  | Some o =>
      match mode o, current_item o with
      | draw, Some item =>
          match canvas_coords (pdf_canvas s) item with
          | x0 :: y0 :: x1 :: y1 :: _ =>
              if ltb (Qabs (x1 - x0)) 5 || ltb (Qabs (y1 - y0)) 5
              then _redactions_by_page s
              else <[current_page s :=
                       default [] (_redactions_by_page s !! current_page s)
                       ++ [(x0, y0, x1, y1)]]> (_redactions_by_page s)
          | _ => _redactions_by_page s
          end
      | _, _ => _redactions_by_page s
      end
  | None => _redactions_by_page s
  end.
Proof.
  unfold _redact_finish, bind, get, lift, coord, on_canvas, on_redact_overlay,
    modify, ret.
  destruct (_redact_overlay s) as [o|]; [|reflexivity].
  destruct (mode o); [|reflexivity].
  destruct (current_item o) as [item|]; [|reflexivity].
  destruct (canvas_coords (pdf_canvas s) item) as [|x0 [|y0 [|x1 [|y1 rest]]]];
    cbn -[ltb Qabs Qminus]; try reflexivity.
  - destruct (ltb (Qabs (x1 - x0)) 5); reflexivity.
  - destruct (ltb (Qabs (x1 - x0)) 5); cbn -[ltb Qabs Qminus]; [reflexivity|].
    destruct (ltb (Qabs (y1 - y0)) 5); reflexivity.
Qed.

Lemma canvas_lookup_delete c item : canvas_lookup (canvas_delete item c) item = None.
Proof.
  unfold canvas_lookup, canvas_delete, canvas_filter. cbn.
  induction (canvas_items c) as [|p l IH]; cbn; [reflexivity|].
  destruct (fst p =? item)%Z eqn:E; cbn; [exact IH|].
  rewrite E. exact IH.
Qed.

(** C6: a drawn rectangle is appended to [_redactions_by_page] only if it is
    at least five pixels wide and high; one that is narrower or lower is
    deleted from the canvas and not stored; so every rectangle in the store
    of a reachable state is non-degenerate. *)
Theorem redaction_stored_only_if_nondegenerate :
  (forall e s,
      _redactions_by_page (fst (_redact_finish e s)) = _redactions_by_page s \/
      exists r,
        nondegenerate r /\
        _redactions_by_page (fst (_redact_finish e s)) =
          <[current_page s :=
              default [] (_redactions_by_page s !! current_page s) ++ [r]]>
            (_redactions_by_page s)) /\
  (forall e s o item x0 y0 x1 y1,
      _redact_overlay s = Some o -> mode o = draw ->
      current_item o = Some item ->
      canvas_coords (pdf_canvas s) item = [x0; y0; x1; y1] ->
      Qabs (x1 - x0) < 5 \/ Qabs (y1 - y0) < 5 ->
      _redactions_by_page (fst (_redact_finish e s)) = _redactions_by_page s /\
      canvas_lookup (pdf_canvas (fst (_redact_finish e s))) item = None) /\
  (forall doc s, reachable tk doc s -> redactions_ok (_redactions_by_page s)).
Proof.
  split; [|split].
  - intros e s. rewrite _redact_finish_store.
    destruct (_redact_overlay s) as [o|]; [|left; reflexivity].
    destruct (mode o); [|left; reflexivity].
    destruct (current_item o) as [item|]; [|left; reflexivity].
    destruct (canvas_coords (pdf_canvas s) item) as [|x0 [|y0 [|x1 [|y1 rest]]]];
      try (left; reflexivity).
    destruct (ltb (Qabs (x1 - x0)) 5) eqn:Ew; [left; reflexivity|].
    destruct (ltb (Qabs (y1 - y0)) 5) eqn:Eh; [left; reflexivity|].
    right. exists (x0, y0, x1, y1). split; [|reflexivity].
    split; apply ltb_false; assumption.
  - intros e s o item x0 y0 x1 y1 Ho Hm Hi Hc Hsmall. split.
    + rewrite _redact_finish_store, Ho, Hm, Hi, Hc.
      destruct Hsmall as [H|H]; apply ltb_true in H; rewrite H;
        rewrite ?orb_true_r; reflexivity.
    + unfold _redact_finish, bind, get, lift, coord, on_canvas,
        on_redact_overlay, modify, ret.
      rewrite Ho, Hm, Hi, Hc. cbn -[ltb Qabs Qminus canvas_lookup canvas_delete].
      destruct (ltb (Qabs (x1 - x0)) 5) eqn:Ew;
        cbn -[ltb Qabs Qminus canvas_lookup canvas_delete].
      * apply canvas_lookup_delete.
      * destruct Hsmall as [H|H]; apply ltb_true in H; [congruence|].
        rewrite H. cbn -[canvas_lookup canvas_delete].
        apply canvas_lookup_delete.
  - exact reachable_redactions_ok.
Qed.

(** ** The store of text annotations *)

Lemma lstrip_by_nil p s : lstrip_by p s = [] <-> forallb p s = true.
Proof.
  induction s as [|c s IH]; cbn; [tauto|].
  destruct (p c); cbn; [exact IH|]. split; discriminate.
Qed.

Lemma forallb_lstrip_by p s : forallb p (lstrip_by p s) = forallb p s.
Proof.
  induction s as [|c s IH]; cbn; [reflexivity|].
  destruct (p c) eqn:E; cbn; [exact IH|]. rewrite E. reflexivity.
Qed.

Lemma forallb_rev {A} (p : A -> bool) l : forallb p (rev l) = forallb p l.
Proof.
  induction l as [|a l IH]; cbn; [reflexivity|].
  rewrite forallb_app, IH. cbn. rewrite andb_true_r. apply andb_comm.
Qed.

Lemma strip_nil text : strip text = [] <-> forallb isspace text = true.
Proof.
  unfold strip, rstrip_by.
  rewrite <- (forallb_lstrip_by isspace text), <- (forallb_rev isspace (lstrip_by _ _)).
  rewrite <- lstrip_by_nil.
  split; intros H.
  - apply (f_equal (@rev N)) in H. rewrite rev_involutive in H. exact H.
  - rewrite H. reflexivity.
Qed.

(** The test of [save_text] is the property of the text. *)
Lemma truthy_strip text : truthy (strip text) = true <-> nonblank text.
Proof.
  split.
  - intros H. destruct (forallb isspace text) eqn:E.
    + apply strip_nil in E. rewrite E in H. discriminate.
    + assert (Hex : existsb (fun c => negb (isspace c)) text = true).
      { clear H. induction text as [|c t IH]; cbn in *; [discriminate|].
        destruct (isspace c); cbn in *; [auto|reflexivity]. }
      apply existsb_exists in Hex as (c & Hin & Hc).
      exists c. split; [exact Hin|]. apply negb_true_iff, Hc.
  - intros (c & Hin & Hc).
    destruct (strip text) eqn:E; [|reflexivity].
    apply strip_nil in E. rewrite forallb_forall in E.
    specialize (E c Hin). congruence.
Qed.

Lemma core_texts_ok {A} (m : M Viewer A) :
  preserves core m -> keeps (fun s => texts_ok (text_state s)) m.
Proof.
  intros H s Hs. pose proof (H s) as E.
  apply (f_equal (fun c => snd (fst c))) in E. cbn in E. rewrite E. exact Hs.
Qed.
Lemma beside_redactions_texts_ok {A} (m : M Viewer A) :
  preserves beside_redactions m -> keeps (fun s => texts_ok (text_state s)) m.
Proof.
  intros H s Hs. pose proof (H s) as E.
  apply (f_equal fst) in E. cbn in E. rewrite E. exact Hs.
Qed.
Lemma beside_thumbs_texts_ok {A} (m : M Viewer A) :
  preserves beside_thumbs m -> keeps (fun s => texts_ok (text_state s)) m.
Proof.
  intros H s Hs. pose proof (H s) as E.
  apply (f_equal (fun c => snd (fst c))) in E. cbn in E. rewrite E. exact Hs.
Qed.
Hint Resolve core_texts_ok beside_redactions_texts_ok
  beside_thumbs_texts_ok : keeps.

Lemma td_update_texts_ok td f :
  (forall d, td_text (f d) = td_text d) ->
  keeps (fun s => texts_ok (text_state s)) (td_update td f).
Proof.
  intros Hf s [Hheap Hrefs]. unfold td_update, modify. cbn.
  destruct (text_heap s !! td) as [d|] eqn:E; [|split; assumption].
  split; cbn.
  - intros td' d' Hl.
    destruct (decide (td = td')) as [<-|Hne].
    + rewrite list_lookup_insert_eq in Hl by (eapply lookup_lt_Some, E).
      injection Hl as <-. rewrite Hf. eauto.
    + rewrite list_lookup_insert_ne in Hl by assumption. eauto.
  - intros page tds td' Hp Hin. rewrite length_insert. eauto.
Qed.
Hint Resolve td_update_texts_ok : keeps.

Lemma texts_ok_insert store heap page tds :
  texts_ok (store, heap) ->
  (forall td, In td tds -> (td < length heap)%nat) ->
  texts_ok (<[page := tds]> store, heap).
Proof.
  intros [Hheap Hrefs] Htds. split; [exact Hheap|]. cbn in *.
  intros p l td Hp Hin.
  destruct (decide (page = p)) as [->|Hne].
  - rewrite lookup_insert_eq in Hp. injection Hp as <-. auto.
  - rewrite lookup_insert_ne in Hp by assumption. eauto.
Qed.

Lemma _delete_text_texts_ok item td :
  keeps (fun s => texts_ok (text_state s)) (_delete_text item td).
Proof.
  intros s Hs.
  unfold _delete_text, bind, on_canvas, modify, get, when, ret. cbn.
  destruct (_texts_by_page s !! current_page s) as [tds|] eqn:E; [|exact Hs].
  destruct (py_in _ td tds); [|exact Hs]. cbn.
  apply texts_ok_insert; [exact Hs|].
  intros td' Hin. apply py_remove_In in Hin.
  destruct Hs as [_ Hrefs]. eapply Hrefs; eassumption.
Qed.
Hint Resolve _delete_text_texts_ok : keeps.

Lemma save_text_texts_ok en text :
  keeps (fun s => texts_ok (text_state s)) (save_text en text).
Proof.
  intros s Hs.
  unfold save_text.
  destruct (truthy (strip text)) eqn:Etext.
  2: { apply (core_texts_ok _ (on_canvas_core _)), Hs. }
  apply truthy_strip in Etext.
  rewrite run_get. cbv beta zeta.
  set (page := current_page s).
  set (s1 := fst (when (negb (bool_decide (is_Some (_texts_by_page s !! page))))
                    (modify (set_texts_by_page (<[page := []]> (_texts_by_page s)))) s)).
  assert (Hs1 : texts_ok (text_state s1) /\ text_heap s1 = text_heap s).
  { subst s1. destruct (negb _); cbn; [|split; [exact Hs|reflexivity]].
    split; [|reflexivity].
    apply (texts_ok_insert _ _ _ _ Hs). intros td []. }
  rewrite run_seq with (s' := s1)
    by (subst s1; destruct (negb _); reflexivity).
  clearbody s1. destruct Hs1 as [Hs1 Hheap].
  rewrite run_var. destruct (_font_size s1) as [size|]; [|exact Hs1].
  rewrite run_var. destruct (_text_color s1) as [color|]; [|exact Hs1].
  rewrite !run_modify.
  match goal with
  | |- context [fst (bind ?m ?k ?s2)] =>
      assert (Htail : preserves core (bind m k)) by preserves_tac;
      apply (core_texts_ok _ Htail s2)
  end.
  destruct Hs1 as [Htexts Hrefs]. unfold text_state in *. cbn in *.
  rewrite <- Hheap. split; cbn.
  - intros td d Hl. apply lookup_app_Some in Hl as [Hl|[_ Hl]]; [eauto|].
    apply list_lookup_singleton_Some in Hl as [_ <-]. exact Etext.
  - intros p tds td Hp Hin. rewrite length_app. cbn.
    destruct (decide (page = p)) as [->|Hne].
    + rewrite lookup_insert_eq in Hp. injection Hp as <-.
      apply in_app_or in Hin as [Hin|[<-|[]]]; [|lia].
      destruct (_texts_by_page s1 !! p) eqn:E; cbn in Hin; [|tauto].
      specialize (Hrefs _ _ _ E Hin). lia.
    + rewrite lookup_insert_ne in Hp by assumption.
      specialize (Hrefs _ _ _ Hp Hin). lia.
Qed.
Hint Resolve save_text_texts_ok : keeps.

Lemma _apply_texts_ok : keeps (fun s => texts_ok (text_state s)) (_apply tk).
Proof. unfold _apply. keeps_tac. Qed.
Hint Resolve _apply_texts_ok : keeps.

Lemma traced_texts_ok w :
  (forall s, text_state (w s) = text_state s) ->
  keeps (fun s => texts_ok (text_state s)) (traced tk w).
Proof.
  intros Hw. unfold traced.
  apply keeps_bind; [|intros _; keeps_tac].
  apply keeps_modify. intros s Hs. rewrite Hw. exact Hs.
Qed.
Hint Resolve traced_texts_ok : keeps.

Lemma _select_text_texts_ok item td :
  keeps (fun s => texts_ok (text_state s)) (_select_text tk item td).
Proof. unfold _select_text. keeps_tac. Qed.
Hint Resolve _select_text_texts_ok : keeps.

Lemma _text_click_texts_ok e :
  keeps (fun s => texts_ok (text_state s)) (_text_click tk e).
Proof. unfold _text_click. keeps_tac. Qed.

Lemma _text_right_click_texts_ok e :
  keeps (fun s => texts_ok (text_state s)) (_text_right_click tk e).
Proof. unfold _text_right_click. keeps_tac. Qed.

Lemma _text_drag_drop_texts_ok e :
  keeps (fun s => texts_ok (text_state s)) (_text_drag_drop tk e).
Proof. unfold _text_drag_drop. keeps_tac. Qed.
Hint Resolve _text_click_texts_ok _text_right_click_texts_ok
  _text_drag_drop_texts_ok : keeps.

Lemma handle_texts_ok i :
  keeps (fun s => texts_ok (text_state s)) (handle tk i).
Proof. unfold handle. destruct i; keeps_tac. Qed.

Lemma reachable_texts_ok doc s :
  reachable tk doc s -> texts_ok (text_state s).
Proof.
  induction 1 as [|s i _ IH].
  - apply (beside_thumbs_texts_ok _ __init___beside_thumbs).
    split; cbn.
    + intros td d Hl. rewrite lookup_nil in Hl. discriminate.
    + intros page tds td Hp. rewrite lookup_empty in Hp. discriminate.
  - apply handle_texts_ok, IH.
Qed.

(** What [save_text] does to the store, read off its code. *)
Lemma save_text_store en text s :
  text_state (fst (save_text en text s)) =
  if truthy (strip text) then
    let page := current_page s in
    let store :=
      if bool_decide (is_Some (_texts_by_page s !! page)) then _texts_by_page s
      else <[page := []]> (_texts_by_page s) in
    match _font_size s, _text_color s with
    | Some size, Some color =>
        (<[page := default [] (store !! page) ++ [length (text_heap s)]]> store,
         text_heap s ++
           [{| td_x := inject_Z (entry_x en); td_y := inject_Z (entry_y en);
               td_text := text; td_font := entry_tk_family en;
               td_size := size; td_color := color; td_id := page |}])
    | _, _ => (store, text_heap s)
    end
  else text_state s.
Proof.
  unfold save_text.
  destruct (truthy (strip text)).
  2: { exact (f_equal (fun c => snd (fst c))
                (on_canvas_core (canvas_delete (entry_text_window en)) s)). }
  rewrite run_get. cbv beta zeta.
  set (page := current_page s).
  destruct (bool_decide (is_Some (_texts_by_page s !! page))); cbn [negb when].
  - rewrite run_ret, run_var.
    destruct (_font_size s) as [size|]; [|reflexivity].
    rewrite run_var.
    destruct (_text_color s) as [color|]; [|reflexivity].
    rewrite !run_modify.
    match goal with
    | |- context [fst (bind ?m ?k ?s2)] =>
        assert (Htail : preserves core (bind m k)) by preserves_tac;
        exact (f_equal (fun c => snd (fst c)) (Htail s2))
    end.
  - rewrite run_modify, run_var. cbn [_font_size set_texts_by_page].
    destruct (_font_size s) as [size|]; [|reflexivity].
    rewrite run_var. cbn [_text_color set_texts_by_page].
    destruct (_text_color s) as [color|]; [|reflexivity].
    rewrite !run_modify.
    match goal with
    | |- context [fst (bind ?m ?k ?s2)] =>
        assert (Htail : preserves core (bind m k)) by preserves_tac;
        exact (f_equal (fun c => snd (fst c)) (Htail s2))
    end.
Qed.

(** C7: [save_text] leaves the store alone when the text is empty or all
    whitespace; an annotation that is in the store after [save_text] and
    was not before holds the text entered, which is not blank; so every
    annotation in the store of a reachable state has a non-blank text. *)
Theorem text_stored_only_if_nonblank :
  (forall en text s,
      (forall c, In c text -> isspace c = true) ->
      text_state (fst (save_text en text s)) = text_state s) /\
  (forall en text s page tds td,
      let s' := fst (save_text en text s) in
      _texts_by_page s' !! page = Some tds -> In td tds ->
      (exists tds0, _texts_by_page s !! page = Some tds0 /\ In td tds0) \/
      (exists d, text_heap s' !! td = Some d /\ td_text d = text /\
                 nonblank text)) /\
  (forall doc s page tds td,
      reachable tk doc s ->
      _texts_by_page s !! page = Some tds -> In td tds ->
      exists d, text_heap s !! td = Some d /\ nonblank (td_text d)).
Proof.
  split; [|split].
  - intros en text s Hblank. rewrite save_text_store.
    destruct (truthy (strip text)) eqn:E; [|reflexivity].
    apply truthy_strip in E as (c & Hin & Hc).
    rewrite (Hblank c Hin) in Hc. discriminate.
  - intros en text s page tds td s' Hp Hin.
    pose proof (save_text_store en text s) as E. fold s' in E.
    unfold text_state in E.
    destruct (truthy (strip text)) eqn:Etext.
    2: { injection E as E1 E2. rewrite E1 in Hp. left. eauto. }
    apply truthy_strip in Etext. cbv zeta in E.
    set (cur := current_page s) in *.
    assert (Hstore : forall tds1,
               (if bool_decide (is_Some (_texts_by_page s !! cur))
                then _texts_by_page s else <[cur := []]> (_texts_by_page s))
                 !! page = Some tds1 ->
               In td tds1 ->
               exists tds0, _texts_by_page s !! page = Some tds0 /\ In td tds0).
    { intros tds1 H1 H2. destruct (bool_decide _); [eauto|].
      destruct (decide (cur = page)) as [->|Hne].
      - rewrite lookup_insert_eq in H1. injection H1 as <-. destruct H2.
      - rewrite lookup_insert_ne in H1 by assumption. eauto. }
    destruct (_font_size s) as [size|].
    2: { injection E as E1 E2. rewrite E1 in Hp. left. eauto. }
    destruct (_text_color s) as [color|].
    2: { injection E as E1 E2. rewrite E1 in Hp. left. eauto. }
    injection E as E1 E2. rewrite E1 in Hp.
    destruct (decide (cur = page)) as [->|Hne].
    + rewrite lookup_insert_eq in Hp. injection Hp as <-.
      apply in_app_or in Hin as [Hin|[<-|[]]].
      * left. destruct (_ !! page) as [tds1|] eqn:E3; cbn in Hin; [|tauto].
        eauto.
      * right. rewrite E2. eexists. split; [|split; [|exact Etext]].
        -- rewrite lookup_app_r by reflexivity.
           rewrite Nat.sub_diag. reflexivity.
        -- reflexivity.
    + rewrite lookup_insert_ne in Hp by assumption. left. eauto.
  - intros doc s page tds td Hreach Hp Hin.
    destruct (reachable_texts_ok doc s Hreach) as [Hheap Hrefs]. cbn in *.
    specialize (Hrefs _ _ _ Hp Hin).
    destruct (lookup_lt_is_Some_2 (text_heap s) td Hrefs) as [d Hd].
    exists d. split; [exact Hd|]. eauto.
Qed.

(** ** The thumbnail cache *)

Lemma od_get_keys {V} (d : list (Z * V)) k :
  (exists v, od_get d k = Some v) <-> In k (keys d).
Proof.
  unfold od_get, keys. induction d as [|[k' v'] d IH]; cbn.
  - split; [intros [v [=]]|tauto].
  - destruct (k' =? k)%Z eqn:E; cbn.
    + apply Z.eqb_eq in E. split; [auto|]. intros _. eauto.
    + apply Z.eqb_neq in E. rewrite IH. split; [auto|]. intros [H|H]; [congruence|auto].
Qed.

Lemma od_get_None {V} (d : list (Z * V)) k :
  od_get d k = None <-> ~ In k (keys d).
Proof.
  rewrite <- od_get_keys. destruct (od_get d k); split; intros H.
  - discriminate.
  - destruct H. eauto.
  - intros [v [=]].
  - reflexivity.
Qed.

Lemma keys_od_remove {V} (d : list (Z * V)) k :
  keys (od_remove k d) = List.filter (fun q => negb (q =? k)%Z) (keys d).
Proof.
  unfold keys, od_remove. induction d as [|[k' v'] d IH]; cbn; [reflexivity|].
  destruct (k' =? k)%Z; cbn; rewrite IH; reflexivity.
Qed.

Lemma evict_keys {V} cap (d : list (Z * V)) :
  (0 <= cap)%Z ->
  exists d', evict cap d = Ok d' /\ d' = lastn (Z.to_nat cap) d.
Proof.
  intros Hcap. unfold lastn. induction d as [|e d IH].
  - cbn. destruct (cap <? 0)%Z eqn:E; [apply Z.ltb_lt in E; lia|].
    eexists. split; reflexivity.
  - cbn [evict].
    destruct (cap <? Z.of_nat (length (e :: d)))%Z eqn:E.
    + apply Z.ltb_lt in E.
      destruct IH as (d' & -> & ->). eexists. split; [reflexivity|].
      cbn [length] in *.
      replace (S (length d) - Z.to_nat cap)%nat
        with (S (length d - Z.to_nat cap)) by lia.
      reflexivity.
    + apply Z.ltb_ge in E.
      eexists. split; [reflexivity|].
      cbn [length] in *.
      replace (S (length d) - Z.to_nat cap)%nat with 0%nat by lia.
      reflexivity.
Qed.

(** What [_ensure_thumb] does to the cache, read off its code. *)
Lemma _ensure_thumb_cache p s :
  (0 <= max_thumb_cache s)%Z ->
  thumb_state (fst (_ensure_thumb tk p s)) =
  (match od_get (thumbnail_cache s) p with
   | Some photo => od_remove p (thumbnail_cache s) ++ [(p, photo)]
   | None =>
       match doc_getitem (pdf_document s) p with
       | Ok page =>
           lastn (Z.to_nat (max_thumb_cache s))
             (thumbnail_cache s
              ++ [(p, thumb_photo tk page (_thumb_target_size s))])
       | Raise _ => thumbnail_cache s
       end
   end, max_thumb_cache s).
Proof.
  intros Hcap. unfold _ensure_thumb. rewrite run_get. cbv beta.
  rewrite run_tail by (intros photo; preserves_tac).
  destruct (od_get (thumbnail_cache s) p) as [photo|] eqn:Eget.
  - unfold move_to_end. rewrite Eget. reflexivity.
  - rewrite run_lift.
    destruct (doc_getitem (pdf_document s) p) as [page|e]; [|reflexivity].
    rewrite run_modify, run_get. cbv beta.
    cbn [thumbnail_cache max_thumb_cache set_thumbnail_cache].
    unfold od_setitem. rewrite Eget.
    destruct (evict_keys (max_thumb_cache s)
                (thumbnail_cache s ++ [(p, thumb_photo tk page (_thumb_target_size s))])
                Hcap) as (d' & -> & ->).
    reflexivity.
Qed.

Lemma _ensure_thumb_document p : preserves pdf_document (_ensure_thumb tk p).
Proof. unfold _ensure_thumb. preserves_tac. Qed.

Lemma filter_keeps_all (p : Z) l :
  ~ In p l -> List.filter (fun q => negb (q =? p)%Z) l = l.
Proof.
  induction l as [|a l IH]; cbn; [reflexivity|]. intros H.
  destruct (a =? p)%Z eqn:E.
  - apply Z.eqb_eq in E. tauto.
  - cbn. rewrite IH by tauto. reflexivity.
Qed.

Lemma filter_drops (p : Z) l :
  ~ In p (List.filter (fun q => negb (q =? p)%Z) l).
Proof.
  intros H. apply filter_In in H as [_ H].
  rewrite Z.eqb_refl in H. discriminate.
Qed.

Lemma NoDup_filter_one (p : Z) l :
  NoDup l -> In p l ->
  S (length (List.filter (fun q => negb (q =? p)%Z) l)) = length l.
Proof.
  induction 1 as [|a l Ha Hl IH]; cbn; [tauto|].
  rewrite list_elem_of_In in Ha. intros [->|Hin].
  - rewrite Z.eqb_refl. cbn. rewrite filter_keeps_all by assumption. reflexivity.
  - destruct (a =? p)%Z eqn:E.
    + apply Z.eqb_eq in E. subst. tauto.
    + cbn. rewrite IH by assumption. reflexivity.
Qed.

Lemma NoDup_list_filter {A} (f : A -> bool) l : NoDup l -> NoDup (List.filter f l).
Proof.
  induction 1 as [|a l Ha Hl IH]; cbn; [constructor|].
  destruct (f a); [|exact IH]. constructor; [|exact IH].
  rewrite list_elem_of_In in *. intros H. apply filter_In in H. tauto.
Qed.

Lemma NoDup_touch r p : NoDup r -> NoDup (touch r p).
Proof.
  intros H. unfold touch. apply NoDup_app. split; [|split].
  - apply NoDup_list_filter, H.
  - intros q Hq [<-|[]]%list_elem_of_In. apply list_elem_of_In in Hq.
    exact (filter_drops _ _ Hq).
  - apply NoDup_cons. split; [|constructor]. intros []%list_elem_of_In.
Qed.

Lemma NoDup_recency pages : NoDup (recency pages).
Proof.
  unfold recency.
  assert (H : forall r, NoDup r -> NoDup (fold_left touch pages r)).
  { induction pages as [|p pages IH]; cbn; [auto|].
    intros r Hr. apply IH, NoDup_touch, Hr. }
  apply H. constructor.
Qed.

Lemma lastn_all {A} n (l : list A) : (length l <= n)%nat -> lastn n l = l.
Proof. intros H. unfold lastn. replace (length l - n)%nat with 0%nat by lia. reflexivity. Qed.

Lemma lastn_app {A} n (l1 l2 : list A) : length l2 = n -> lastn n (l1 ++ l2) = l2.
Proof.
  intros H. unfold lastn. rewrite length_app.
  replace (length l1 + length l2 - n)%nat with (length l1) by lia.
  rewrite skipn_app, skipn_all, Nat.sub_diag. reflexivity.
Qed.

Lemma lru_tail_lastn cap r ks : lru_tail cap r ks -> ks = lastn cap r.
Proof.
  intros (r1 & -> & [->|Hfull] & Hle).
  - rewrite lastn_all by assumption. reflexivity.
  - rewrite lastn_app by assumption. reflexivity.
Qed.

Lemma lru_tail_hit cap r ks p :
  NoDup r -> In p ks -> lru_tail cap r ks ->
  lru_tail cap (touch r p) (touch ks p).
Proof.
  intros Hnd Hin (r1 & -> & Hr1 & Hle).
  apply NoDup_app in Hnd as (Hn1 & Hdisj & Hn2).
  assert (Hp : ~ In p r1).
  { intros H. apply (Hdisj p); apply list_elem_of_In; assumption. }
  assert (Hlen : length (touch ks p) = length ks).
  { unfold touch. rewrite length_app. cbn.
    pose proof (NoDup_filter_one p ks Hn2 Hin). lia. }
  exists r1. split; [|split].
  - unfold touch. rewrite List.filter_app, filter_keeps_all by assumption.
    rewrite <- app_assoc. reflexivity.
  - rewrite Hlen. exact Hr1.
  - rewrite Hlen. exact Hle.
Qed.

Lemma lru_tail_miss cap r ks p :
  ~ In p ks -> lru_tail cap r ks ->
  lru_tail cap (touch r p) (lastn cap (ks ++ [p])).
Proof.
  intros Hp (r1 & -> & Hr1 & Hle).
  unfold touch. rewrite List.filter_app, (filter_keeps_all p ks) by assumption.
  destruct (Nat.eq_dec (length ks) cap) as [Hfull|Hroom].
  - destruct ks as [|k0 ks].
    + cbn in Hfull. subst cap. exists (List.filter (fun q => negb (q =? p)%Z) r1 ++ [p]).
      cbn. split; [|split; [right; reflexivity|lia]].
      rewrite !app_nil_r. reflexivity.
    + exists (List.filter (fun q => negb (q =? p)%Z) r1 ++ [k0]).
      assert (E : lastn cap ((k0 :: ks) ++ [p]) = ks ++ [p]).
      { change ((k0 :: ks) ++ [p]) with ([k0] ++ (ks ++ [p])).
        apply lastn_app. rewrite length_app. cbn in *. lia. }
      rewrite E. split; [|split].
      * rewrite <- !app_assoc. reflexivity.
      * right. rewrite length_app. cbn in *. lia.
      * rewrite length_app. cbn in *. lia.
  - destruct Hr1 as [->|Hfull]; [|contradiction].
    rewrite lastn_all by (rewrite length_app; cbn; lia).
    exists []. cbn. split; [reflexivity|]. split; [left; reflexivity|].
    rewrite length_app. cbn. lia.
Qed.

Lemma keys_lastn {V} n (d : list (Z * V)) : keys (lastn n d) = lastn n (keys d).
Proof. unfold keys, lastn. rewrite length_map. symmetry. apply skipn_map. Qed.

Lemma keys_app {V} (d d' : list (Z * V)) : keys (d ++ d') = keys d ++ keys d'.
Proof. apply map_app. Qed.

(** One access keeps the cache the tail of the recency order. *)
Lemma _ensure_thumb_lru cap r p s :
  max_thumb_cache s = Z.of_nat cap ->
  (exists page, doc_getitem (pdf_document s) p = Ok page) ->
  NoDup r ->
  lru_tail cap r (keys (thumbnail_cache s)) ->
  lru_tail cap (touch r p) (keys (thumbnail_cache (fst (_ensure_thumb tk p s)))).
Proof.
  intros Hcap [page Hpage] Hr Htail.
  pose proof (_ensure_thumb_cache p s ltac:(lia)) as E.
  apply (f_equal fst) in E. cbn [fst thumb_state] in E. rewrite E.
  destruct (od_get (thumbnail_cache s) p) as [photo|] eqn:Eget.
  - rewrite keys_app, keys_od_remove. cbn [keys map fst].
    apply lru_tail_hit; [assumption| |assumption].
    apply od_get_keys. eauto.
  - rewrite Hpage, Hcap, Nat2Z.id, keys_lastn, keys_app. cbn [keys map fst].
    apply lru_tail_miss; [|assumption].
    apply od_get_None, Eget.
Qed.

Lemma ensure_thumbs_lru cap pages : forall r s,
  max_thumb_cache s = Z.of_nat cap ->
  (forall p, In p pages -> exists page, doc_getitem (pdf_document s) p = Ok page) ->
  NoDup r ->
  lru_tail cap r (keys (thumbnail_cache s)) ->
  lru_tail cap (fold_left touch pages r)
    (keys (thumbnail_cache (ensure_thumbs tk pages s))).
Proof.
  induction pages as [|p pages IH]; intros r s Hcap Hvalid Hr Htail; [exact Htail|].
  cbn [fold_left ensure_thumbs].
  pose proof (_ensure_thumb_cache p s ltac:(lia)) as E.
  apply (f_equal snd) in E. cbn [snd thumb_state] in E.
  apply IH.
  - rewrite E. exact Hcap.
  - intros q Hq. rewrite _ensure_thumb_document. apply Hvalid. right. exact Hq.
  - apply NoDup_touch, Hr.
  - apply _ensure_thumb_lru; [assumption| |assumption|assumption].
    apply Hvalid. left. reflexivity.
Qed.

Lemma od_get_length {V} (d : list (Z * V)) k v :
  od_get d k = Some v -> (length (od_remove k d) < length d)%nat.
Proof.
  unfold od_get, od_remove. induction d as [|[k' v'] d IH]; cbn; [discriminate|].
  destruct (k' =? k)%Z eqn:E; cbn.
  - intros _. pose proof (List.filter_length_le (fun p => negb (fst p =? k)%Z) d). lia.
  - intros H. specialize (IH H). lia.
Qed.

Lemma length_lastn {A} n (l : list A) : (length (lastn n l) <= n)%nat.
Proof. unfold lastn. rewrite length_skipn. lia. Qed.

Lemma _ensure_thumb_cache_ok p :
  keeps (fun s => cache_ok (thumb_state s)) (_ensure_thumb tk p).
Proof.
  intros s [Hmax Hlen]. cbn in Hmax, Hlen.
  rewrite _ensure_thumb_cache by lia. split; cbn [fst snd]; [exact Hmax|].
  destruct (od_get (thumbnail_cache s) p) as [photo|] eqn:Eget.
  - rewrite length_app. cbn. pose proof (od_get_length _ _ _ Eget). lia.
  - destruct (doc_getitem (pdf_document s) p); [|exact Hlen].
    rewrite Hmax. apply length_lastn.
Qed.
Hint Resolve _ensure_thumb_cache_ok : keeps.

Lemma core_cache_ok {A} (m : M Viewer A) :
  preserves core m -> keeps (fun s => cache_ok (thumb_state s)) m.
Proof.
  intros H s Hs. pose proof (H s) as E.
  apply (f_equal snd) in E. cbn in E. rewrite E. exact Hs.
Qed.
Lemma beside_redactions_cache_ok {A} (m : M Viewer A) :
  preserves beside_redactions m -> keeps (fun s => cache_ok (thumb_state s)) m.
Proof.
  intros H s Hs. pose proof (H s) as E.
  apply (f_equal snd) in E. cbn in E. rewrite E. exact Hs.
Qed.
Lemma beside_texts_cache_ok {A} (m : M Viewer A) :
  preserves beside_texts m -> keeps (fun s => cache_ok (thumb_state s)) m.
Proof.
  intros H s Hs. pose proof (H s) as E.
  apply (f_equal snd) in E. cbn in E. rewrite E. exact Hs.
Qed.
Hint Resolve core_cache_ok beside_redactions_cache_ok beside_texts_cache_ok : keeps.

Lemma _schedule_thumb_batch_cache_ok :
  keeps (fun s => cache_ok (thumb_state s)) (_schedule_thumb_batch tk).
Proof. unfold _schedule_thumb_batch. keeps_tac. Qed.
Hint Resolve _schedule_thumb_batch_cache_ok : keeps.

Lemma goto_page_cache_ok p :
  keeps (fun s => cache_ok (thumb_state s)) (goto_page tk p).
Proof. unfold goto_page. keeps_tac. Qed.
Hint Resolve goto_page_cache_ok : keeps.

Lemma next_page_cache_ok : keeps (fun s => cache_ok (thumb_state s)) (next_page tk).
Proof. unfold next_page. keeps_tac. Qed.

Lemma prev_page_cache_ok : keeps (fun s => cache_ok (thumb_state s)) (prev_page tk).
Proof. unfold prev_page. keeps_tac. Qed.
Hint Resolve next_page_cache_ok prev_page_cache_ok : keeps.

Lemma handle_cache_ok i : keeps (fun s => cache_ok (thumb_state s)) (handle tk i).
Proof. unfold handle, _wheel_to_pages. destruct i; keeps_tac. Qed.

Lemma reachable_cache_ok doc s : reachable tk doc s -> cache_ok (thumb_state s).
Proof.
  induction 1 as [|s i _ IH].
  - assert (H : keeps (fun s => cache_ok (thumb_state s)) (__init__ tk))
      by (unfold __init__; keeps_tac).
    apply H. split; cbn; [reflexivity|lia].
  - apply handle_cache_ok, IH.
Qed.

Lemma fold_touch_fresh pages : forall r,
  NoDup pages -> (forall p, In p pages -> ~ In p r) ->
  fold_left touch pages r = r ++ pages.
Proof.
  induction pages as [|p pages IH]; intros r Hnd Hfresh; cbn.
  - rewrite app_nil_r. reflexivity.
  - apply NoDup_cons in Hnd as [Hp Hnd]. rewrite list_elem_of_In in Hp.
    rewrite IH; [|assumption|].
    + unfold touch. rewrite filter_keeps_all by (apply Hfresh; left; reflexivity).
      rewrite <- app_assoc. reflexivity.
    + intros q Hq Hin. unfold touch in Hin. apply in_app_or in Hin as [Hin|[<-|[]]].
      * apply filter_In in Hin as [Hin _]. apply (Hfresh q); [right|]; assumption.
      * contradiction.
Qed.

(** C8: the thumbnail cache is least-recently-used with capacity 200.  An
    access to a cached page moves its entry to the most-recent end; a miss
    appends the new entry and drops entries from the least-recent end until
    at most 200 are left; so the cache always holds the 200 most recently
    accessed pages in the order of their last access, 201 distinct pages
    leave all but the first, and no reachable state holds more than 200
    entries. *)
Theorem thumbnail_cache_is_lru :
  (forall p s photo,
      max_thumb_cache s = 200%Z ->
      od_get (thumbnail_cache s) p = Some photo ->
      thumbnail_cache (fst (_ensure_thumb tk p s)) =
        od_remove p (thumbnail_cache s) ++ [(p, photo)]) /\
  (forall p s page,
      max_thumb_cache s = 200%Z ->
      od_get (thumbnail_cache s) p = None ->
      doc_getitem (pdf_document s) p = Ok page ->
      thumbnail_cache (fst (_ensure_thumb tk p s)) =
        lastn 200 (thumbnail_cache s
                   ++ [(p, thumb_photo tk page (_thumb_target_size s))])) /\
  (forall pages s,
      max_thumb_cache s = 200%Z ->
      thumbnail_cache s = [] ->
      (forall p, In p pages ->
                 exists page, doc_getitem (pdf_document s) p = Ok page) ->
      keys (thumbnail_cache (ensure_thumbs tk pages s)) =
        lastn 200 (recency pages)) /\
  (forall first rest s,
      max_thumb_cache s = 200%Z ->
      thumbnail_cache s = [] ->
      (forall p, In p (first :: rest) ->
                 exists page, doc_getitem (pdf_document s) p = Ok page) ->
      NoDup (first :: rest) -> length rest = 200%nat ->
      keys (thumbnail_cache (ensure_thumbs tk (first :: rest) s)) = rest) /\
  (forall doc s, reachable tk doc s -> (length (thumbnail_cache s) <= 200)%nat).
Proof.
  assert (trace : forall pages s,
             max_thumb_cache s = 200%Z ->
             thumbnail_cache s = [] ->
             (forall p, In p pages ->
                        exists page, doc_getitem (pdf_document s) p = Ok page) ->
             keys (thumbnail_cache (ensure_thumbs tk pages s)) =
               lastn 200 (recency pages)).
  { intros pages s Hmax Hempty Hvalid.
    apply lru_tail_lastn. apply ensure_thumbs_lru.
    - rewrite Hmax. reflexivity.
    - exact Hvalid.
    - constructor.
    - rewrite Hempty. exists []. cbn. split; [reflexivity|].
      split; [left; reflexivity|lia]. }
  repeat split.
  - intros p s photo Hmax Hget.
    pose proof (_ensure_thumb_cache p s ltac:(lia)) as E.
    apply (f_equal fst) in E. cbn [fst thumb_state] in E.
    rewrite E, Hget. reflexivity.
  - intros p s page Hmax Hget Hpage.
    pose proof (_ensure_thumb_cache p s ltac:(lia)) as E.
    apply (f_equal fst) in E. cbn [fst thumb_state] in E.
    rewrite E, Hget, Hpage, Hmax. reflexivity.
  - exact trace.
  - intros first rest s Hmax Hempty Hvalid Hnd Hlen.
    rewrite trace by assumption.
    unfold recency. rewrite fold_touch_fresh by (auto; intros p _ []).
    cbn [app]. change (first :: rest) with ([first] ++ rest).
    apply lastn_app, Hlen.
  - intros doc s Hreach. apply (reachable_cache_ok doc s Hreach).
Qed.

(** ** Export *)

(** The loop body over the redaction rectangles never re-renders: it leaves
    the viewer as it is and maps with the view that is current. *)
Lemma export_redaction_current_view page_idx out x0 y0 x1 y1 s :
  export_redaction page_idx out (x0, y0, x1, y1) s =
  (s, match _canvas_rect_to_pdf_rect s page_idx x0 y0 x1 y1 with
      | Ok rect => Ok (add_op page_idx (draw_rect rect) out)
      | Raise e => Raise e
      end).
Proof.
  unfold export_redaction, bind, call, ret.
  destruct (_canvas_rect_to_pdf_rect s page_idx x0 y0 x1 y1); reflexivity.
Qed.

(** C10: [_export_with_overlays] leaves [_redactions_by_page],
    [_texts_by_page] and the annotation dicts as they were, whether it
    returns or raises, and so does [do_save], which catches the exception
    and shows the error box. *)
Theorem export_preserves_overlays path s :
  overlay_state (fst (_export_with_overlays tk path s)) = overlay_state s /\
  overlay_state (fst (do_save tk path s)) = overlay_state s.
Proof.
  split.
  - exact (f_equal fst (_export_with_overlays_core path s)).
  - exact (f_equal fst (do_save_core path s)).
Qed.

(** ** The page photo *)

Ltac head_of t :=
  lazymatch t with
  | ?f _ => head_of f
  | _ => t
  end.

Ltac keeps_unfolding :=
  repeat first
    [ keeps_step
    | lazymatch goal with
      | |- keeps _ ?m => let h := head_of m in progress unfold h
      end ].

(** [__init__] assigns [_page_photo] and nothing deletes it: [hasattr] holds
    in every state of a session. *)
Lemma reachable_hasattr_page_photo doc s :
  reachable tk doc s -> hasattr (_page_photo s) = true.
Proof.
  induction 1 as [|s i _ IH].
  - assert (H : keeps (fun s => hasattr (_page_photo s) = true) (__init__ tk))
      by keeps_unfolding.
    apply H. reflexivity.
  - assert (H : keeps (fun s => hasattr (_page_photo s) = true) (handle tk i))
      by (unfold handle; destruct i; keeps_unfolding).
    apply H, IH.
Qed.

(** ** Zoom and navigation *)

Lemma display_page_zoom :
  preserves (fun s => (zoom s, min_zoom s, max_zoom s, fit_to_window s))
    (display_page tk).
Proof. apply preserves_keeps; intros ?; keeps_unfolding. Qed.

(** X6: for a step that is not negative and a zoom within
    [[min_zoom, max_zoom]], [zoom_in] and [zoom_out] leave the zoom within
    these bounds, never move it the wrong way, and switch fit-to-window
    off. *)
Theorem zoom_stays_in_bounds step s :
  0 <= step -> min_zoom s <= zoom s <= max_zoom s ->
  let up := fst (zoom_in tk step s) in
  let down := fst (zoom_out tk step s) in
  (min_zoom s <= zoom up <= max_zoom s /\ zoom s <= zoom up /\
   fit_to_window up = false) /\
  (min_zoom s <= zoom down <= max_zoom s /\ zoom down <= zoom s /\
   fit_to_window down = false).
Proof.
  intros Hstep Hzoom up down. subst up down.
  unfold zoom_in, zoom_out. rewrite !run_modify.
  split.
  - match goal with
    | |- context [display_page tk ?s2] =>
        pose proof (display_page_zoom s2) as E;
        set (s3 := fst (display_page tk s2)) in *
    end.
    injection E as E1 _ _ E2. rewrite E1, E2. cbn.
    repeat split; cmp; lra.
  - match goal with
    | |- context [display_page tk ?s2] =>
        pose proof (display_page_zoom s2) as E;
        set (s3 := fst (display_page tk s2)) in *
    end.
    injection E as E1 _ _ E2. rewrite E1, E2. cbn.
    repeat split; cmp; lra.
Qed.

Lemma keeps_for_fold_In {A B} I (l : list A) (body : B -> A -> M Viewer B) b :
  (forall b a, In a l -> keeps I (body b a)) -> keeps I (for_fold l body b).
Proof.
  revert b. induction l as [|a l IH]; intros b Hb; cbn.
  - intros s H. exact H.
  - intros s H. unfold bind.
    pose proof (Hb b a (or_introl eq_refl) s H) as Ha.
    destruct (body b a s) as [s' [b'|e]]; cbn in *; [|assumption].
    apply (IH b'); [|assumption]. intros b0 a0 Hin. apply Hb. right. exact Hin.
Qed.

Lemma keeps_for_each_In {A} I (l : list A) (body : A -> M Viewer unit) :
  (forall a, In a l -> keeps I (body a)) -> keeps I (for_each l body).
Proof.
  induction l as [|a l IH]; intros Hb; cbn.
  - intros s H. exact H.
  - intros s H. unfold bind.
    pose proof (Hb a (or_introl eq_refl) s H) as Ha.
    destruct (body a s) as [s' [[]|e]]; cbn in *; [|assumption].
    apply IH; [|assumption]. intros a0 Hin. apply Hb. right. exact Hin.
Qed.

Lemma In_range a b k : In k (range a b) <-> (a <= k < b)%Z.
Proof.
  unfold range. rewrite in_map_iff. split.
  - intros (n & <- & Hn). apply in_seq in Hn. lia.
  - intros H. exists (Z.to_nat (k - a)). split; [lia|]. apply in_seq. lia.
Qed.

(** Like [keeps_unfolding], but the guard of a [when] and the list a loop
    runs over stay known. *)
Ltac keeps_guarded :=
  repeat first
    [ lazymatch goal with
      | |- keeps _ (when _ _) => unfold when
      | |- keeps _ (for_fold _ _ _) => apply keeps_for_fold_In; intros ? ? ?
      | |- keeps _ (for_each _ _) => apply keeps_for_each_In; intros ? ?
      end
    | keeps_step
    | lazymatch goal with
      | |- keeps _ ?m => let h := head_of m in progress unfold h
      end ].

Ltac guards :=
  repeat match goal with
    | H : In _ (range _ _) |- _ => apply In_range in H; rewrite ?length_map in H
    | H : (_ && _)%bool = true |- _ => apply andb_true_iff in H as [? ?]
    | H : (_ <=? _)%Z = true |- _ => apply Z.leb_le in H
    | H : (_ <? _)%Z = true |- _ => apply Z.ltb_lt in H
    | H : _ /\ _ |- _ => destruct H
    | H : pdf_document _ = _ |- _ => rewrite H in *; clear H
    end.

Lemma handle_view_ok doc i : keeps (view_ok doc) (handle tk i).
Proof.
  unfold handle. destruct i; keeps_guarded.
  all: unfold view_ok in *; intros s' Hs'; cbn.
  all: guards; repeat split; try assumption; lia.
Qed.

Lemma reachable_view_ok doc s : doc <> [] -> reachable tk doc s -> view_ok doc s.
Proof.
  intros Hdoc. induction 1 as [|s i _ IH].
  - assert (H : keeps (view_ok doc) (__init__ tk)).
    { keeps_guarded.
      all: unfold view_ok in *; intros s' Hs'; cbn.
      all: guards; repeat split; try assumption; lia. }
    apply H. unfold view_ok. cbn. repeat split; [lia|].
    destruct doc; [contradiction|]. cbn. lia.
  - apply handle_view_ok, IH.
Qed.

(** X7: [goto_page] with a number that is no page of the document does
    nothing at all, and in a session on a document that is not empty
    [current_page] is a page of the document in every state, also after an
    export that raised half way. *)
Theorem current_page_stays_valid :
  (forall p s,
      (p < 0 \/ total_pages s <= p)%Z -> goto_page tk p s = (s, Ok tt)) /\
  (forall doc s,
      doc <> [] -> reachable tk doc s ->
      pdf_document s = doc /\ total_pages s = Z.of_nat (length doc) /\
      (0 <= current_page s < total_pages s)%Z).
Proof.
  split.
  - intros p s Hp. unfold goto_page. rewrite run_get.
    assert (E : ((0 <=? p) && (p <? total_pages s))%Z = false).
    { apply andb_false_iff. destruct Hp; [left; apply Z.leb_gt|right; apply Z.ltb_ge]; lia. }
    rewrite E. reflexivity.
  - intros doc s Hdoc Hreach.
    destruct (reachable_view_ok doc s Hdoc Hreach) as (H1 & H2 & H3).
    repeat split; try assumption; lia.
Qed.

(** ** Rendering never raises *)

Lemma for_each_returns {A} (P : Viewer -> Prop) (l : list A) body s :
  (forall a s, In a l -> P s -> snd (body a s) = Ok tt /\ P (fst (body a s))) ->
  P s -> snd (for_each l body s) = Ok tt /\ P (fst (for_each l body s)).
Proof.
  revert s. induction l as [|a l IH]; intros s Hb Hs; cbn.
  - split; [reflexivity|exact Hs].
  - unfold bind. destruct (Hb a s (or_introl eq_refl) Hs) as [E HP].
    destruct (body a s) as [s' r]. cbn in E, HP. subst r.
    apply IH; [|exact HP]. intros a0 s0 Hin. apply Hb. right. exact Hin.
Qed.

Lemma _restore_redactions_returns s : snd (_restore_redactions s) = Ok tt.
Proof.
  unfold _restore_redactions, on_canvas. rewrite run_modify. cbv beta.
  rewrite run_get. cbv beta.
  match goal with |- context [_ !! _] => destruct (_ !! _) as [rects|] end;
    [|reflexivity].
  apply (for_each_returns (fun _ => True)); [|exact I].
  intros [[[x0 y0] x1] y1] s0 _ _. split; [|exact I].
  unfold bind, canvas_new. destruct canvas_create. reflexivity.
Qed.

Lemma _render_text_returns td d s :
  text_heap s !! td = Some d ->
  exists item s', _render_text td s = (s', Ok item) /\ text_heap s' = text_heap s.
Proof.
  intros Hd. unfold _render_text, deref, bind, get, ret. rewrite Hd.
  unfold canvas_new. destruct canvas_create as [item c].
  eexists _, _. split; reflexivity.
Qed.

Lemma _restore_texts_returns s :
  (forall tds td,
      _texts_by_page s !! current_page s = Some tds -> In td tds ->
      (td < length (text_heap s))%nat) ->
  snd (_restore_texts s) = Ok tt.
Proof.
  intros Hvalid. unfold _restore_texts, on_canvas. rewrite run_modify. cbv beta.
  rewrite run_get. cbv beta.
  cbn [_texts_by_page current_page set_pdf_canvas].
  destruct (_texts_by_page s !! current_page s) as [tds|] eqn:E; [|reflexivity].
  apply (for_each_returns (fun s' => text_heap s' = text_heap s)); [|reflexivity].
  intros td s0 Hin Hheap.
  destruct (lookup_lt_is_Some_2 (text_heap s0) td) as [d Hd].
  { rewrite Hheap. eapply Hvalid; [reflexivity|exact Hin]. }
  destruct (_render_text_returns td d s0 Hd) as (item & s1 & E1 & E2).
  unfold bind. rewrite E1. cbn. split; [reflexivity|congruence].
Qed.

Lemma display_page_returns s page :
  doc_getitem (pdf_document s) (current_page s) = Ok page ->
  texts_ok (text_state s) ->
  snd (display_page tk s) = Ok tt.
Proof.
  intros Hpage [_ Hrefs]. cbn in Hrefs.
  unfold display_page. rewrite run_get, run_lift, Hpage.
  destruct (_ || _)%bool; [reflexivity|].
  match goal with
  | |- snd (bind ?A ?k s) = _ =>
      assert (EA : A s = (fst (A s), Ok tt) /\
                   core (fst (A s)) = core s /\
                   current_page (fst (A s)) = current_page s)
  end.
  { destruct (fit_to_window s).
    - destruct (thumbnail tk _ _) as [w h]. repeat split.
    - destruct (get_pixmap_size tk _ _) as [w h]. repeat split. }
  destruct EA as (EA & Ecore & Ecur).
  rewrite (run_seq _ _ _ _ EA).
  match goal with |- context [fst (?A s)] => set (s1 := fst (A s)) in * end.
  pose proof (_restore_redactions_returns s1) as ER.
  pose proof (_restore_redactions_core s1) as ERcore.
  assert (ERcur : current_page (fst (_restore_redactions s1)) = current_page s1).
  { assert (H : preserves current_page _restore_redactions)
      by (apply preserves_keeps; intros ?; keeps_unfolding).
    apply H. }
  destruct (_restore_redactions s1) as [s2 r] eqn:ERR. cbn in ER, ERcore, ERcur.
  subst r. rewrite (run_seq _ _ s1 s2 ERR).
  apply _restore_texts_returns.
  assert (Et : text_state s2 = text_state s).
  { apply (f_equal (fun c => snd (fst c))) in ERcore, Ecore. cbn in ERcore, Ecore.
    congruence. }
  injection Et as Et1 Et2. rewrite Et1, Et2, ERcur, Ecur.
  intros tds td. apply Hrefs.
Qed.

Lemma doc_getitem_valid doc i :
  (0 <= i < Z.of_nat (length doc))%Z -> exists page, doc_getitem doc i = Ok page.
Proof.
  intros Hi. unfold doc_getitem.
  destruct (Z.leb_spec (Z.of_nat (length doc)) i); [lia|].
  destruct (Z.ltb_spec i 0); [lia|].
  destruct (lookup_lt_is_Some_2 doc (Z.to_nat i)) as [page Hp]; [lia|].
  rewrite Hp. eauto.
Qed.

Lemma handle_buttons_ok doc i : keeps (buttons_ok doc) (handle tk i).
Proof.
  unfold handle. destruct i; keeps_unfolding.
  all: unfold buttons_ok in *; intros s' Hs'; cbn; rewrite length_insert; assumption.
Qed.

Lemma reachable_buttons_ok doc s : reachable tk doc s -> buttons_ok doc s.
Proof.
  induction 1 as [|s i _ IH].
  - assert (H : keeps (buttons_ok doc) (__init__ tk)).
    { keeps_unfolding.
      all: unfold buttons_ok in *; intros s' Hs'; cbn; rewrite length_insert;
        assumption. }
    apply H. unfold buttons_ok. cbn. apply length_map.
  - apply handle_buttons_ok, IH.
Qed.

Lemma _ensure_thumb_returns p s :
  (0 <= p < Z.of_nat (length (pdf_document s)))%Z ->
  length (_thumb_buttons s) = length (pdf_document s) ->
  (0 <= max_thumb_cache s)%Z ->
  snd (_ensure_thumb tk p s) = Ok tt.
Proof.
  intros Hp Hb Hcap.
  destruct (doc_getitem_valid _ _ Hp) as [page Hpage].
  assert (Hbtn : forall s', _thumb_buttons s' = _thumb_buttons s ->
                            exists b, getitem (_thumb_buttons s') p = Ok b).
  { intros s' ->. unfold getitem.
    destruct (Z.ltb_spec p 0); [lia|].
    destruct (Z.ltb_spec p 0); [lia|].
    destruct (lookup_lt_is_Some_2 (_thumb_buttons s) (Z.to_nat p)) as [b Hl]; [lia|].
    rewrite Hl. eauto. }
  unfold _ensure_thumb, bind, get, lift, modify, ret.
  destruct (od_get (thumbnail_cache s) p) as [photo|] eqn:Eget.
  - unfold move_to_end. rewrite Eget.
    match goal with
    | |- context [getitem (_thumb_buttons ?s') p] =>
        destruct (Hbtn s' eq_refl) as [b ->]
    end.
    reflexivity.
  - rewrite Hpage. cbn [thumbnail_cache max_thumb_cache set_thumbnail_cache].
    match goal with
    | |- context [evict ?c ?d] => destruct (evict_keys c d Hcap) as (d' & -> & _)
    end.
    match goal with
    | |- context [getitem (_thumb_buttons ?s') p] =>
        destruct (Hbtn s' eq_refl) as [b ->]
    end.
    reflexivity.
Qed.

Lemma _ensure_thumb_current_page p : preserves current_page (_ensure_thumb tk p).
Proof. apply preserves_keeps. intros ?. keeps_unfolding. Qed.

Lemma goto_page_returns doc p s :
  view_ok doc s -> buttons_ok doc s -> cache_ok (thumb_state s) ->
  texts_ok (text_state s) ->
  snd (goto_page tk p s) = Ok tt.
Proof.
  intros (Hdoc & Htot & Hcur) Hb [Hmax _] Ht. cbn in Hmax.
  unfold goto_page. rewrite run_get. cbv beta.
  destruct ((0 <=? p) && (p <? total_pages s))%Z eqn:G; [|reflexivity].
  apply andb_true_iff in G as [G1 G2].
  apply Z.leb_le in G1. apply Z.ltb_lt in G2.
  unfold when. rewrite run_modify. cbv beta.
  set (s1 := set_current_page p s).
  assert (Hp : (0 <= p < Z.of_nat (length (pdf_document s1)))%Z).
  { cbn. rewrite Hdoc. lia. }
  pose proof (_ensure_thumb_returns p s1 Hp) as E1.
  pose proof (_ensure_thumb_document p s1) as Ed.
  pose proof (_ensure_thumb_current_page p s1) as Ec.
  pose proof (_ensure_thumb_beside_thumbs p s1) as Eb.
  destruct (_ensure_thumb tk p s1) as [s2 r] eqn:E. cbn in E1, Ed, Ec, Eb.
  rewrite E1 in E.
  2:{ cbn. unfold buttons_ok in Hb. congruence. }
  2:{ cbn. lia. }
  rewrite (run_seq _ _ s1 s2 E).
  destruct (doc_getitem_valid _ _ Hp) as [page Hpage].
  apply display_page_returns with page.
  - rewrite Ed, Ec. exact Hpage.
  - apply (f_equal (fun c => snd (fst c))) in Eb. cbn in Eb.
    unfold text_state in *. injection Eb as -> ->. exact Ht.
Qed.

(** X8: in a session on a document that is not empty, rendering the page
    and turning pages return normally in every state: [display_page],
    [goto_page] with any number, [next_page] and [prev_page] raise
    nothing. *)
Theorem rendering_and_navigation_return doc s :
  doc <> [] -> reachable tk doc s ->
  snd (display_page tk s) = Ok tt /\
  (forall p, snd (goto_page tk p s) = Ok tt) /\
  snd (next_page tk s) = Ok tt /\
  snd (prev_page tk s) = Ok tt.
Proof.
  intros Hdoc Hreach.
  pose proof (reachable_view_ok doc s Hdoc Hreach) as Hv.
  pose proof (reachable_buttons_ok doc s Hreach) as Hb.
  pose proof (reachable_cache_ok doc s Hreach) as Hc.
  pose proof (reachable_texts_ok doc s Hreach) as Ht.
  assert (Hg : forall p, snd (goto_page tk p s) = Ok tt)
    by (intros p; exact (goto_page_returns doc p s Hv Hb Hc Ht)).
  repeat split.
  - destruct Hv as (Hd & Htot & Hcur).
    destruct (doc_getitem_valid (pdf_document s) (current_page s)) as [page Hpage].
    { rewrite Hd. exact Hcur. }
    exact (display_page_returns s page Hpage Ht).
  - exact Hg.
  - unfold next_page. rewrite run_get. cbv beta. unfold when.
    destruct (_ <? _)%Z; [apply Hg|reflexivity].
  - unfold prev_page. rewrite run_get. cbv beta. unfold when.
    destruct (_ <? _)%Z; [apply Hg|reflexivity].
Qed.

(** ** What an export returns *)

Lemma bind_Ok {A B} (m : M Viewer A) (k : A -> M Viewer B) s s' b :
  bind m k s = (s', Ok b) ->
  exists s1 a, m s = (s1, Ok a) /\ k a s1 = (s', Ok b).
Proof. unfold bind. destruct (m s) as [s1 [a|e]]; [eauto|discriminate]. Qed.

Lemma for_fold_Ok {A B} (J : Viewer -> B -> Prop) (l : list A)
    (body : B -> A -> M Viewer B) :
  (forall b a s s' b', In a l -> J s b -> body b a s = (s', Ok b') -> J s' b') ->
  forall b s s' b', J s b -> for_fold l body b s = (s', Ok b') -> J s' b'.
Proof.
  induction l as [|a l IH]; intros Hb b s s' b' HJ E; cbn in E.
  - injection E as <- <-. exact HJ.
  - apply bind_Ok in E as (s1 & b1 & E1 & E2).
    apply (IH (fun b a s s' b' Hin => Hb b a s s' b' (or_intror Hin)) b1 s1);
      [|exact E2].
    apply (Hb b a s s1 b1); [left; reflexivity|exact HJ|exact E1].
Qed.

Lemma add_op_pages page_idx op out :
  map out_page (add_op page_idx op out) = map out_page out.
Proof.
  unfold add_op. generalize (Z.to_nat page_idx) as i.
  induction out as [|p out IH]; intros [|i]; cbn; try reflexivity.
  f_equal. apply IH.
Qed.

Lemma display_page_current_page : preserves current_page (display_page tk).
Proof. apply preserves_keeps. intros ?. keeps_unfolding. Qed.

Lemma deref_Ok td s s' d : deref td s = (s', Ok d) -> s' = s.
Proof.
  unfold deref, bind, get, ret, raise. destruct (text_heap s !! td); congruence.
Qed.

Lemma export_text_Ok page_idx out td s s' out' :
  export_text tk page_idx out td s = (s', Ok out') ->
  current_page s' = current_page s /\ map out_page out' = map out_page out.
Proof.
  unfold export_text. rewrite run_get. cbv beta zeta. intros E.
  apply bind_Ok in E as (s1 & [] & E1 & E).
  apply bind_Ok in E as (s2 & d & E2 & E). apply deref_Ok in E2. subst s2.
  apply bind_Ok in E as (s2 & [pdf_x pdf_y] & E2 & E).
  unfold call in E2. injection E2 as <- E2.
  apply bind_Ok in E as (s2 & color & E3 & E).
  unfold lift in E3. injection E3 as <- E3.
  apply bind_Ok in E as (s2 & [] & E4 & E).
  unfold ret in E. injection E as <- <-.
  split.
  - rewrite (Z.eqb_sym (current_page s)) in E4.
    destruct (page_idx =? current_page s)%Z eqn:Epg;
      cbn [negb] in E1, E4; unfold when in E1, E4.
    + unfold ret in E1, E4. congruence.
    + rewrite run_modify in E4. cbv beta in E4.
      apply (f_equal fst) in E4. cbn [fst] in E4. rewrite <- E4.
      rewrite display_page_current_page. reflexivity.
  - repeat match goal with
      | |- context [match ?x with _ => _ end] => destruct x
      end; rewrite ?add_op_pages; reflexivity.
Qed.

Lemma export_redaction_Ok page_idx out r s s' out' :
  export_redaction page_idx out r s = (s', Ok out') ->
  s' = s /\ map out_page out' = map out_page out.
Proof.
  unfold export_redaction. destruct r as [[[x0 y0] x1] y1]. intros E.
  apply bind_Ok in E as (s1 & rect & E1 & E).
  unfold call in E1. injection E1 as <- E1.
  unfold ret in E. injection E as <- <-.
  split; [reflexivity|apply add_op_pages].
Qed.

(** X9: an export that returns has written the pages of the document, in
    their order and with their sizes, and has left the viewer on the page it
    was on; with no redaction and no text on any page the pages are written
    without any drawing on them and the viewer is not touched. *)
Theorem export_writes_the_pages path s :
  (forall out s',
      _export_with_overlays tk path s = (s', Ok out) ->
      map out_page out = pdf_document s /\ current_page s' = current_page s) /\
  ((forall p, default [] (_redactions_by_page s !! p) = [] /\
              default [] (_texts_by_page s !! p) = []) ->
   let blank := map (fun p => {| out_page := p; out_ops := [] |}) (pdf_document s) in
   _export_with_overlays tk path s =
   (s, match save_raises tk path blank with
       | Some e => Raise e
       | None => Ok blank
       end)).
Proof.
  split.
  - intros out s' E. unfold _export_with_overlays in E.
    rewrite run_get in E. cbv beta zeta in E.
    apply bind_Ok in E as (s1 & out1 & E1 & E).
    assert (J : current_page s1 = current_page s /\
                map out_page out1 = pdf_document s).
    { revert E1.
      apply (for_fold_Ok (fun s' out' => current_page s' = current_page s /\
                                         map out_page out' = pdf_document s)).
      - clear. intros out page_idx s0 s1 out1 _ [Hc Hp] E.
        rewrite run_get in E. cbv beta in E.
        apply bind_Ok in E as (s2 & out2 & E2 & E).
        rewrite run_get in E. cbv beta in E.
        assert (J2 : current_page s2 = current_page s /\
                     map out_page out2 = pdf_document s).
        { destruct (_redactions_by_page s0 !! page_idx) as [rects|].
          - revert E2.
            apply (for_fold_Ok (fun s' out' => current_page s' = current_page s /\
                                               map out_page out' = pdf_document s));
              [|split; assumption].
            intros b r sa sb b' _ [Hc' Hp'] Er.
            apply export_redaction_Ok in Er as [-> Er]. split; congruence.
          - unfold ret in E2. injection E2 as <- <-. split; assumption. }
        destruct (_texts_by_page s2 !! page_idx) as [tds|].
        + revert E.
          apply (for_fold_Ok (fun s' out' => current_page s' = current_page s /\
                                             map out_page out' = pdf_document s));
            [|exact J2].
          intros b td sa sb b' _ [Hc' Hp'] Et.
          apply export_text_Ok in Et as [Et1 Et2]. split; congruence.
        + unfold ret in E. injection E as <- <-. exact J2.
      - split; [reflexivity|]. rewrite map_map. cbn. apply map_id. }
    destruct (save_raises tk path out1); [discriminate|].
    unfold ret in E. injection E as <- <-. destruct J; split; assumption.
  - intros Hnone blank. unfold _export_with_overlays.
    rewrite run_get. cbv beta zeta. fold blank.
    assert (E : forall l out,
               for_fold l
                 (fun out page_idx =>
                    self <- get ;;
                    out <- match _redactions_by_page self !! page_idx with
                           | Some rects => for_fold rects (export_redaction page_idx) out
                           | None => ret out
                           end ;;
                    self <- get ;;
                    match _texts_by_page self !! page_idx with
                    | Some tds => for_fold tds (export_text tk page_idx) out
                    | None => ret out
                    end) out s = (s, Ok out)).
    { induction l as [|p l IH]; intros out; cbn; [reflexivity|].
      unfold bind at 1. rewrite run_get. cbv beta.
      destruct (Hnone p) as [Hr Ht].
      assert (E1 : match _redactions_by_page s !! p with
                   | Some rects => for_fold rects (export_redaction p) out
                   | None => ret out
                   end s = (s, Ok out)).
      { destruct (_redactions_by_page s !! p) as [rects|]; [|reflexivity].
        cbn in Hr. subst rects. reflexivity. }
      unfold bind at 1. rewrite E1. rewrite run_get. cbv beta.
      assert (E2 : match _texts_by_page s !! p with
                   | Some tds => for_fold tds (export_text tk p) out
                   | None => ret out
                   end s = (s, Ok out)).
      { destruct (_texts_by_page s !! p) as [tds|]; [|reflexivity].
        cbn in Ht. subst tds. reflexivity. }
      rewrite E2. apply IH. }
    unfold bind. rewrite E.
    destruct (save_raises tk path blank); reflexivity.
Qed.

(** ** Thumbnails are built in batches *)













Lemma handle_document doc i :
  keeps (fun s => pdf_document s = doc /\ total_pages s = Z.of_nat (length doc))
        (handle tk i).
Proof. unfold handle. destruct i; keeps_unfolding. Qed.

Lemma reachable_document doc s :
  reachable tk doc s ->
  pdf_document s = doc /\ total_pages s = Z.of_nat (length doc).
Proof.
  induction 1 as [|s i _ IH].
  - assert (H : keeps (fun s => pdf_document s = doc /\
                                total_pages s = Z.of_nat (length doc))
                      (__init__ tk)) by keeps_unfolding.
    apply H. split; reflexivity.
  - apply handle_document, IH.
Qed.




(** ** The canvas hands out fresh item ids *)

Lemma canvas_fresh_create k coords tags c :
  canvas_fresh c -> canvas_fresh (snd (canvas_create k coords tags c)).
Proof.
  unfold canvas_fresh, canvas_create. cbn. intros H.
  apply Forall_app. split.
  - eapply Forall_impl; [exact H|]. cbn. intros p Hp. lia.
  - repeat constructor. cbn. lia.
Qed.

Lemma canvas_fresh_filter keep c : canvas_fresh c -> canvas_fresh (canvas_filter keep c).
Proof.
  unfold canvas_fresh, canvas_filter. cbn. intros H.
  rewrite List.Forall_forall in *. intros p Hp. apply filter_In in Hp as [Hp _].
  apply H. exact Hp.
Qed.

Lemma canvas_fresh_set_coords id coords c :
  canvas_fresh c -> canvas_fresh (canvas_set_coords id coords c).
Proof.
  unfold canvas_fresh, canvas_set_coords. cbn. intros H.
  rewrite List.Forall_forall in *. intros p Hp. apply in_map_iff in Hp as (q & <- & Hq).
  specialize (H q Hq). destruct (fst q =? id)%Z; exact H.
Qed.

Lemma canvas_fresh_resize w h c : canvas_fresh c -> canvas_fresh (canvas_resize w h c).
Proof. intros H. exact H. Qed.

Lemma keeps_on_canvas (I : Canvas -> Prop) f :
  (forall c, I c -> I (f c)) -> keeps (fun s => I (pdf_canvas s)) (on_canvas f).
Proof. intros Hf s Hs. cbn. apply Hf, Hs. Qed.

Lemma keeps_canvas_new_fresh k coords tags :
  keeps (fun s => canvas_fresh (pdf_canvas s)) (canvas_new k coords tags).
Proof.
  intros s Hs. unfold canvas_new.
  pose proof (canvas_fresh_create k coords tags _ Hs) as H.
  destruct (canvas_create k coords tags (pdf_canvas s)) as [id c]. exact H.
Qed.

Ltac keeps_fresh :=
  repeat first
    [ lazymatch goal with
      | |- keeps _ (canvas_new _ _ _) => apply keeps_canvas_new_fresh
      | |- keeps _ (on_canvas _) =>
          apply keeps_on_canvas;
          first [ apply canvas_fresh_filter | apply canvas_fresh_set_coords
                | apply canvas_fresh_resize ]
      end
    | keeps_step
    | lazymatch goal with
      | |- keeps _ ?m => let h := head_of m in progress unfold h
      end ].

Lemma handle_canvas_fresh i :
  keeps (fun s => canvas_fresh (pdf_canvas s)) (handle tk i).
Proof. unfold handle. destruct i; keeps_fresh. Qed.

Lemma reachable_canvas_fresh doc s :
  reachable tk doc s -> canvas_fresh (pdf_canvas s).
Proof.
  induction 1 as [|s i _ IH].
  - assert (H : keeps (fun s => canvas_fresh (pdf_canvas s)) (__init__ tk))
      by keeps_fresh.
    apply H. constructor.
  - apply handle_canvas_fresh, IH.
Qed.

Lemma fresh_other_ids c :
  canvas_fresh c ->
  Forall (fun p => (fst p =? last_item c + 1)%Z = false) (canvas_items c).
Proof.
  unfold canvas_fresh. intros H. eapply Forall_impl; [exact H|].
  cbn. intros p Hp. apply Z.eqb_neq. lia.
Qed.

Lemma map_other_ids {A} id (h : Z * A -> Z * A) l :
  Forall (fun p => (fst p =? id)%Z = false) l ->
  map (fun p => if (fst p =? id)%Z then h p else p) l = l.
Proof.
  induction 1 as [|p l Hp _ IH]; cbn; [reflexivity|]. rewrite Hp, IH. reflexivity.
Qed.

Lemma filter_other_ids {A} id (l : list (Z * A)) :
  Forall (fun p => (fst p =? id)%Z = false) l ->
  List.filter (fun p => negb (fst p =? id)%Z) l = l.
Proof.
  induction 1 as [|p l Hp _ IH]; cbn; [reflexivity|]. rewrite Hp, IH. reflexivity.
Qed.

Lemma find_other_ids {A} id (l : list (Z * A)) :
  Forall (fun p => (fst p =? id)%Z = false) l ->
  List.find (fun p => (fst p =? id)%Z) l = None.
Proof.
  induction 1 as [|p l Hp _ IH]; cbn; [reflexivity|]. rewrite Hp, IH. reflexivity.
Qed.

Lemma find_app_None {A} (f : A -> bool) l l' :
  List.find f l = None -> List.find f (l ++ l') = List.find f l'.
Proof.
  induction l as [|a l IH]; cbn; [reflexivity|].
  destruct (f a); [discriminate|exact IH].
Qed.

(** A rectangle that was just created, after its corners were set. *)
Lemma canvas_drawn c coords tags coords' :
  canvas_fresh c ->
  let id := (last_item c + 1)%Z in
  let c1 := snd (canvas_create rectangle_item coords tags c) in
  let c2 := canvas_set_coords id coords' c1 in
  fst (canvas_create rectangle_item coords tags c) = id /\
  canvas_coords c1 id = tk_order coords /\
  canvas_coords c2 id = tk_order coords' /\
  canvas_items c2 =
    canvas_items c ++
      [(id, {| item_kind := rectangle_item; item_coords := tk_order coords';
               item_tags := tags |})] /\
  canvas_items (canvas_delete id c2) = canvas_items c /\
  canvas_items (canvas_delete id c1) = canvas_items c.
Proof.
  intros Hfresh id c1 c2. pose proof (fresh_other_ids c Hfresh) as Hother.
  fold id in Hother.
  assert (E2 : canvas_items c2 =
    canvas_items c ++
      [(id, {| item_kind := rectangle_item; item_coords := tk_order coords';
               item_tags := tags |})]).
  { subst c2 c1. unfold canvas_set_coords, canvas_create. cbn. fold id.
    rewrite map_app, (map_other_ids id _ _ Hother). cbn.
    rewrite Z.eqb_refl. reflexivity. }
  assert (E1 : canvas_items c1 =
    canvas_items c ++
      [(id, {| item_kind := rectangle_item; item_coords := tk_order coords;
               item_tags := tags |})]) by reflexivity.
  split; [reflexivity|].
  split; [|split; [|split; [exact E2|split]]].
  - unfold canvas_coords, canvas_lookup. rewrite E1.
    rewrite find_app_None by exact (find_other_ids id _ Hother).
    cbn. rewrite Z.eqb_refl. reflexivity.
  - unfold canvas_coords, canvas_lookup. rewrite E2.
    rewrite find_app_None by exact (find_other_ids id _ Hother).
    cbn. rewrite Z.eqb_refl. reflexivity.
  - unfold canvas_delete, canvas_filter. cbn [canvas_items]. rewrite E2.
    rewrite List.filter_app, (filter_other_ids id _ Hother). cbn.
    rewrite Z.eqb_refl. cbn. apply app_nil_r.
  - unfold canvas_delete, canvas_filter. cbn [canvas_items]. rewrite E1.
    rewrite List.filter_app, (filter_other_ids id _ Hother). cbn.
    rewrite Z.eqb_refl. cbn. apply app_nil_r.
Qed.

Lemma gtb_irrefl a : gtb a a = false.
Proof. unfold gtb. apply ltb_false. lra. Qed.

Lemma tk_order_point x y : tk_order [x; y; x; y] = [x; y; x; y].
Proof. unfold tk_order. rewrite !gtb_irrefl. reflexivity. Qed.

Lemma tk_order_box a b c d :
  tk_order [Py.min a b; Py.min c d; Py.max a b; Py.max c d] =
  [Py.min a b; Py.min c d; Py.max a b; Py.max c d].
Proof.
  unfold tk_order.
  assert (H : forall u v, gtb (Py.min u v) (Py.max u v) = false).
  { intros u v. unfold gtb. apply ltb_false.
    pose proof (min_le_l u v). pose proof (max_ge_l u v). lra. }
  rewrite !H. reflexivity.
Qed.

Lemma span_abs a b : Qabs (Py.max a b - Py.min a b) == Qabs (b - a).
Proof.
  cmp; try lra.
  all: apply (Qabs_case (b - a)); intros;
    match goal with
    | |- Qabs ?x == _ => apply (Qabs_case x); intros; lra
    end.
Qed.

(** ** The redaction tool is there while its bindings are *)

Lemma action_redact_tool : keeps redact_tool_ok action_redact.
Proof. intros s _ _. split; [discriminate|reflexivity]. Qed.

Lemma deactivate_current_tool_tool : keeps redact_tool_ok deactivate_current_tool.
Proof. intros s _ H. discriminate H. Qed.

Lemma on_redact_overlay_tool f : keeps redact_tool_ok (on_redact_overlay f).
Proof.
  intros s H Hb. destruct (H Hb) as [Ho Hk]. cbn. split; [|exact Hk].
  destruct (_redact_overlay s); [discriminate|contradiction].
Qed.

Ltac keeps_tool :=
  repeat first
    [ lazymatch goal with
      | |- keeps _ action_redact => exact action_redact_tool
      | |- keeps _ deactivate_current_tool => exact deactivate_current_tool_tool
      | |- keeps _ (on_redact_overlay _) => apply on_redact_overlay_tool
      end
    | keeps_step
    | lazymatch goal with
      | |- keeps _ ?m => let h := head_of m in progress unfold h
      end ].

Lemma handle_redact_tool_ok i : keeps redact_tool_ok (handle tk i).
Proof.
  unfold handle. destruct i; keeps_tool.
  all: intros s' Hs' Hb'; try discriminate Hb'; exact (Hs' Hb').
Qed.

Lemma reachable_redact_tool_ok doc s : reachable tk doc s -> redact_tool_ok s.
Proof.
  induction 1 as [|s i _ IH].
  - assert (H : keeps (fun s => canvas_bindings s = tool_none) (__init__ tk))
      by keeps_unfolding.
    intros Hb. rewrite (H (new_viewer doc) eq_refl) in Hb. discriminate Hb.
  - apply handle_redact_tool_ok, IH.
Qed.

(** ** A draw gesture *)

Lemma _redact_start_beside e : preserves beside_gesture (_redact_start tk e).
Proof. apply preserves_keeps. intros ?. keeps_unfolding. Qed.
Lemma _redact_drag_beside e : preserves beside_gesture (_redact_drag e).
Proof. apply preserves_keeps. intros ?. keeps_unfolding. Qed.
Lemma _redact_finish_beside e : preserves beside_gesture (_redact_finish e).
Proof. apply preserves_keeps. intros ?. keeps_unfolding. Qed.

(** The press on a free spot. *)
Lemma _redact_start_draws e o s :
  _redact_overlay s = Some o ->
  first_tagged (pdf_canvas s) tag_redact_overlay
    (find_overlapping tk (pdf_canvas s) (ex e) (ey e) (ex e) (ey e)) = None ->
  let s1 := fst (_redact_start tk e s) in
  _redact_overlay s1 =
    Some {| start_x := Some (ex e); start_y := Some (ey e);
            current_item := Some (last_item (pdf_canvas s) + 1)%Z;
            mode := draw; offset := offset o |} /\
  pdf_canvas s1 =
    snd (canvas_create rectangle_item [ex e; ey e; ex e; ey e]
           [tag_redact_overlay] (pdf_canvas s)) /\
  _redactions_by_page s1 = _redactions_by_page s.
Proof.
  intros Ho Hf. unfold _redact_start, bind, get, on_redact_overlay, modify,
    canvas_new, ret.
  rewrite Ho, Hf. cbn. rewrite Ho. repeat split.
Qed.

(** The pointer moves while a rectangle is drawn. *)
Lemma _redact_drag_draws e o item x1 y1 s :
  _redact_overlay s = Some o -> current_item o = Some item -> mode o = draw ->
  start_x o = Some x1 -> start_y o = Some y1 ->
  let s2 := fst (_redact_drag e s) in
  _redact_overlay s2 = Some o /\
  pdf_canvas s2 =
    canvas_set_coords item
      [Py.min x1 (ex e); Py.min y1 (ey e); Py.max x1 (ex e); Py.max y1 (ey e)]
      (pdf_canvas s) /\
  _redactions_by_page s2 = _redactions_by_page s.
Proof.
  intros Ho Hi Hm Hx Hy. unfold _redact_drag, bind, get, on_canvas, modify.
  rewrite Ho, Hi, Hm, Hx, Hy. cbn -[Py.min Py.max]. repeat split. exact Ho.
Qed.

(** What [_redact_finish] does to the canvas, read off its code. *)
Lemma _redact_finish_canvas e o item x0 y0 x1 y1 s :
  _redact_overlay s = Some o -> mode o = draw -> current_item o = Some item ->
  canvas_coords (pdf_canvas s) item = [x0; y0; x1; y1] ->
  pdf_canvas (fst (_redact_finish e s)) =
  if ltb (Qabs (x1 - x0)) 5 || ltb (Qabs (y1 - y0)) 5
  then canvas_delete item (pdf_canvas s) else pdf_canvas s.
Proof.
  intros Ho Hm Hi Hc.
  unfold _redact_finish, bind, get, lift, coord, on_canvas, on_redact_overlay,
    modify, ret.
  rewrite Ho, Hm, Hi, Hc. cbn -[ltb Qabs Qminus canvas_delete].
  destruct (ltb (Qabs (x1 - x0)) 5); cbn -[ltb Qabs Qminus canvas_delete];
    [reflexivity|].
  destruct (ltb (Qabs (y1 - y0)) 5); reflexivity.
Qed.

Lemma handle_redact_tool e s :
  canvas_bindings s = tool_redact ->
  handle tk (Button1 e) s = _redact_start tk e s /\
  handle tk (Motion e) s = _redact_drag e s /\
  handle tk (Release e) s = _redact_finish e s.
Proof.
  intros Hb. unfold handle. rewrite !run_get. cbv beta iota. rewrite Hb.
  repeat split.
Qed.

(** What [_redact_finish] does to the dict of the gesture, read off its
    code. *)
Lemma _redact_finish_overlay e o item x0 y0 x1 y1 s :
  _redact_overlay s = Some o -> mode o = draw -> current_item o = Some item ->
  canvas_coords (pdf_canvas s) item = [x0; y0; x1; y1] ->
  _redact_overlay (fst (_redact_finish e s)) =
  Some {| start_x := None; start_y := None;
          current_item :=
            if ltb (Qabs (x1 - x0)) 5 || ltb (Qabs (y1 - y0)) 5 then None
            else Some item;
          mode := draw; offset := offset o |}.
Proof.
  intros Ho Hm Hi Hc.
  unfold _redact_finish, bind, get, lift, coord, on_canvas, on_redact_overlay,
    modify, ret.
  rewrite Ho, Hm, Hi, Hc. cbn -[ltb Qabs Qminus canvas_delete].
  destruct (ltb (Qabs (x1 - x0)) 5); cbn -[ltb Qabs Qminus canvas_delete].
  - rewrite Ho. reflexivity.
  - destruct (ltb (Qabs (y1 - y0)) 5); cbn -[ltb Qabs Qminus canvas_delete];
      rewrite Ho; unfold with_mode, with_start, with_current_item; cbn;
      rewrite ?Hi; reflexivity.
Qed.

(** The state after a press on a free spot, a move and the release. *)
Lemma draw_gesture doc s e0 e1 e2 o :
  reachable tk doc s ->
  canvas_bindings s = tool_redact ->
  _redact_overlay s = Some o ->
  first_tagged (pdf_canvas s) tag_redact_overlay
    (find_overlapping tk (pdf_canvas s) (ex e0) (ey e0) (ex e0) (ey e0)) = None ->
  let s' := run tk s [Button1 e0; Motion e1; Release e2] in
  let corners := [Py.min (ex e0) (ex e1); Py.min (ey e0) (ey e1);
                  Py.max (ex e0) (ex e1); Py.max (ey e0) (ey e1)] in
  let box := (Py.min (ex e0) (ex e1), Py.min (ey e0) (ey e1),
              Py.max (ex e0) (ex e1), Py.max (ey e0) (ey e1)) in
  let item := (last_item (pdf_canvas s) + 1)%Z in
  let drawn :=
    canvas_set_coords item corners
      (snd (canvas_create rectangle_item [ex e0; ey e0; ex e0; ey e0]
              [tag_redact_overlay] (pdf_canvas s))) in
  exists small : bool,
    (small = true <-> Qabs (ex e1 - ex e0) < 5 \/ Qabs (ey e1 - ey e0) < 5) /\
    beside_gesture s' = beside_gesture s /\
    _redact_overlay s' =
      Some {| start_x := None; start_y := None;
              current_item := if small then None else Some item;
              mode := draw; offset := offset o |} /\
    pdf_canvas s' = (if small then canvas_delete item drawn else drawn) /\
    _redactions_by_page s' =
      (if small then _redactions_by_page s
       else <[current_page s :=
                default [] (_redactions_by_page s !! current_page s) ++ [box]]>
              (_redactions_by_page s)).
Proof.
  intros Hreach Hb Ho Hfree.
  pose proof (reachable_canvas_fresh doc s Hreach) as Hfresh.
  cbv zeta. unfold run. cbn [fold_left]. unfold step.
  destruct (handle_redact_tool e0 s Hb) as (-> & _ & _).
  destruct (_redact_start_draws e0 o s Ho Hfree) as (Ho1 & Hc1 & Hr1).
  pose proof (_redact_start_beside e0 s) as Hg1.
  set (s1 := fst (_redact_start tk e0 s)) in *.
  assert (Hb1 : canvas_bindings s1 = tool_redact)
    by (injection Hg1 as _ Hb1; congruence).
  destruct (handle_redact_tool e1 s1 Hb1) as (_ & -> & _).
  destruct (_redact_drag_draws e1 _ _ (ex e0) (ey e0) s1 Ho1 eq_refl eq_refl
              eq_refl eq_refl) as (Ho2 & Hc2 & Hr2).
  pose proof (_redact_drag_beside e1 s1) as Hg2.
  set (s2 := fst (_redact_drag e1 s1)) in *.
  assert (Hb2 : canvas_bindings s2 = tool_redact)
    by (injection Hg2 as _ Hb2; congruence).
  destruct (handle_redact_tool e2 s2 Hb2) as (_ & _ & ->).
  destruct (canvas_drawn (pdf_canvas s) [ex e0; ey e0; ex e0; ey e0]
              [tag_redact_overlay]
              [Py.min (ex e0) (ex e1); Py.min (ey e0) (ey e1);
               Py.max (ex e0) (ex e1); Py.max (ey e0) (ey e1)] Hfresh)
    as (_ & _ & Hcoords & _).
  rewrite tk_order_box in Hcoords. rewrite <- Hc1 in Hcoords.
  rewrite <- Hc1. rewrite <- Hc2 in Hcoords |- *.
  pose proof (_redact_finish_store e2 s2) as Hstore.
  rewrite Ho2 in Hstore. cbn [mode current_item] in Hstore.
  rewrite Hcoords in Hstore.
  pose proof (_redact_finish_canvas e2 _ _ _ _ _ _ s2 Ho2 eq_refl eq_refl Hcoords)
    as Hcanvas.
  pose proof (_redact_finish_overlay e2 _ _ _ _ _ _ s2 Ho2 eq_refl eq_refl Hcoords)
    as Hover.
  pose proof (_redact_finish_beside e2 s2) as Hg3.
  assert (Hp : current_page s2 = current_page s).
  { injection Hg1 as Hp1 _. injection Hg2 as Hp2 _. congruence. }
  rewrite Hr2, Hr1, Hp in Hstore.
  exists (ltb (Qabs (Py.max (ex e0) (ex e1) - Py.min (ex e0) (ex e1))) 5
          || ltb (Qabs (Py.max (ey e0) (ey e1) - Py.min (ey e0) (ey e1))) 5).
  split; [|split; [congruence|split; [exact Hover|split; [exact Hcanvas|]]]].
  - rewrite orb_true_iff, !ltb_true, !span_abs. reflexivity.
  - rewrite Hstore. destruct (_ || _)%bool; reflexivity.
Qed.

(** X11: a rectangle drawn with the redaction tool.  Pressing on a spot
    that is free of redactions, moving the pointer and releasing stores the
    box spanned by the point of the press and the point the pointer was
    moved to, corners in order, on the current page and shows it, if the two
    points are at least five pixels apart in both directions; otherwise the
    gesture leaves the store and the canvas as they were.  Where the button
    is released plays no role. *)
Theorem draw_gesture_stores_the_box doc s e0 e1 e2 :
  reachable tk doc s ->
  canvas_bindings s = tool_redact ->
  first_tagged (pdf_canvas s) tag_redact_overlay
    (find_overlapping tk (pdf_canvas s) (ex e0) (ey e0) (ex e0) (ey e0)) = None ->
  let s' := run tk s [Button1 e0; Motion e1; Release e2] in
  let box := (Py.min (ex e0) (ex e1), Py.min (ey e0) (ey e1),
              Py.max (ex e0) (ex e1), Py.max (ey e0) (ey e1)) in
  (Qabs (ex e1 - ex e0) < 5 \/ Qabs (ey e1 - ey e0) < 5 ->
   _redactions_by_page s' = _redactions_by_page s /\
   canvas_items (pdf_canvas s') = canvas_items (pdf_canvas s)) /\
  (5 <= Qabs (ex e1 - ex e0) -> 5 <= Qabs (ey e1 - ey e0) ->
   _redactions_by_page s' =
     <[current_page s :=
         default [] (_redactions_by_page s !! current_page s) ++ [box]]>
       (_redactions_by_page s) /\
   canvas_items (pdf_canvas s') =
     canvas_items (pdf_canvas s) ++
       [((last_item (pdf_canvas s) + 1)%Z,
         {| item_kind := rectangle_item;
            item_coords := [Py.min (ex e0) (ex e1); Py.min (ey e0) (ey e1);
                            Py.max (ex e0) (ex e1); Py.max (ey e0) (ey e1)];
            item_tags := [tag_redact_overlay] |})]).
Proof.
  intros Hreach Hb Hfree.
  pose proof (reachable_canvas_fresh doc s Hreach) as Hfresh.
  destruct (_redact_overlay s) as [o|] eqn:Ho;
    [|exfalso; exact (proj1 (reachable_redact_tool_ok doc s Hreach Hb) Ho)].
  destruct (draw_gesture doc s e0 e1 e2 o Hreach Hb Ho Hfree)
    as (small & Hsmall & _ & _ & Hcanvas & Hstore).
  destruct (canvas_drawn (pdf_canvas s) [ex e0; ey e0; ex e0; ey e0]
              [tag_redact_overlay]
              [Py.min (ex e0) (ex e1); Py.min (ey e0) (ey e1);
               Py.max (ex e0) (ex e1); Py.max (ey e0) (ey e1)] Hfresh)
    as (_ & _ & _ & Hitems & Hdel & _).
  rewrite tk_order_box in Hitems.
  cbv zeta. rewrite Hstore, Hcanvas. split.
  - intros H. apply Hsmall in H. subst small. split; [reflexivity|exact Hdel].
  - intros Hw Hh. destruct small.
    + destruct (proj1 Hsmall eq_refl); lra.
    + split; [reflexivity|exact Hitems].
Qed.

(** ** A move gesture *)

Lemma canvas_lookup_set_coords id cs c :
  canvas_lookup (canvas_set_coords id cs c) id =
  (fun it => {| item_kind := item_kind it;
                item_coords := place_coords (item_kind it) cs;
                item_tags := item_tags it |}) <$> canvas_lookup c id.
Proof.
  unfold canvas_lookup, canvas_set_coords. cbn.
  induction (canvas_items c) as [|p l IH]; cbn; [reflexivity|].
  destruct (fst p =? id)%Z eqn:E; cbn; rewrite E; [reflexivity|exact IH].
Qed.

Lemma tk_order_shifted x y w h :
  0 <= w -> 0 <= h -> tk_order [x; y; x + w; y + h] = [x; y; x + w; y + h].
Proof.
  intros Hw Hh. unfold tk_order.
  assert (E1 : gtb y (y + h) = false) by (apply ltb_false; lra).
  assert (E2 : gtb x (x + w) = false) by (apply ltb_false; lra).
  rewrite E1, E2. reflexivity.
Qed.

(** The press on a redaction. *)
Lemma _redact_start_grabs e o item a b rest s :
  _redact_overlay s = Some o ->
  first_tagged (pdf_canvas s) tag_redact_overlay
    (find_overlapping tk (pdf_canvas s) (ex e) (ey e) (ex e) (ey e)) = Some item ->
  canvas_coords (pdf_canvas s) item = a :: b :: rest ->
  let s1 := fst (_redact_start tk e s) in
  _redact_overlay s1 =
    Some {| start_x := start_x o; start_y := start_y o;
            current_item := Some item; mode := move;
            offset := Some (ex e - a, ey e - b) |} /\
  pdf_canvas s1 = pdf_canvas s.
Proof.
  intros Ho Hf Hc. unfold _redact_start, bind, get, on_redact_overlay, modify,
    lift, coord, ret.
  rewrite Ho, Hf, Hc. cbn -[Qminus]. rewrite Ho. split; reflexivity.
Qed.

(** The pointer moves while a redaction is held. *)
Lemma _redact_drag_moves e o item ox oy a b c d s :
  _redact_overlay s = Some o -> current_item o = Some item -> mode o = move ->
  offset o = Some (ox, oy) ->
  canvas_coords (pdf_canvas s) item = [a; b; c; d] ->
  let s2 := fst (_redact_drag e s) in
  _redact_overlay s2 = Some o /\
  pdf_canvas s2 =
    canvas_set_coords item
      [ex e - ox; ey e - oy; ex e - ox + (c - a); ey e - oy + (d - b)]
      (pdf_canvas s).
Proof.
  intros Ho Hi Hm Hoff Hc. unfold _redact_drag, bind, get, on_canvas, modify,
    lift, coord, ret.
  rewrite Ho, Hi, Hm, Hoff, Hc. cbn -[Qminus Qplus]. split; [exact Ho|reflexivity].
Qed.

Lemma held_motion item tags o ox oy w h e s :
  current_item o = Some item -> mode o = move -> offset o = Some (ox, oy) ->
  0 <= w -> 0 <= h ->
  held item tags o w h s ->
  let s' := step tk s (Motion e) in
  held item tags o w h s' /\
  exists c d,
    canvas_coords (pdf_canvas s') item = [ex e - ox; ey e - oy; c; d] /\
    c == ex e - ox + w /\ d == ey e - oy + h.
Proof.
  intros Hi Hm Hoff Hw Hh (Ho & Hb & a & b & c & d & Hl & Ew & Eh).
  cbv zeta. unfold step.
  destruct (handle_redact_tool e s Hb) as (_ & -> & _).
  assert (Hc : canvas_coords (pdf_canvas s) item = [a; b; c; d])
    by (unfold canvas_coords; rewrite Hl; reflexivity).
  destruct (_redact_drag_moves e o item ox oy a b c d s Ho Hi Hm Hoff Hc)
    as (Ho' & Hc').
  pose proof (_redact_drag_beside e s) as Hg.
  set (s' := fst (_redact_drag e s)) in *.
  injection Hg as _ Hb'. rewrite Hb in Hb'.
  assert (Hl' : canvas_lookup (pdf_canvas s') item =
                Some {| item_kind := rectangle_item;
                        item_coords := [ex e - ox; ey e - oy;
                                        ex e - ox + (c - a); ey e - oy + (d - b)];
                        item_tags := tags |}).
  { rewrite Hc', canvas_lookup_set_coords, Hl. cbn -[Qminus Qplus tk_order].
    rewrite tk_order_shifted by lra. reflexivity. }
  split.
  - split; [exact Ho'|]. split; [exact Hb'|].
    eexists _, _, _, _. split; [exact Hl'|]. split; lra.
  - eexists _, _. split; [unfold canvas_coords; rewrite Hl'; reflexivity|].
    split; lra.
Qed.

Lemma held_motions item tags o ox oy w h es : forall s,
  current_item o = Some item -> mode o = move -> offset o = Some (ox, oy) ->
  0 <= w -> 0 <= h ->
  held item tags o w h s ->
  held item tags o w h (run tk s (map Motion es)).
Proof.
  induction es as [|e es IH]; intros s Hi Hm Hoff Hw Hh Hs; cbn; [exact Hs|].
  apply IH; try assumption.
  exact (proj1 (held_motion item tags o ox oy w h e s Hi Hm Hoff Hw Hh Hs)).
Qed.

(** X12: a redaction dragged with the redaction tool.  Pressing on a
    redaction and moving the pointer, over whatever points, shifts the
    rectangle on the canvas by the way from the point of the press to the
    last point of the pointer, and keeps its width and height. *)
Theorem move_gesture_translates doc s e0 es e1 item a b c d tags :
  reachable tk doc s ->
  canvas_bindings s = tool_redact ->
  first_tagged (pdf_canvas s) tag_redact_overlay
    (find_overlapping tk (pdf_canvas s) (ex e0) (ey e0) (ex e0) (ey e0))
    = Some item ->
  canvas_lookup (pdf_canvas s) item =
    Some {| item_kind := rectangle_item; item_coords := [a; b; c; d];
            item_tags := tags |} ->
  a <= c -> b <= d ->
  let s' := run tk s (Button1 e0 :: map Motion es ++ [Motion e1]) in
  exists a' b' c' d',
    canvas_coords (pdf_canvas s') item = [a'; b'; c'; d'] /\
    a' == a + (ex e1 - ex e0) /\ b' == b + (ey e1 - ey e0) /\
    c' == c + (ex e1 - ex e0) /\ d' == d + (ey e1 - ey e0).
Proof.
  intros Hreach Hb Hf Hl Hac Hbd.
  destruct (_redact_overlay s) as [o|] eqn:Ho;
    [|exfalso; exact (proj1 (reachable_redact_tool_ok doc s Hreach Hb) Ho)].
  cbv zeta. unfold run. cbn [fold_left]. rewrite fold_left_app. cbn [fold_left].
  fold (run tk (step tk s (Button1 e0)) (map Motion es)).
  assert (Hc : canvas_coords (pdf_canvas s) item = [a; b; c; d])
    by (unfold canvas_coords; rewrite Hl; reflexivity).
  set (o1 := {| start_x := start_x o; start_y := start_y o;
                current_item := Some item; mode := move;
                offset := Some (ex e0 - a, ey e0 - b) |}).
  assert (H1 : held item tags o1 (c - a) (d - b) (step tk s (Button1 e0))).
  { unfold step. destruct (handle_redact_tool e0 s Hb) as (-> & _ & _).
    destruct (_redact_start_grabs e0 o item a b [c; d] s Ho Hf Hc) as (Ho1 & Hc1).
    pose proof (_redact_start_beside e0 s) as Hg. injection Hg as _ Hb1.
    split; [exact Ho1|]. split; [congruence|].
    exists a, b, c, d. rewrite Hc1. split; [exact Hl|]. split; reflexivity. }
  pose proof (held_motions item tags o1 (ex e0 - a) (ey e0 - b) (c - a) (d - b) es
                _ eq_refl eq_refl eq_refl ltac:(lra) ltac:(lra) H1) as H2.
  destruct (held_motion item tags o1 (ex e0 - a) (ey e0 - b) (c - a) (d - b) e1
              _ eq_refl eq_refl eq_refl ltac:(lra) ltac:(lra) H2)
    as (_ & c' & d' & Hc' & Ec & Ed).
  eexists _, _, c', d'. split; [exact Hc'|]. repeat split; lra.
Qed.

(** ** The keys of the redaction tool *)

Lemma _adjust_redact_canvas dim_is_h delta o item a b c d s :
  _redact_overlay s = Some o -> current_item o = Some item ->
  canvas_coords (pdf_canvas s) item = [a; b; c; d] ->
  _adjust_redact dim_is_h delta s =
  (set_pdf_canvas
     (canvas_set_coords item
        (if dim_is_h then [a; b; c; Py.max (b + 5) (d + delta)]
         else [a; b; Py.max (a + 5) (c + delta); d])
        (pdf_canvas s)) s, Ok tt).
Proof.
  intros Ho Hi Hc. unfold _adjust_redact, bind, get, on_canvas, modify.
  rewrite Ho, Hi, Hc. destruct dim_is_h; reflexivity.
Qed.

Lemma handle_redact_keys s :
  key_bindings s = keys_redact ->
  handle tk KeyUp s = _adjust_redact true 5 s /\
  handle tk KeyDown s = _adjust_redact true (-5) s /\
  handle tk KeyRight s = _adjust_redact false 5 s /\
  handle tk KeyLeft s = _adjust_redact false (-5) s /\
  handle tk KeyDelete s = _delete_redact s.
Proof.
  intros Hk. unfold handle. rewrite !run_get. cbv beta iota. rewrite Hk.
  repeat split.
Qed.

Lemma tk_order_ordered a b c d :
  a <= c -> b <= d -> tk_order [a; b; c; d] = [a; b; c; d].
Proof.
  intros Hac Hbd. unfold tk_order.
  assert (E1 : gtb b d = false) by (apply ltb_false; lra).
  assert (E2 : gtb a c = false) by (apply ltb_false; lra).
  rewrite E1, E2. reflexivity.
Qed.

(** X13: the arrow keys of the redaction tool.  With a rectangle in hand,
    Up and Right move its lower and its right edge out by five pixels, Down
    and Left move them in by five pixels, but never closer than five pixels
    to the opposite edge; the other three coordinates stay. *)
Theorem arrow_keys_resize_the_redaction doc s o item a b c d tags :
  reachable tk doc s ->
  canvas_bindings s = tool_redact ->
  _redact_overlay s = Some o -> current_item o = Some item ->
  canvas_lookup (pdf_canvas s) item =
    Some {| item_kind := rectangle_item; item_coords := [a; b; c; d];
            item_tags := tags |} ->
  a <= c -> b <= d ->
  let after i := canvas_coords (pdf_canvas (step tk s i)) item in
  (exists d', after KeyUp = [a; b; c; d'] /\ d' == d + 5) /\
  (exists d', after KeyDown = [a; b; c; d'] /\
              d' == Py.max (b + 5) (d - 5) /\ 5 <= d' - b) /\
  (exists c', after KeyRight = [a; b; c'; d] /\ c' == c + 5) /\
  (exists c', after KeyLeft = [a; b; c'; d] /\
              c' == Py.max (a + 5) (c - 5) /\ 5 <= c' - a).
Proof.
  intros Hreach Hb Ho Hi Hl Hac Hbd.
  destruct (reachable_redact_tool_ok doc s Hreach Hb) as [_ Hk].
  destruct (handle_redact_keys s Hk) as (Eu & Ed & Er & El & _).
  assert (Hc : canvas_coords (pdf_canvas s) item = [a; b; c; d])
    by (unfold canvas_coords; rewrite Hl; reflexivity).
  cbv zeta. unfold step. rewrite Eu, Ed, Er, El.
  rewrite !(_adjust_redact_canvas _ _ o item a b c d s Ho Hi Hc).
  cbn [fst pdf_canvas set_pdf_canvas]. unfold canvas_coords.
  rewrite !canvas_lookup_set_coords, Hl. cbn [fmap option_fmap option_map
    item_kind item_coords place_coords].
  pose proof (max_ge_l (b + 5) (d + 5)). pose proof (max_ge_l (b + 5) (d + -5)).
  pose proof (max_ge_l (a + 5) (c + 5)). pose proof (max_ge_l (a + 5) (c + -5)).
  rewrite !tk_order_ordered by lra.
  repeat split.
  - eexists. split; [reflexivity|]. cmp; lra.
  - eexists. split; [reflexivity|]. split; [cmp; lra|lra].
  - eexists. split; [reflexivity|]. cmp; lra.
  - eexists. split; [reflexivity|]. split; [cmp; lra|lra].
Qed.

(** ** Deleting a redaction *)

Lemma reachable_run doc s inputs :
  reachable tk doc s -> reachable tk doc (run tk s inputs).
Proof.
  revert s. induction inputs as [|i inputs IH]; intros s H; cbn; [exact H|].
  apply IH. apply reachable_step. exact H.
Qed.

Lemma rect_eqb_refl r : rect_eqb r r = true.
Proof.
  destruct r as [[[a b] c] d]. unfold rect_eqb.
  rewrite !Qeq_bool_refl. reflexivity.
Qed.

Lemma py_in_last {A} (eqb : A -> A -> bool) x l :
  eqb x x = true -> py_in eqb x (l ++ [x]) = true.
Proof.
  intros Hx. unfold py_in. rewrite existsb_app. cbn. rewrite Hx.
  apply orb_true_iff. right. reflexivity.
Qed.

Lemma py_remove_last {A} (eqb : A -> A -> bool) x l :
  eqb x x = true -> py_in eqb x l = false -> py_remove eqb x (l ++ [x]) = l.
Proof.
  intros Hx. unfold py_in. induction l as [|a l IH]; cbn.
  - rewrite Hx. reflexivity.
  - intros H. apply orb_false_iff in H as [Ha Hl]. rewrite Ha, IH by exact Hl.
    reflexivity.
Qed.

(** What [_delete_redact] does, read off its code. *)
Lemma _delete_redact_forgets o item a b c d rects s :
  _redact_overlay s = Some o -> current_item o = Some item ->
  canvas_coords (pdf_canvas s) item = [a; b; c; d] ->
  _redactions_by_page s !! current_page s = Some rects ->
  py_in rect_eqb (a, b, c, d) rects = true ->
  let s' := fst (_delete_redact s) in
  _redactions_by_page s' =
    <[current_page s := py_remove rect_eqb (a, b, c, d) rects]>
      (_redactions_by_page s) /\
  pdf_canvas s' = canvas_delete item (pdf_canvas s).
Proof.
  intros Ho Hi Hc Hr Hin.
  unfold _delete_redact, forget_redaction, bind, get, on_canvas,
    on_redact_overlay, modify, when, ret.
  rewrite Ho, Hi, Hc. cbn [as_rect]. rewrite Hr, Hin. split; reflexivity.
Qed.

Lemma _delete_redact_idle o s :
  _redact_overlay s = Some o -> current_item o = None ->
  _delete_redact s = (s, Ok tt).
Proof.
  intros Ho Hi. unfold _delete_redact, bind, get, ret. rewrite Ho, Hi.
  reflexivity.
Qed.

(** X14: a redaction drawn on a free spot and deleted at once with the
    Delete key leaves no trace: the store lists the same rectangles for
    every page as before the gesture, and the canvas shows the same items,
    provided the new box is not equal to one that the page already has. *)
Theorem draw_then_delete_leaves_no_trace doc s e0 e1 e2 :
  reachable tk doc s ->
  canvas_bindings s = tool_redact ->
  first_tagged (pdf_canvas s) tag_redact_overlay
    (find_overlapping tk (pdf_canvas s) (ex e0) (ey e0) (ex e0) (ey e0)) = None ->
  py_in rect_eqb
    (Py.min (ex e0) (ex e1), Py.min (ey e0) (ey e1),
     Py.max (ex e0) (ex e1), Py.max (ey e0) (ey e1))
    (default [] (_redactions_by_page s !! current_page s)) = false ->
  let s' := run tk s [Button1 e0; Motion e1; Release e2; KeyDelete] in
  (forall p, default [] (_redactions_by_page s' !! p) =
             default [] (_redactions_by_page s !! p)) /\
  canvas_items (pdf_canvas s') = canvas_items (pdf_canvas s).
Proof.
  intros Hreach Hb Hfree Hnew.
  pose proof (reachable_canvas_fresh doc s Hreach) as Hfresh.
  destruct (_redact_overlay s) as [o|] eqn:Ho;
    [|exfalso; exact (proj1 (reachable_redact_tool_ok doc s Hreach Hb) Ho)].
  cbv zeta.
  change (run tk s [Button1 e0; Motion e1; Release e2; KeyDelete])
    with (step tk (run tk s [Button1 e0; Motion e1; Release e2]) KeyDelete).
  destruct (draw_gesture doc s e0 e1 e2 o Hreach Hb Ho Hfree)
    as (small & _ & Hg & Hover & Hcanvas & Hstore).
  pose proof (reachable_run doc s [Button1 e0; Motion e1; Release e2] Hreach)
    as Hreach3.
  set (s3 := run tk s [Button1 e0; Motion e1; Release e2]) in *.
  injection Hg as Hp3 Hb3. rewrite Hb in Hb3.
  destruct (reachable_redact_tool_ok doc s3 Hreach3 Hb3) as [_ Hk3].
  destruct (handle_redact_keys s3 Hk3) as (_ & _ & _ & _ & Edel).
  unfold step. rewrite Edel.
  destruct (canvas_drawn (pdf_canvas s) [ex e0; ey e0; ex e0; ey e0]
              [tag_redact_overlay]
              [Py.min (ex e0) (ex e1); Py.min (ey e0) (ey e1);
               Py.max (ex e0) (ex e1); Py.max (ey e0) (ey e1)] Hfresh)
    as (_ & _ & Hcoords & _ & Hdel & _).
  rewrite tk_order_box in Hcoords.
  destruct small.
  - rewrite (_delete_redact_idle _ s3 Hover eq_refl). cbn [fst].
    rewrite Hstore, Hcanvas. split; [reflexivity|exact Hdel].
  - rewrite <- Hcanvas in Hcoords, Hdel.
    destruct (_delete_redact_forgets _ _ _ _ _ _ _ s3 Hover eq_refl Hcoords
                ltac:(rewrite Hstore, Hp3; apply lookup_insert_eq)
                ltac:(apply py_in_last, rect_eqb_refl))
      as (Hstore' & Hcanvas').
    rewrite Hstore', Hcanvas'. split; [|exact Hdel].
    intros p. rewrite Hstore, Hp3, insert_insert_eq.
    match goal with
    | |- context [py_remove ?e ?x ?l] =>
        replace (py_remove e x l)
          with (default [] (_redactions_by_page s !! current_page s))
          by (symmetry;
              exact (py_remove_last rect_eqb _ _ (rect_eqb_refl _) Hnew))
    end.
    destruct (decide (current_page s = p)) as [<-|Hne].
    + rewrite lookup_insert_eq. reflexivity.
    + rewrite lookup_insert_ne by exact Hne. reflexivity.
Qed.

(** ** The arrow keys after a tool was used *)

Lemma handle_keys_not_navigate i :
  keeps (fun s => key_bindings s <> keys_navigate) (handle tk i).
Proof.
  unfold handle. destruct i; keeps_unfolding.
  all: intros s' Hs'; cbn; try discriminate; try assumption.
Qed.

Lemma run_keys_not_navigate inputs : forall s,
  key_bindings s <> keys_navigate ->
  key_bindings (run tk s inputs) <> keys_navigate.
Proof.
  induction inputs as [|i inputs IH]; intros s H; cbn; [exact H|].
  apply IH. apply handle_keys_not_navigate. exact H.
Qed.

Lemma deactivate_current_tool_unbinds s :
  key_bindings (fst (deactivate_current_tool s)) = keys_unbound.
Proof. reflexivity. Qed.

Lemma on_tool_unbinds t s : key_bindings (fst (on_tool t s)) <> keys_navigate.
Proof.
  unfold on_tool. rewrite run_get. cbv beta.
  destruct (tool_eqb (_active_tool s) t).
  - rewrite run_modify. cbv beta. rewrite deactivate_current_tool_unbinds.
    discriminate.
  - assert (Hrest : keeps (fun s => key_bindings s <> keys_navigate)
                      (modify (set_active_tool t) ;;;
                       match t with
                       | tool_write => action_write
                       | tool_redact => action_redact
                       | _ => ret tt
                       end)).
    { keeps_unfolding.
      all: intros s' Hs'; cbn; try discriminate; try assumption. }
    unfold bind at 1.
    pose proof (deactivate_current_tool_unbinds s) as Hk.
    destruct (deactivate_current_tool s) as [s1 [[]|e]]; cbn [fst] in Hk |- *.
    + apply Hrest. rewrite Hk. discriminate.
    + rewrite Hk. discriminate.
Qed.

Lemma _adjust_redact_current_page dim_is_h delta :
  preserves current_page (_adjust_redact dim_is_h delta).
Proof. apply preserves_keeps. intros ?. keeps_unfolding. Qed.

(** X15: once a tool row was clicked, the Left and Right keys do not turn
    pages any more, whatever the user does afterwards: activating or leaving
    a tool unbinds the arrow keys, and only [__init__] binds them to
    [prev_page] and [next_page]. *)
Theorem arrow_keys_stop_turning_pages t inputs s :
  t <> tool_none ->
  let s' := run tk s (Row t :: inputs) in
  key_bindings s' <> keys_navigate /\
  current_page (step tk s' KeyLeft) = current_page s' /\
  current_page (step tk s' KeyRight) = current_page s'.
Proof.
  intros Ht. cbv zeta. cbn [run fold_left].
  fold (run tk (step tk s (Row t)) inputs).
  assert (H1 : key_bindings (step tk s (Row t)) <> keys_navigate).
  { unfold step, handle. rewrite run_get. cbv beta iota.
    destruct t; try contradiction; apply on_tool_unbinds. }
  pose proof (run_keys_not_navigate inputs _ H1) as H2.
  set (s' := run tk (step tk s (Row t)) inputs) in *.
  split; [exact H2|].
  unfold step, handle. rewrite !run_get. cbv beta iota.
  destruct (key_bindings s'); try contradiction; split;
    first [reflexivity | apply _adjust_redact_current_page].
Qed.

(** ** The text panel *)

Lemma str_eqb_eq a : forall b, str_eqb a b = true -> a = b.
Proof.
  induction a as [|c a IH]; intros [|d b]; cbn; try discriminate; [reflexivity|].
  intros H. apply andb_true_iff in H as [H1 H2].
  apply N.eqb_eq in H1. subst d. f_equal. apply IH, H2.
Qed.

Lemma cond_update (b : bool) td f d s :
  text_heap s !! td = Some d ->
  (if b then bind (td_update td f) (fun _ => ret true) else ret false) s =
  ((if b then set_text_heap (<[td := f d]> (text_heap s)) s else s), Ok b).
Proof.
  intros Hd. destruct b; [|reflexivity].
  unfold bind, td_update, modify, ret. rewrite Hd. reflexivity.
Qed.

Lemma run_deref {B} td (k : TextData -> M Viewer B) s :
  bind (deref td) k s =
  match text_heap s !! td with
  | Some d => k d s
  | None => (s, Raise KeyError)
  end.
Proof. unfold deref, bind, get, ret, raise. destruct (text_heap s !! td); reflexivity. Qed.

Lemma run_cond_update {B} (b : bool) td f d (k : bool -> M Viewer B) s :
  text_heap s !! td = Some d ->
  bind (if b then bind (td_update td f) (fun _ => ret true) else ret false) k s =
  k b (if b then set_text_heap (<[td := f d]> (text_heap s)) s else s).
Proof. intros Hd. unfold bind at 1. rewrite (cond_update b td f d s Hd). reflexivity. Qed.

Lemma rerender item td d s :
  text_heap s !! td = Some d ->
  exists s' item',
    bind (on_canvas (canvas_delete item))
      (fun _ => bind _clear_text_selection
         (fun _ => bind (_render_text td)
            (fun new_item =>
               bind (modify (set_selected_text (Some (new_item, td))))
                    (fun _ => frame_selected tk new_item)))) s = (s', Ok tt) /\
    text_heap s' = text_heap s /\
    _selected_text s' = Some (item', td) /\
    panel_state s' = panel_state s.
Proof.
  intros Hd.
  unfold on_canvas, _clear_text_selection, _render_text, frame_selected, deref,
    canvas_new, bind, modify, get, ret.
  unfold on_canvas, modify.
  cbn [text_heap set_selected_text set_pdf_canvas pdf_canvas].
  rewrite Hd.
  destruct (canvas_create (text_item _ _ _ _) _ _ _) as [id c].
  cbn [text_heap set_selected_text set_pdf_canvas pdf_canvas].
  destruct (bbox tk c id) as [[[[x0 y0] x1] y1]|].
  - destruct (canvas_create rectangle_item _ _ _) as [id' c'].
    eexists _, id. repeat split.
  - eexists _, id. repeat split.
Qed.

Lemma _apply_restyles item td d label size color s :
  _selected_text s = Some (item, td) -> _text_drag s = None ->
  _font_family s = Some label -> _font_size s = Some size ->
  _text_color s = Some color -> text_heap s !! td = Some d ->
  exists s' item',
    _apply tk s = (s', Ok tt) /\
    text_heap s' = <[td := restyled (_font_map s) label size color d]> (text_heap s) /\
    _selected_text s' = Some (item', td) /\
    panel_state s' = panel_state s.
Proof.
  intros Hsel Hdrag Hff Hfs Hfc Hd.
  assert (Hlt : (td < length (text_heap s))%nat)
    by (apply lookup_lt_is_Some; eauto).
  unfold _apply. rewrite run_get. cbv beta. rewrite Hsel, Hdrag.
  rewrite run_var, Hff. cbv zeta.
  set (fam := fst (font_map_get (_font_map s) label default_font)).
  rewrite run_deref, Hd.
  rewrite (run_cond_update _ td _ d _ s Hd).
  set (b1 := negb (str_eqb (td_font d) fam)).
  set (s1 := if b1 then _ else s).
  set (d1 := td_with_font fam d).
  assert (H1 : text_heap s1 = <[td := d1]> (text_heap s) /\
               _selected_text s1 = _selected_text s /\
               panel_state s1 = panel_state s).
  { subst s1 d1 b1. destruct (str_eqb (td_font d) fam) eqn:E; cbn [negb].
    - apply str_eqb_eq in E. repeat split.
      rewrite <- E. symmetry. apply list_insert_id.
      destruct d; exact Hd.
    - repeat split. }
  destruct H1 as (Hh1 & Hsel1 & Hp1).
  assert (Hd1 : text_heap s1 !! td = Some d1)
    by (rewrite Hh1; apply list_lookup_insert_eq; exact Hlt).
  rewrite run_var.
  replace (_font_size s1) with (Some size)
    by (injection Hp1; intros; congruence).
  replace (td_size d) with (td_size d1) by reflexivity.
  rewrite (run_cond_update _ td _ d1 _ s1 Hd1).
  set (b2 := negb (td_size d1 =? size)%Z).
  set (s2 := if b2 then _ else s1).
  set (d2 := td_with_size size d1).
  assert (H2 : text_heap s2 = <[td := d2]> (text_heap s) /\
               _selected_text s2 = _selected_text s /\
               panel_state s2 = panel_state s).
  { subst s2 d2 b2. destruct (td_size d1 =? size)%Z eqn:E; cbn [negb].
    - apply Z.eqb_eq in E. rewrite Hh1, Hsel1, Hp1. repeat split.
      f_equal. unfold td_with_size. rewrite <- E. destruct d1; reflexivity.
    - cbn. rewrite Hh1, list_insert_insert_eq.
      split; [reflexivity|]. split; [exact Hsel1|exact Hp1]. }
  destruct H2 as (Hh2 & Hsel2 & Hp2).
  assert (Hd2 : text_heap s2 !! td = Some d2)
    by (rewrite Hh2; apply list_lookup_insert_eq; exact Hlt).
  rewrite run_var.
  replace (_text_color s2) with (Some color)
    by (injection Hp2; intros; congruence).
  replace (td_color d) with (td_color d2) by reflexivity.
  rewrite (run_cond_update _ td _ d2 _ s2 Hd2).
  set (b3 := negb (str_eqb (td_color d2) color)).
  set (s3 := if b3 then _ else s2).
  assert (H3 : text_heap s3 = <[td := restyled (_font_map s) label size color d]> (text_heap s) /\
               _selected_text s3 = _selected_text s /\
               panel_state s3 = panel_state s).
  { subst s3 b3. fold fam. unfold restyled. fold fam. fold d1. fold d2.
    destruct (str_eqb (td_color d2) color) eqn:E; cbn [negb].
    - apply str_eqb_eq in E. rewrite Hh2, Hsel2, Hp2. repeat split.
      f_equal. unfold td_with_color. rewrite <- E. destruct d2; reflexivity.
    - cbn. rewrite Hh2, list_insert_insert_eq.
      split; [reflexivity|]. split; [exact Hsel2|exact Hp2]. }
  destruct H3 as (Hh3 & Hsel3 & Hp3).
  unfold when. destruct (b1 || b2 || b3)%bool.
  - destruct (rerender item td (restyled (_font_map s) label size color d) s3)
      as (s' & item' & E & Hh & Hs & Hp).
    { rewrite Hh3. apply list_lookup_insert_eq. exact Hlt. }
    exists s', item'. split; [exact E|].
    split; [congruence|]. split; [exact Hs|congruence].
  - exists s3, item. split; [reflexivity|].
    split; [exact Hh3|]. split; [congruence|exact Hp3].
Qed.

Lemma traced_restyles w item td d label size color s :
  _selected_text (w s) = Some (item, td) -> _text_drag (w s) = None ->
  _font_family (w s) = Some label -> _font_size (w s) = Some size ->
  _text_color (w s) = Some color -> text_heap (w s) !! td = Some d ->
  exists s' item',
    traced tk w s = (s', Ok tt) /\
    text_heap s' =
      <[td := restyled (_font_map (w s)) label size color d]> (text_heap (w s)) /\
    _selected_text s' = Some (item', td) /\
    panel_state s' = panel_state (w s).
Proof.
  intros Hsel Hdrag Hff Hfs Hfc Hd.
  destruct (_apply_restyles item td d label size color (w s) Hsel Hdrag Hff Hfs
              Hfc Hd) as (s' & item' & E & H).
  exists s', item'. split; [|exact H].
  unfold traced. rewrite run_modify. cbv beta. unfold try_except. rewrite E.
  reflexivity.
Qed.

(** X16: a change in the text panel restyles the selected annotation.
    After the font, the size or the colour of the panel was written, the
    selected annotation has the font family of the panel's label, the size
    and the colour of the panel; no other annotation is changed. *)
Theorem panel_change_restyles_the_selection s item td d label0 size0 color0 :
  _text_panel s = true ->
  _selected_text s = Some (item, td) -> _text_drag s = None ->
  _font_family s = Some label0 -> _font_size s = Some size0 ->
  _text_color s = Some color0 ->
  text_heap s !! td = Some d ->
  let heap_after i := text_heap (step tk s i) in
  (forall label, heap_after (PanelFont label) =
     <[td := restyled (_font_map s) label size0 color0 d]> (text_heap s)) /\
  (forall size, heap_after (PanelSize size) =
     <[td := restyled (_font_map s) label0 size color0 d]> (text_heap s)) /\
  (forall color, heap_after (PanelColor color) =
     <[td := restyled (_font_map s) label0 size0 color d]> (text_heap s)).
Proof.
  intros Hpanel Hsel Hdrag Hff Hfs Hfc Hd. cbv zeta beta.
  split; [|split].
  - intros label. unfold step, handle. rewrite run_get. cbv beta iota.
    rewrite Hpanel. unfold when.
    destruct (traced_restyles (set_font_family (Some label)) item td d label
                size0 color0 s Hsel Hdrag eq_refl Hfs Hfc Hd)
      as (s' & item' & -> & Hh & _). exact Hh.
  - intros size. unfold step, handle. rewrite run_get. cbv beta iota.
    rewrite Hpanel. unfold when.
    destruct (traced_restyles (set_font_size (Some size)) item td d label0
                size color0 s Hsel Hdrag Hff eq_refl Hfc Hd)
      as (s' & item' & -> & Hh & _). exact Hh.
  - intros color. unfold step, handle. rewrite run_get. cbv beta iota.
    rewrite Hpanel. unfold when.
    destruct (traced_restyles (set_text_color (Some color)) item td d label0
                size0 color s Hsel Hdrag Hff Hfs eq_refl Hd)
      as (s' & item' & -> & Hh & _). exact Hh.
Qed.

Lemma restyled_twice fm label size color d :
  restyled fm label size color (restyled fm label size color d) =
  restyled fm label size color d.
Proof. reflexivity. Qed.

Lemma bind_bind {A B C} (m : M Viewer A) (f : A -> M Viewer B)
    (g : B -> M Viewer C) s :
  bind (bind m f) g s = bind m (fun x => bind (f x) g) s.
Proof. unfold bind. destruct (m s) as [s' [a|e]]; reflexivity. Qed.






(** ** Dragging a text *)







(** ** What the canvas shows *)

Lemma shapes_create k coords tags c :
  shapes (snd (canvas_create k coords tags c)) =
  shapes c ++ [{| item_kind := k; item_coords := place_coords k coords;
                  item_tags := tags |}].
Proof. unfold shapes, canvas_create. cbn. rewrite map_app. reflexivity. Qed.

Lemma shapes_delete_tag t c :
  shapes (canvas_delete_tag t c) =
  List.filter (fun it => negb (has_tag t it)) (shapes c).
Proof.
  unfold shapes, canvas_delete_tag, canvas_filter. cbn.
  induction (canvas_items c) as [|p l IH]; cbn; [reflexivity|].
  destruct (has_tag t (snd p)); cbn; rewrite IH; reflexivity.
Qed.

Lemma for_each_shapes {A} (l : list A) (body : A -> M Viewer unit)
    (shape : A -> Item) (P : Viewer -> Prop) :
  (forall a s, In a l -> P s ->
     exists s', body a s = (s', Ok tt) /\
                shapes (pdf_canvas s') = shapes (pdf_canvas s) ++ [shape a] /\
                P s') ->
  forall s, P s ->
  exists s', for_each l body s = (s', Ok tt) /\
             shapes (pdf_canvas s') = shapes (pdf_canvas s) ++ map shape l /\
             P s'.
Proof.
  induction l as [|a l IH]; intros Hb s Hs; cbn.
  - exists s. rewrite app_nil_r. repeat split. exact Hs.
  - destruct (Hb a s (or_introl eq_refl) Hs) as (s1 & E1 & Hc1 & H1).
    destruct (IH (fun a0 s0 Hin => Hb a0 s0 (or_intror Hin)) s1 H1)
      as (s2 & E2 & Hc2 & H2).
    exists s2. rewrite (run_seq _ _ _ _ E1). split; [exact E2|].
    split; [|exact H2]. rewrite Hc2, Hc1, <- app_assoc. reflexivity.
Qed.

Lemma _restore_redactions_shapes s :
  exists s',
    _restore_redactions s = (s', Ok tt) /\
    shapes (pdf_canvas s') =
      List.filter (fun it => negb (has_tag tag_redact_overlay it))
        (shapes (pdf_canvas s))
      ++ map rect_shape
           (default [] (_redactions_by_page s !! current_page s)) /\
    view_frame s' = view_frame s.
Proof.
  unfold _restore_redactions, on_canvas. rewrite run_modify. cbv beta.
  rewrite run_get. cbv beta.
  cbn [_redactions_by_page current_page set_pdf_canvas].
  set (s0 := set_pdf_canvas _ s).
  assert (H0 : shapes (pdf_canvas s0) =
               List.filter (fun it => negb (has_tag tag_redact_overlay it))
                 (shapes (pdf_canvas s))) by apply shapes_delete_tag.
  destruct (_redactions_by_page s !! current_page s) as [rects|]; cbn [default].
  - destruct (for_each_shapes rects
                (fun '(x0, y0, x1, y1) =>
                   bind (canvas_new rectangle_item [x0; y0; x1; y1]
                           [tag_redact_overlay]) (fun _ => ret tt))
                rect_shape (fun s' => view_frame s' = view_frame s) ) with (s := s0)
      as (s' & E & Hc & Hf).
    + intros [[[x0 y0] x1] y1] s1 _ H1. unfold bind, canvas_new, ret.
      pose proof (shapes_create rectangle_item [x0; y0; x1; y1]
                    [tag_redact_overlay] (pdf_canvas s1)) as Hs.
      destruct (canvas_create _ _ _ _) as [id c]. eexists.
      split; [reflexivity|]. split; [exact Hs|exact H1].
    + reflexivity.
    + exists s'. split; [exact E|]. split; [|exact Hf]. rewrite Hc, H0.
      reflexivity.
  - exists s0. rewrite app_nil_r. repeat split. exact H0.
Qed.

Lemma _restore_texts_shapes s :
  (forall tds td,
      _texts_by_page s !! current_page s = Some tds -> In td tds ->
      (td < length (text_heap s))%nat) ->
  exists s' texts,
    _restore_texts s = (s', Ok tt) /\
    shapes (pdf_canvas s') =
      List.filter (fun it => negb (has_tag tag_text_overlay it))
        (shapes (pdf_canvas s)) ++ texts /\
    map Some texts =
      map (text_shape (text_heap s))
        (default [] (_texts_by_page s !! current_page s)) /\
    view_frame s' = view_frame s.
Proof.
  intros Hvalid.
  unfold _restore_texts, on_canvas. rewrite run_modify. cbv beta.
  rewrite run_get. cbv beta.
  cbn [_texts_by_page current_page set_pdf_canvas].
  set (s0 := set_pdf_canvas _ s).
  assert (H0 : shapes (pdf_canvas s0) =
               List.filter (fun it => negb (has_tag tag_text_overlay it))
                 (shapes (pdf_canvas s))) by apply shapes_delete_tag.
  destruct (_texts_by_page s !! current_page s) as [tds|] eqn:Etds;
    cbn [default].
  2: { exists s0, []. rewrite app_nil_r, <- H0. repeat split. }
  assert (Hall : forall td, In td tds ->
                 exists d, text_heap s !! td = Some d).
  { intros td Hin. apply lookup_lt_is_Some_2. exact (Hvalid tds td eq_refl Hin). }
  clear Hvalid Etds. rewrite <- H0.
  assert (Hf0 : view_frame s0 = view_frame s) by reflexivity.
  clearbody s0. clear H0. revert s0 Hf0.
  induction tds as [|td tds IH]; intros s0 Hf0; cbn.
  - exists s0, []. rewrite app_nil_r. repeat split. exact Hf0.
  - destruct (Hall td (or_introl eq_refl)) as [d Hd].
    assert (Hh0 : text_heap s0 = text_heap s)
      by (injection Hf0; intros; congruence).
    unfold _render_text at 1. rewrite !bind_bind, run_deref, Hh0, Hd.
    unfold canvas_new at 1. unfold bind at 1.
    pose proof (shapes_create
                  (text_item (td_text d) (td_font d) (td_size d) (td_color d))
                  [td_x d; td_y d] [tag_text_overlay; tag_text_id td]
                  (pdf_canvas s0)) as Hs.
    destruct (canvas_create _ _ _ _) as [id c]. rewrite run_ret.
    destruct (IH (fun td0 Hin => Hall td0 (or_intror Hin))
                (set_pdf_canvas c s0) Hf0) as (s' & texts & E & Hc & Ht & Hf).
    eexists s', (_ :: texts). split; [exact E|]. split; [|split; [|exact Hf]].
    + rewrite Hc. cbn [pdf_canvas set_pdf_canvas snd] in *. rewrite Hs.
      rewrite <- app_assoc. reflexivity.
    + cbn [map]. rewrite Ht. unfold text_shape at 2. rewrite Hd. reflexivity.
Qed.

Lemma filter_all {A} (p : A -> bool) l :
  Forall (fun a => p a = true) l -> List.filter p l = l.
Proof. induction 1 as [|a l Ha _ IH]; cbn; [reflexivity|]. rewrite Ha, IH. reflexivity. Qed.

Lemma filter_none {A} (p : A -> bool) l :
  Forall (fun a => p a = false) l -> List.filter p l = [].
Proof. induction 1 as [|a l Ha _ IH]; cbn; [reflexivity|]. rewrite Ha, IH. reflexivity. Qed.

Lemma Forall_filter_negb {A} (p : A -> bool) l :
  Forall (fun a => p a = false) (List.filter (fun a => negb (p a)) l).
Proof.
  apply List.Forall_forall. intros a Ha. apply filter_In in Ha as [_ Ha].
  apply negb_true_iff. exact Ha.
Qed.

Lemma Forall_filter_keep {A} (P : A -> Prop) (p : A -> bool) l :
  Forall P l -> Forall P (List.filter p l).
Proof.
  rewrite !List.Forall_forall. intros H a Ha. apply filter_In in Ha as [Ha _].
  apply H, Ha.
Qed.

Lemma rect_shapes_tags rects :
  Forall (fun it => has_tag tag_redact_overlay it = true /\
                    has_tag tag_text_overlay it = false)
         (map rect_shape rects).
Proof.
  apply List.Forall_forall. intros it Hin. apply in_map_iff in Hin as (r & <- & _).
  destruct r as [[[a b] c] d]. split; reflexivity.
Qed.

Lemma text_shapes_tags heap tds : forall texts,
  map Some texts = map (text_shape heap) tds ->
  Forall (fun it => has_tag tag_text_overlay it = true /\
                    has_tag tag_redact_overlay it = false) texts.
Proof.
  induction tds as [|td tds IH]; intros [|it texts] H; cbn in H;
    try discriminate; constructor.
  - injection H as H1 _. unfold text_shape in H1.
    destruct (heap !! td); [|discriminate]. cbn in H1. injection H1 as ->.
    split; reflexivity.
  - apply IH. injection H as _ H. exact H.
Qed.

(** What [display_page] puts on a canvas that is large enough. *)
Lemma display_page_shapes s page :
  doc_getitem (pdf_document s) (current_page s) = Ok page ->
  (50 <= winfo_width (pdf_canvas s))%Z -> (50 <= winfo_height (pdf_canvas s))%Z ->
  texts_ok (text_state s) ->
  let s' := fst (display_page tk s) in
  shown_with tag_redact_overlay (pdf_canvas s') =
    map rect_shape (default [] (_redactions_by_page s !! current_page s)) /\
  map Some (shown_with tag_text_overlay (pdf_canvas s')) =
    map (text_shape (text_heap s))
      (default [] (_texts_by_page s !! current_page s)) /\
  view_frame s' = view_frame s.
Proof.
  intros Hpage Hw Hh [_ Hrefs]. cbn in Hrefs. cbv zeta.
  unfold display_page. rewrite run_get, run_lift, Hpage.
  replace (winfo_width (pdf_canvas s) <? 50)%Z with false
    by (symmetry; apply Z.ltb_ge; lia).
  replace (winfo_height (pdf_canvas s) <? 50)%Z with false
    by (symmetry; apply Z.ltb_ge; lia).
  cbn [orb].
  match goal with
  | |- context [bind ?A ?k s] =>
      assert (EA : exists s1, A s = (s1, Ok tt) /\ view_frame s1 = view_frame s)
  end.
  { destruct (fit_to_window s).
    - destruct (thumbnail tk _ _) as [w h].
      unfold on_canvas, canvas_new, bind, modify, ret.
      destruct (canvas_create _ _ _ _) as [id c]. eexists. split; reflexivity.
    - destruct (get_pixmap_size tk _ _) as [w h].
      unfold on_canvas, canvas_new, bind, modify, ret.
      destruct (canvas_create _ _ _ _) as [id c]. eexists. split; reflexivity. }
  destruct EA as (s1 & EA & Hf1).
  rewrite !(run_seq _ _ _ _ EA).
  destruct (_restore_redactions_shapes s1) as (s2 & E2 & Hs2 & Hf2).
  rewrite !(run_seq _ _ _ _ E2).
  assert (Hf12 : view_frame s2 = view_frame s) by congruence.
  destruct (_restore_texts_shapes s2) as (s3 & texts & E3 & Hs3 & Ht3 & Hf3).
  { injection Hf12 as _ Et Eh Ec. rewrite Et, Eh, Ec. intros tds td.
    apply Hrefs. }
  rewrite E3. cbn [fst].
  assert (Hf13 : view_frame s3 = view_frame s) by congruence.
  injection Hf1 as Er1 Et1 Eh1 Ec1. injection Hf12 as Er2 Et2 Eh2 Ec2.
  rewrite Er1, Ec1 in Hs2. rewrite Et2, Eh2, Ec2 in Ht3.
  pose proof (rect_shapes_tags
                (default [] (_redactions_by_page s !! current_page s))) as HR.
  pose proof (text_shapes_tags _ _ _ Ht3) as HT.
  split; [|split; [|exact Hf13]].
  - unfold shown_with. rewrite Hs3, Hs2, List.filter_app.
    rewrite (filter_none _ texts)
      by (eapply Forall_impl; [exact HT|]; cbn; tauto).
    rewrite app_nil_r, List.filter_app, List.filter_app.
    rewrite (filter_none (has_tag tag_redact_overlay)
               (List.filter _ (List.filter _ _)))
      by (apply Forall_filter_keep, Forall_filter_negb).
    rewrite (filter_all (fun it => negb (has_tag tag_text_overlay it)))
      by (eapply Forall_impl; [exact HR|]; cbn; intros it [_ ->]; reflexivity).
    rewrite filter_all
      by (eapply Forall_impl; [exact HR|]; cbn; tauto).
    reflexivity.
  - unfold shown_with. rewrite Hs3, List.filter_app.
    rewrite (filter_none (has_tag tag_text_overlay) (List.filter _ _))
      by apply Forall_filter_negb.
    rewrite filter_all
      by (eapply Forall_impl; [exact HT|]; cbn; tauto).
    exact Ht3.
Qed.

Lemma _ensure_thumb_view p :
  preserves (fun s => (view_frame s, pdf_canvas s, pdf_document s))
            (_ensure_thumb tk p).
Proof. apply preserves_keeps. intros ?. keeps_unfolding. Qed.

(** X19: turning to a page shows its overlays.  In a session whose canvas
    is at least 50 pixels wide and high, after [goto_page] with the number
    of a page the viewer is on that page and the canvas shows one black
    rectangle for each redaction stored for the page and one text for each
    annotation stored for it, with their stored coordinates and style, in
    the order of the store, and no redaction or text of another page. *)
Theorem turning_the_page_shows_its_overlays doc s p :
  reachable tk doc s ->
  (50 <= winfo_width (pdf_canvas s))%Z ->
  (50 <= winfo_height (pdf_canvas s))%Z ->
  (0 <= p < total_pages s)%Z ->
  let s' := fst (goto_page tk p s) in
  current_page s' = p /\
  shown_with tag_redact_overlay (pdf_canvas s') =
    map rect_shape (default [] (_redactions_by_page s !! p)) /\
  map Some (shown_with tag_text_overlay (pdf_canvas s')) =
    map (text_shape (text_heap s)) (default [] (_texts_by_page s !! p)).
Proof.
  intros Hreach Hw Hh Hp.
  destruct (reachable_document doc s Hreach) as [Hdoc Htot].
  pose proof (reachable_buttons_ok doc s Hreach) as Hb.
  destruct (reachable_cache_ok doc s Hreach) as [Hmax _]. cbn in Hmax.
  pose proof (reachable_texts_ok doc s Hreach) as Ht.
  cbv zeta. unfold goto_page. rewrite run_get. cbv beta.
  replace ((0 <=? p) && (p <? total_pages s))%Z with true
    by (symmetry; apply andb_true_iff; split;
        [apply Z.leb_le|apply Z.ltb_lt]; lia).
  unfold when. rewrite run_modify. cbv beta.
  set (s1 := set_current_page p s).
  assert (Hp1 : (0 <= p < Z.of_nat (length (pdf_document s1)))%Z)
    by (cbn; rewrite Hdoc; lia).
  pose proof (_ensure_thumb_returns p s1 Hp1) as E1.
  pose proof (_ensure_thumb_view p s1) as Ev.
  destruct (_ensure_thumb tk p s1) as [s2 r] eqn:E. cbn [fst snd] in E1, Ev.
  rewrite E1 in E.
  2:{ cbn. rewrite Hdoc. exact Hb. }
  2:{ cbn. lia. }
  rewrite (run_seq _ _ s1 s2 E).
  injection Ev as Er2 Et2 Eh2 Ec2 Ecanvas Edoc2.
  cbn [view_frame s1 _redactions_by_page _texts_by_page text_heap current_page
         set_current_page pdf_canvas pdf_document] in Er2, Et2, Eh2, Ec2,
         Ecanvas, Edoc2.
  destruct (doc_getitem_valid _ _ Hp1) as [page Hpage].
  destruct (display_page_shapes s2 page) as (Hr & Hx & Hf).
  - rewrite Edoc2, Ec2. exact Hpage.
  - rewrite Ecanvas. exact Hw.
  - rewrite Ecanvas. exact Hh.
  - unfold text_state. rewrite Et2, Eh2. exact Ht.
  - injection Hf as _ _ _ Hc. rewrite Er2, Ec2 in Hr. rewrite Et2, Eh2, Ec2 in Hx.
    split; [congruence|]. split; [exact Hr|exact Hx].
Qed.

(** ** What an export draws *)

Lemma grown_refl k out : grown k [] out out.
Proof. repeat split. symmetry. apply app_nil_r. Qed.

Lemma grown_trans k e1 e2 out0 out1 out2 :
  grown k e1 out0 out1 -> grown k e2 out1 out2 -> grown k (e1 ++ e2) out0 out2.
Proof.
  intros (L1 & O1 & R1) (L2 & O2 & R2). split; [congruence|]. split.
  - rewrite O2, O1, app_assoc. reflexivity.
  - intros j Hj. rewrite R2, R1 by exact Hj. reflexivity.
Qed.

Lemma grown_add_op k op out :
  (k < length out)%nat -> grown k [op] out (add_op (Z.of_nat k) op out).
Proof.
  intros Hk. unfold add_op. rewrite Nat2Z.id. split; [apply length_alter|].
  unfold ops_of. split.
  - rewrite list_lookup_alter_eq.
    destruct (lookup_lt_is_Some_2 out k Hk) as [p ->]. reflexivity.
  - intros j Hj. rewrite list_lookup_alter_ne by congruence. reflexivity.
Qed.

Lemma export_redactions_grow k rects : forall out s s1 out1,
  (k < length out)%nat ->
  for_fold rects (export_redaction (Z.of_nat k)) out s = (s1, Ok out1) ->
  s1 = s /\
  exists rs, length rs = length rects /\ grown k (map draw_rect rs) out out1.
Proof.
  induction rects as [|r rects IH]; intros out s s1 out1 Hk E; cbn in E.
  - injection E as <- <-. split; [reflexivity|]. exists []. split; [reflexivity|].
    apply grown_refl.
  - apply bind_Ok in E as (s0 & out0 & E0 & E).
    destruct r as [[[x0 y0] x1] y1].
    rewrite export_redaction_current_view in E0.
    destruct (_canvas_rect_to_pdf_rect s (Z.of_nat k) x0 y0 x1 y1) as [rect|e];
      [|discriminate].
    injection E0 as <- <-.
    pose proof (grown_add_op k (draw_rect rect) out Hk) as G0.
    assert (Hk' : (k < length (add_op (Z.of_nat k) (draw_rect rect) out))%nat)
      by (destruct G0 as [-> _]; exact Hk).
    destruct (IH _ _ _ _ Hk' E) as (-> & rs & Hlen & G).
    split; [reflexivity|]. exists (rect :: rs). split; [cbn; congruence|].
    exact (grown_trans k [draw_rect rect] (map draw_rect rs) _ _ _ G0 G).
Qed.

Lemma export_text_op page_idx out td s s' out' :
  export_text tk page_idx out td s = (s', Ok out') ->
  out' = out \/
  exists op, is_draw_rect op = false /\ out' = add_op page_idx op out.
Proof.
  unfold export_text. rewrite run_get. cbv beta zeta. intros E.
  apply bind_Ok in E as (s1 & [] & E1 & E).
  apply bind_Ok in E as (s2 & d & E2 & E).
  apply bind_Ok in E as (s3 & [pdf_x pdf_y] & E3 & E).
  apply bind_Ok in E as (s4 & color & E4 & E).
  apply bind_Ok in E as (s5 & [] & E5 & E).
  unfold ret in E. injection E as _ <-.
  destruct (insert_text_raises tk (Some _) _).
  - destruct (insert_text_raises tk None _); [left; reflexivity|].
    right. eexists. split; [|reflexivity]. reflexivity.
  - right. eexists. split; [|reflexivity]. reflexivity.
Qed.

Lemma export_texts_grow k tds : forall out s s1 out1,
  (k < length out)%nat ->
  for_fold tds (export_text tk (Z.of_nat k)) out s = (s1, Ok out1) ->
  exists ts,
    (length ts <= length tds)%nat /\
    Forall (fun op => is_draw_rect op = false) ts /\
    grown k ts out out1.
Proof.
  induction tds as [|td tds IH]; intros out s s1 out1 Hk E; cbn in E.
  - injection E as <- <-. exists []. split; [reflexivity|]. split; [constructor|].
    apply grown_refl.
  - apply bind_Ok in E as (s0 & out0 & E0 & E).
    apply export_text_op in E0 as [->|(op & Hop & ->)].
    + destruct (IH _ _ _ _ Hk E) as (ts & Hlen & Hts & G).
      exists ts. split; [cbn; lia|]. split; assumption.
    + pose proof (grown_add_op k op out Hk) as G0.
      assert (Hk' : (k < length (add_op (Z.of_nat k) op out))%nat)
        by (destruct G0 as [-> _]; exact Hk).
      destruct (IH _ _ _ _ Hk' E) as (ts & Hlen & Hts & G).
      exists (op :: ts). split; [cbn; lia|]. split; [constructor; assumption|].
      exact (grown_trans k [op] ts _ _ _ G0 G).
Qed.

Lemma export_page_core out page_idx : preserves core (export_page tk out page_idx).
Proof.
  apply preserves_keeps. intros o. unfold export_page.
  repeat first
    [ lazymatch goal with
      | |- keeps _ (export_text _ _ _ _) =>
          apply preserves_keeps; apply export_text_core
      | |- keeps _ (export_redaction _ _ _) =>
          apply preserves_keeps; apply export_redaction_core
      end
    | keeps_step ].
Qed.

Lemma export_page_grows k out s s1 out1 :
  (k < length out)%nat ->
  export_page tk out (0 + Z.of_nat k) s = (s1, Ok out1) ->
  exists ops, page_ops s k ops /\ grown k ops out out1.
Proof.
  intros Hk E. unfold export_page in E. rewrite Z.add_0_l in E.
  rewrite run_get in E. cbv beta in E.
  apply bind_Ok in E as (s0 & out0 & E0 & E).
  rewrite run_get in E. cbv beta in E.
  assert (H0 : s0 = s /\ exists rs,
             length rs = length (default [] (_redactions_by_page s !! Z.of_nat k)) /\
             grown k (map draw_rect rs) out out0).
  { destruct (_redactions_by_page s !! Z.of_nat k) as [rects|].
    - exact (export_redactions_grow k rects _ _ _ _ Hk E0).
    - injection E0 as <- <-. split; [reflexivity|]. exists [].
      split; [reflexivity|]. apply grown_refl. }
  destruct H0 as (-> & rs & Hrs & G0).
  assert (Hk0 : (k < length out0)%nat) by (destruct G0 as [-> _]; exact Hk).
  assert (H1 : exists ts,
             (length ts <= length (default [] (_texts_by_page s !! Z.of_nat k)))%nat /\
             Forall (fun op => is_draw_rect op = false) ts /\
             grown k ts out0 out1).
  { destruct (_texts_by_page s !! Z.of_nat k) as [tds|].
    - exact (export_texts_grow k tds _ _ _ _ Hk0 E).
    - injection E as _ <-. exists []. split; [cbn; lia|].
      split; [constructor|]. apply grown_refl. }
  destruct H1 as (ts & Hts & Hall & G1).
  exists (map draw_rect rs ++ ts). split.
  - exists rs, ts. repeat split; assumption.
  - exact (grown_trans k _ _ _ _ _ G0 G1).
Qed.

Lemma export_pages_grow l : forall out s s' out',
  List.NoDup l -> (forall k, In k l -> (k < length out)%nat) ->
  for_fold (map (fun k => (0 + Z.of_nat k)%Z) l) (export_page tk) out s = (s', Ok out') ->
  length out' = length out /\
  (forall k, In k l ->
     exists ops, page_ops s k ops /\ ops_of out' k = ops_of out k ++ ops) /\
  (forall k, ~ In k l -> ops_of out' k = ops_of out k).
Proof.
  induction l as [|a l IH]; intros out s s' out' Hnd Hl E; cbn in E.
  - injection E as <- <-. split; [reflexivity|]. split; [intros k []|].
    intros k _. reflexivity.
  - apply bind_Ok in E as (s1 & out1 & E1 & E).
    inversion Hnd as [|? ? Ha Hnd']; subst.
    pose proof (export_page_core out (0 + Z.of_nat a)%Z s) as Hcore.
    rewrite E1 in Hcore. cbn [fst] in Hcore.
    destruct (export_page_grows a out s s1 out1 (Hl a (or_introl eq_refl)) E1)
      as (ops & Hops & (L1 & O1 & R1)).
    destruct (IH out1 s1 s' out' Hnd') as (L2 & In2 & Out2); [|exact E|].
    { intros k Hk. rewrite L1. apply Hl. right. exact Hk. }
    assert (Hstore : forall k ops0, page_ops s1 k ops0 -> page_ops s k ops0).
    { intros k ops0. unfold page_ops.
      assert (Er : _redactions_by_page s1 = _redactions_by_page s)
        by exact (f_equal (fun c => fst (fst c)) Hcore).
      assert (Et : _texts_by_page s1 = _texts_by_page s)
        by exact (f_equal (fun c => fst (snd (fst c))) Hcore).
      rewrite Er, Et. tauto. }
    split; [congruence|]. split.
    + intros k [<-|Hk].
      * exists ops. split; [exact Hops|]. rewrite (Out2 a Ha). exact O1.
      * destruct (In2 k Hk) as (ops' & Hops' & O2).
        exists ops'. split; [apply Hstore; exact Hops'|].
        rewrite O2, R1; [reflexivity|]. intros ->. contradiction.
    + intros k Hk. rewrite Out2 by (intros H; apply Hk; right; exact H).
      apply R1. intros ->. apply Hk. left. reflexivity.
Qed.

(** X20: an export that returns has drawn every redaction.  Page [k] of
    the exported document carries one black rectangle for each redaction
    stored for page [k], drawn before the texts, and at most one text for
    each annotation stored for it; nothing else is drawn on it, and the
    exported document has as many pages as the source. *)
Theorem export_draws_every_redaction path s s' out :
  _export_with_overlays tk path s = (s', Ok out) ->
  length out = length (pdf_document s) /\
  forall k, (k < length (pdf_document s))%nat ->
    exists rs ts,
      ops_of out k = map draw_rect rs ++ ts /\
      length rs = length (default [] (_redactions_by_page s !! Z.of_nat k)) /\
      (length ts <= length (default [] (_texts_by_page s !! Z.of_nat k)))%nat /\
      Forall (fun op => is_draw_rect op = false) ts.
Proof.
  intros E. unfold _export_with_overlays in E. rewrite run_get in E.
  cbv beta zeta in E. apply bind_Ok in E as (s1 & out1 & E1 & E).
  destruct (save_raises tk path out1); [discriminate|].
  unfold ret in E. injection E as _ <-.
  unfold range in E1. rewrite Z.sub_0_r, Nat2Z.id, length_map in E1.
  set (blank := map (fun p => {| out_page := p; out_ops := [] |})
                  (pdf_document s)) in E1.
  assert (Lb : length blank = length (pdf_document s)) by apply length_map.
  destruct (export_pages_grow (seq 0 (length (pdf_document s))) blank s s1 out1
              (seq_NoDup _ _)) as (L & Hin & _); [|exact E1|].
  { intros k Hk. rewrite Lb. apply in_seq in Hk. lia. }
  rewrite Lb in L. split; [exact L|].
  intros k Hk. destruct (Hin k) as (ops & (rs & ts & -> & H) & O).
  { apply in_seq. lia. }
  exists rs, ts. split; [|exact H].
  rewrite O. unfold ops_of at 1. subst blank. rewrite list_lookup_fmap.
  destruct (pdf_document s !! k); reflexivity.
Qed.

End Invariants.

(** ** The properties on concrete sessions *)

Import Session.

Ltac compute_side :=
  vm_compute; first [reflexivity | discriminate | lia].

(** A conjunction of closed equations, each settled by evaluation. *)
Ltac split_compute :=
  cbv zeta;
  repeat match goal with |- _ /\ _ => split end; vm_compute; reflexivity.



(** C4 applied to page 0 shown in fit mode (an image of 500 x 647 pixels
    centred in a canvas of 540 x 700) and a pointer at (100, 100). *)
Lemma fit_mode_formula_and_round_trip_witness :
  let cw := inject_Z (winfo_width (pdf_canvas shown)) in
  let ch := inject_Z (winfo_height (pdf_canvas shown)) in
  exists px py,
    _canvas_to_pdf_point shown 0 100 100 = Ok (px, py) /\
    px == (100 - (cw - 500) / 2) * 612 / 500 /\
    py == 792 - (100 - (ch - 647) / 2) * 792 / 647 /\
    point_eq (pdf_point_to_canvas cw ch 500 647 612 792 (px, py)) (100, 100) /\
    (forall x' y' px' py',
        0 <= x' - (cw - 500) / 2 <= 500 ->
        0 <= y' - (ch - 647) / 2 <= 647 ->
        _canvas_to_pdf_point shown 0 x' y' = Ok (px', py') ->
        point_eq (px', py') (px, py) -> point_eq (x', y') (100, 100)).
Proof.
  apply (fit_mode_formula_and_round_trip shown 0 Demo.portrait
           {| width := 500; height := 647 |});
    try compute_side; split; compute_side.
Defined.

(** C2: right after [__init__] no page has been rendered, [_page_photo] is
    [None], and the mapping raises AttributeError where the fallback
    [(10, 792 - 20)] was meant; the fallback is guarded by [hasattr], which
    holds in every state of a session.  In a window too low for
    [display_page] to render, saving a drawn redaction fails with that
    exception. *)
Theorem no_raster_raises_instead_of_fallback :
  _page_photo opened = PyNone /\
  _canvas_to_pdf_point opened 0 10 20 = Raise AttributeError /\
  (forall tk doc s, reachable tk doc s -> hasattr (_page_photo s) = true) /\
  _page_photo cramped = PyNone /\
  _redactions_by_page cramped !! 0%Z = Some [(10, 10, 30, 30)] /\
  snd (do_save Demo.tk (lit "out.pdf") cramped) = Ok (save_failed AttributeError).
Proof.
  split; [reflexivity|]. split; [reflexivity|].
  split; [exact reachable_hasattr_page_photo|].
  split; [reflexivity|]. split; vm_compute; reflexivity.
Qed.

(** C9: the rectangle drawn from (100, 100) to (200, 150) is stored; after
    the Up key its canvas item is five pixels higher, after a drag it lies
    ten pixels further right and down, and the stored rectangle is the old
    one in both cases. *)
Theorem moved_or_nudged_redaction_keeps_old_entry :
  _redactions_by_page drawn !! 0%Z = Some [(100, 100, 200, 150)] /\
  canvas_coords (pdf_canvas nudged) 3 = [100; 100; 200; 155] /\
  _redactions_by_page nudged !! 0%Z = Some [(100, 100, 200, 150)] /\
  canvas_coords (pdf_canvas moved) 3 = [110; 110; 210; 160] /\
  _redactions_by_page moved !! 0%Z = Some [(100, 100, 200, 150)].
Proof. split_compute. Qed.

(** C1: the same redaction rectangle of page 1 is exported to different
    page-space rectangles depending on the page that is displayed when the
    export starts: with page 0 displayed it is mapped with the display
    size of page 0 (500 x 647) instead of that of page 1 (500 x 386).  A
    text annotation at the same place is exported to the same point either
    way, because its loop displays page 1 first. *)
Theorem export_maps_redactions_with_displayed_page :
  overlay_state back_on_page0 = overlay_state redacted_page1 /\
  _redactions_by_page redacted_page1 !! 1%Z = Some [(100, 200, 200, 250)] /\
  _page_photo redacted_page1 = Obj {| width := 500; height := 386 |} /\
  _page_photo back_on_page0 = Obj {| width := 500; height := 647 |} /\
  (exists r1 r0,
      snd (_export_with_overlays Demo.tk (lit "out.pdf") redacted_page1) =
        Ok [ {| out_page := Demo.portrait; out_ops := [] |};
             {| out_page := Demo.landscape; out_ops := [draw_rect r1] |} ] /\
      snd (_export_with_overlays Demo.tk (lit "out.pdf") back_on_page0) =
        Ok [ {| out_page := Demo.portrait; out_ops := [] |};
             {| out_page := Demo.landscape; out_ops := [draw_rect r0] |} ] /\
      rect_eq r1 (80 * (792 / 500), 612 - 93 * (612 / 386),
                  180 * (792 / 500), 612 - 43 * (612 / 386)) /\
      rect_eq r0 (80 * (792 / 500), 612 - (4470 # 20) * (612 / 647),
                  180 * (792 / 500), 612 - (3470 # 20) * (612 / 647)) /\
      ~ rect_eq r1 r0) /\
  snd (_export_with_overlays Demo.tk (lit "out.pdf") annotated_page1) =
  snd (_export_with_overlays Demo.tk (lit "out.pdf") annotated_back_on_page0).
Proof.
  split; [vm_compute; reflexivity|]. split; [vm_compute; reflexivity|].
  split; [reflexivity|]. split; [reflexivity|]. split.
  - eexists _, _. split; [vm_compute; reflexivity|].
    split; [vm_compute; reflexivity|].
    split; [vm_compute; repeat split|]. split; [vm_compute; repeat split|].
    intros (_ & H & _). vm_compute in H. discriminate.
  - vm_compute. reflexivity.
Qed.

(** The remaining properties at work. *)

Example thin_stroke_discarded :
  _redactions_by_page thin_stroke = ∅ /\
  find_withtag (pdf_canvas thin_stroke) tag_redact_overlay = [] /\
  _redactions_by_page drawn !! 0%Z = Some [(100, 100, 200, 150)].
Proof. split_compute. Qed.

Example blank_text_discarded :
  text_state blank_text = text_state shown /\
  _texts_by_page hello_text !! 0%Z = Some [0%nat] /\
  td_text <$> text_heap hello_text !! 0%nat = Some (lit "Hello").
Proof. split_compute. Qed.

Example two_hundred_and_one_thumbnails :
  keys (thumbnail_cache (ensure_thumbs Demo.tk (range 0 201) long_doc)) =
  range 1 201.
Proof. vm_compute. reflexivity. Qed.

Example save_on_full_disk_then_retry :
  let failed := do_save Demo.tk_disk_full (lit "out.pdf") drawn in
  snd failed = Ok (save_failed (OSError 28)) /\
  overlay_state (fst failed) = overlay_state drawn /\
  snd (do_save Demo.tk (lit "out.pdf") (fst failed)) = Ok save_done.
Proof. split_compute. Qed.

(** ** Further properties on concrete sessions *)

Lemma reachable_opened : reachable Demo.tk doc opened.
Proof. exact (reachable_init Demo.tk doc). Qed.

Lemma reachable_session inputs : reachable Demo.tk doc (run Demo.tk opened inputs).
Proof. exact (reachable_run Demo.tk doc opened inputs reachable_opened). Qed.

Lemma reachable_shown : reachable Demo.tk doc shown.
Proof. exact (reachable_session [Configure 540 700; Timer]). Qed.

Lemma reachable_from_shown inputs : reachable Demo.tk doc (run Demo.tk shown inputs).
Proof. exact (reachable_run Demo.tk doc shown inputs reachable_shown). Qed.

Lemma reachable_redacting : reachable Demo.tk doc redacting.
Proof. exact (reachable_from_shown [Row tool_redact]). Qed.

Lemma reachable_drawn : reachable Demo.tk doc drawn.
Proof.
  exact (reachable_from_shown
           [Row tool_redact; Button1 (Demo.at_ 100 100); Motion (Demo.at_ 200 150);
            Release (Demo.at_ 200 150)]).
Qed.

Lemma reachable_back_on_page0 : reachable Demo.tk doc annotated_back_on_page0.
Proof.
  apply (reachable_run Demo.tk doc annotated_page1 [Thumb 0]).
  exact (reachable_from_shown
           [Thumb 1; Row tool_write; Button1 (Demo.at_ 100 200);
            EntryReturn 0 (lit "Hello")]).
Qed.

(** X1 applied to the colour ff8000. *)
Lemma hex_to_rgb01_six_digits_witness :
  exists r g b,
    _hex_to_rgb01 (lit "#ff8000") = Ok (r, g, b) /\
    _hex_to_rgb01 (lit "ff8000") = Ok (r, g, b) /\
    r = channel 15 15 /\ g = channel 8 0 /\ b = channel 0 0 /\
    0 <= r <= 1 /\ 0 <= g <= 1 /\ 0 <= b <= 1.
Proof.
  apply (hex_to_rgb01_six_digits 102 102 56 48 48 48 15 15 8 0 0 0); reflexivity.
Defined.

(** X2 applied to the colour #0f8. *)
Lemma hex_to_rgb01_shorthand_witness :
  _hex_to_rgb01 (lit "#0f8") = _hex_to_rgb01 (lit "#00ff88").
Proof. apply (hex_to_rgb01_shorthand 48 102 56); reflexivity. Defined.

(** X3 applied to the colour #ab. *)
Lemma hex_to_rgb01_too_short_witness :
  _hex_to_rgb01 (lit "#ab") = Raise ValueError.
Proof. apply (hex_to_rgb01_too_short (lit "#ab")); compute_side. Defined.

(** X4 applied to the viewer after [__init__] and the family
    "Comic Sans MS", which no key matches. *)
Lemma fitz_font_is_base14_witness :
  _font_map opened = the_font_map /\
  _fitz_font_from_tk opened (lit "Comic Sans MS") = lit "helv" /\
  _fitz_font_from_tk opened (lit "Times New Roman") = lit "times".
Proof.
  assert (H : _font_map opened = the_font_map) by reflexivity.
  split; [exact H|].
  destruct (fitz_font_is_base14 opened (lit "Comic Sans MS") H)
    as (_ & _ & E & _ & _ & D).
  split; [|exact E].
  apply D. intros key Hkey. cbn in Hkey.
  repeat (destruct Hkey as [<-|Hkey]; [reflexivity|]). destruct Hkey.
Defined.

(** X5 applied to page 0 shown in fit mode and the canvas corners
    (100, 100) and (200, 150). *)
Lemma canvas_rect_flips_corners_witness :
  exists px0 py0 px1 py1,
    _canvas_to_pdf_point shown 0 100 100 = Ok (px0, py0) /\
    _canvas_to_pdf_point shown 0 200 150 = Ok (px1, py1) /\
    px0 <= px1 /\ py1 <= py0 /\
    result_eq rect_eq (_canvas_rect_to_pdf_rect shown 0 100 100 200 150)
      (Ok (px0, py1, px1, py0)).
Proof.
  apply (canvas_rect_flips_corners shown 0 Demo.portrait
           {| width := 500; height := 647 |}); compute_side.
Defined.

(** X6 applied to page 0 shown in fit mode and the step 1/10 of the
    wheel. *)
Lemma zoom_stays_in_bounds_witness :
  let up := fst (zoom_in Demo.tk (1 # 10) shown) in
  let down := fst (zoom_out Demo.tk (1 # 10) shown) in
  (min_zoom shown <= zoom up <= max_zoom shown /\ zoom shown <= zoom up /\
   fit_to_window up = false) /\
  (min_zoom shown <= zoom down <= max_zoom shown /\ zoom down <= zoom shown /\
   fit_to_window down = false).
Proof.
  apply (zoom_stays_in_bounds Demo.tk (1 # 10) shown); [|split]; compute_side.
Defined.

(** X8 applied to the session with page 0 shown. *)
Lemma rendering_and_navigation_return_witness :
  snd (display_page Demo.tk shown) = Ok tt /\
  (forall p, snd (goto_page Demo.tk p shown) = Ok tt) /\
  snd (next_page Demo.tk shown) = Ok tt /\
  snd (prev_page Demo.tk shown) = Ok tt.
Proof.
  apply (rendering_and_navigation_return Demo.tk doc shown);
    [discriminate|exact reachable_shown].
Defined.


(** X11 applied to the redaction tool on page 0 and a stroke from
    (100, 100) to (200, 150), released at (210, 160). *)
Lemma draw_gesture_stores_the_box_witness :
  let s' := run Demo.tk redacting
              [Button1 (Demo.at_ 100 100); Motion (Demo.at_ 200 150); Release (Demo.at_ 210 160)] in
  let box := (Py.min (ex (Demo.at_ 100 100)) (ex (Demo.at_ 200 150)),
              Py.min (ey (Demo.at_ 100 100)) (ey (Demo.at_ 200 150)),
              Py.max (ex (Demo.at_ 100 100)) (ex (Demo.at_ 200 150)),
              Py.max (ey (Demo.at_ 100 100)) (ey (Demo.at_ 200 150))) in
  (Qabs (ex (Demo.at_ 200 150) - ex (Demo.at_ 100 100)) < 5 \/
   Qabs (ey (Demo.at_ 200 150) - ey (Demo.at_ 100 100)) < 5 ->
   _redactions_by_page s' = _redactions_by_page redacting /\
   canvas_items (pdf_canvas s') = canvas_items (pdf_canvas redacting)) /\
  (5 <= Qabs (ex (Demo.at_ 200 150) - ex (Demo.at_ 100 100)) ->
   5 <= Qabs (ey (Demo.at_ 200 150) - ey (Demo.at_ 100 100)) ->
   _redactions_by_page s' =
     <[current_page redacting :=
         default [] (_redactions_by_page redacting !! current_page redacting) ++ [box]]>
       (_redactions_by_page redacting) /\
   canvas_items (pdf_canvas s') =
     canvas_items (pdf_canvas redacting) ++
       [((last_item (pdf_canvas redacting) + 1)%Z,
         {| item_kind := rectangle_item;
            item_coords := [Py.min (ex (Demo.at_ 100 100)) (ex (Demo.at_ 200 150));
                            Py.min (ey (Demo.at_ 100 100)) (ey (Demo.at_ 200 150));
                            Py.max (ex (Demo.at_ 100 100)) (ex (Demo.at_ 200 150));
                            Py.max (ey (Demo.at_ 100 100)) (ey (Demo.at_ 200 150))];
            item_tags := [tag_redact_overlay] |})]).
Proof.
  apply (draw_gesture_stores_the_box Demo.tk doc redacting
           (Demo.at_ 100 100) (Demo.at_ 200 150) (Demo.at_ 210 160));
    [exact reachable_redacting|compute_side|compute_side].
Defined.

(** X12 applied to the rectangle drawn from (100, 100) to (200, 150),
    grabbed at (150, 120) and moved over (155, 140) to (160, 130). *)
Lemma move_gesture_translates_witness :
  let s' := run Demo.tk drawn
              (Button1 (Demo.at_ 150 120) :: map Motion [Demo.at_ 155 140] ++ [Motion (Demo.at_ 160 130)]) in
  exists a' b' c' d',
    canvas_coords (pdf_canvas s') 3 = [a'; b'; c'; d'] /\
    a' == 100 + (ex (Demo.at_ 160 130) - ex (Demo.at_ 150 120)) /\
    b' == 100 + (ey (Demo.at_ 160 130) - ey (Demo.at_ 150 120)) /\
    c' == 200 + (ex (Demo.at_ 160 130) - ex (Demo.at_ 150 120)) /\
    d' == 150 + (ey (Demo.at_ 160 130) - ey (Demo.at_ 150 120)).
Proof.
  apply (move_gesture_translates Demo.tk doc drawn (Demo.at_ 150 120) [Demo.at_ 155 140]
           (Demo.at_ 160 130) 3%Z 100 100 200 150 [tag_redact_overlay]);
    [exact reachable_drawn|compute_side..].
Defined.

(** X13 applied to the rectangle drawn from (100, 100) to (200, 150). *)
Lemma arrow_keys_resize_the_redaction_witness :
  let after i := canvas_coords (pdf_canvas (step Demo.tk drawn i)) 3 in
  (exists d', after KeyUp = [100; 100; 200; d'] /\ d' == 150 + 5) /\
  (exists d', after KeyDown = [100; 100; 200; d'] /\
              d' == Py.max (100 + 5) (150 - 5) /\ 5 <= d' - 100) /\
  (exists c', after KeyRight = [100; 100; c'; 150] /\ c' == 200 + 5) /\
  (exists c', after KeyLeft = [100; 100; c'; 150] /\
              c' == Py.max (100 + 5) (200 - 5) /\ 5 <= c' - 100).
Proof.
  apply (arrow_keys_resize_the_redaction Demo.tk doc drawn
           {| start_x := None; start_y := None; current_item := Some 3%Z;
              mode := draw; offset := None |}
           3%Z 100 100 200 150 [tag_redact_overlay]);
    [exact reachable_drawn|compute_side..].
Defined.

(** X14 applied to the redaction tool on page 0 and a stroke from
    (100, 100) to (200, 150). *)
Lemma draw_then_delete_leaves_no_trace_witness :
  let s' := run Demo.tk redacting
              [Button1 (Demo.at_ 100 100); Motion (Demo.at_ 200 150); Release (Demo.at_ 200 150);
               KeyDelete] in
  (forall p, default [] (_redactions_by_page s' !! p) =
             default [] (_redactions_by_page redacting !! p)) /\
  canvas_items (pdf_canvas s') = canvas_items (pdf_canvas redacting).
Proof.
  apply (draw_then_delete_leaves_no_trace Demo.tk doc redacting
           (Demo.at_ 100 100) (Demo.at_ 200 150) (Demo.at_ 200 150));
    [exact reachable_redacting|compute_side..].
Defined.

(** X15 applied to page 0 shown, the redaction tool and the click on the
    thumbnail of page 1. *)
Lemma arrow_keys_stop_turning_pages_witness :
  let s' := run Demo.tk shown (Row tool_redact :: [Thumb 1]) in
  key_bindings s' <> keys_navigate /\
  current_page (step Demo.tk s' KeyLeft) = current_page s' /\
  current_page (step Demo.tk s' KeyRight) = current_page s'.
Proof.
  apply (arrow_keys_stop_turning_pages Demo.tk tool_redact [Thumb 1] shown).
  discriminate.
Defined.

(** X16 applied to the text "Hello" selected, with the panel on
    Sans (Helvetica), size 12 and black. *)
Lemma panel_change_restyles_the_selection_witness :
  let heap_after i := text_heap (step Demo.tk picked_text i) in
  (forall label, heap_after (PanelFont label) =
     <[0%nat := restyled (_font_map picked_text) label 12 (lit "#000000") hello]>
       (text_heap picked_text)) /\
  (forall size, heap_after (PanelSize size) =
     <[0%nat := restyled (_font_map picked_text) (lit "Sans (Helvetica)") size
                  (lit "#000000") hello]>
       (text_heap picked_text)) /\
  (forall color, heap_after (PanelColor color) =
     <[0%nat := restyled (_font_map picked_text) (lit "Sans (Helvetica)") 12
                  color hello]>
       (text_heap picked_text)).
Proof.
  apply (panel_change_restyles_the_selection Demo.tk picked_text 4%Z 0%nat hello
           (lit "Sans (Helvetica)") 12%Z (lit "#000000")); compute_side.
Defined.



(** X19 applied to the session with a text on page 1 and page 0 shown,
    turning to page 1. *)
Lemma turning_the_page_shows_its_overlays_witness :
  let s' := fst (goto_page Demo.tk 1 annotated_back_on_page0) in
  current_page s' = 1%Z /\
  shown_with tag_redact_overlay (pdf_canvas s') =
    map rect_shape (default [] (_redactions_by_page annotated_back_on_page0 !! 1%Z)) /\
  map Some (shown_with tag_text_overlay (pdf_canvas s')) =
    map (text_shape (text_heap annotated_back_on_page0))
      (default [] (_texts_by_page annotated_back_on_page0 !! 1%Z)).
Proof.
  apply (turning_the_page_shows_its_overlays Demo.tk doc annotated_back_on_page0 1);
    [exact reachable_back_on_page0|compute_side|compute_side|split; compute_side].
Defined.

(** X20 applied to the export of the session with a redaction on page
    0. *)
Lemma export_draws_every_redaction_witness :
  let exported := _export_with_overlays Demo.tk (lit "out.pdf") drawn in
  let out := match snd exported with Ok o => o | Raise _ => [] end in
  length out = length (pdf_document drawn) /\
  forall k, (k < length (pdf_document drawn))%nat ->
    exists rs ts,
      ops_of out k = map draw_rect rs ++ ts /\
      length rs = length (default [] (_redactions_by_page drawn !! Z.of_nat k)) /\
      (length ts <= length (default [] (_texts_by_page drawn !! Z.of_nat k)))%nat /\
      Forall (fun op => is_draw_rect op = false) ts.
Proof.
  apply (export_draws_every_redaction Demo.tk (lit "out.pdf") drawn
           (fst (_export_with_overlays Demo.tk (lit "out.pdf") drawn))).
  vm_compute. reflexivity.
Defined.

(** X21 applied to page 0 fitted into a canvas of 540 x 632 pixels and a
    pointer at (300, 700), below the image. *)
Lemma fit_mode_clamps_in_doubles_witness :
  let display_width := Double.of_int 457 in
  let display_height := Double.of_int 592 in
  let rel_x := (300 - Double.of_int (540 - 457) / 2)%float in
  let rel_y := (700 - Double.of_int (632 - 592) / 2)%float in
  exists lx ly,
    Double._canvas_to_pdf_point true 540 632 457 592 612 792 300 700 =
    Ok ((lx * (612 / display_width))%float,
        (792 - ly * (792 / display_height))%float) /\
    (lx = rel_x \/ lx = 0%float \/ lx = display_width) /\
    (ly = rel_y \/ ly = 0%float \/ ly = display_height) /\
    Double.ltb lx 0 = false /\ Double.gtb lx display_width = false /\
    Double.ltb ly 0 = false /\ Double.gtb ly display_height = false.
Proof.
  apply (fit_mode_clamps_in_doubles 540 632 457 592 612 792 300 700);
    reflexivity.
Defined.
